(** * Checkout SDK: billing-address action creator, Stripe checkout-session
      payment strategy, Stripe UPE script loader and language service.

    A shallow embedding of the TypeScript sources and the properties the
    specification states about them.  JavaScript objects are finite maps from
    property names to values; promise-returning collaborators are oracles that
    answer from the history of calls made so far; every externally visible
    call is recorded in a trace. *)

From Stdlib Require Import String List ZArith Bool Lia.
From stdpp Require Import base option gmap strings list fin_maps.

Local Open Scope string_scope.

(* ===================================================================== *)
(** ** JavaScript values                                                  *)
(* ===================================================================== *)

Module Js.

(** The primitive values the modelled code inspects. *)
Inductive value : Type :=
| VUndefined
| VNull
| VBool (b : bool)
| VNum (n : Z)
| VStr (s : string).

#[global] Instance value_eq_dec : EqDecision value.
Proof. solve_decision. Defined.

(** [ToBoolean]. *)
Definition truthy (v : value) : bool :=
  match v with
  | VUndefined | VNull => false
  | VBool b => b
  | VNum n => negb (n =? 0)%Z
  | VStr s => negb (String.eqb s EmptyString)
  end.

(** [typeof v === 'string'] and [typeof v === 'undefined']. *)
Definition is_string (v : value) : bool :=
  match v with VStr _ => true | _ => false end.

Definition is_undefined (v : value) : bool :=
  match v with VUndefined => true | _ => false end.

(** [v === undefined || v === null]. *)
Definition is_nullish (v : value) : bool :=
  match v with VUndefined | VNull => true | _ => false end.

(** [a || b] and [a ?? b]. *)
Definition or (a b : value) : value := if truthy a then a else b.
Definition coalesce (a b : value) : value := if is_nullish a then b else a.

(** A plain object: own enumerable properties.  A property may be present
    with the value [undefined]. *)
Abbreviation object := (gmap string value).

(** Property read [o.k] (no prototype chain: the keys read by the modelled
    code are never inherited ones). *)
Definition get (o : object) (k : string) : value := default VUndefined (o !! k).

(** Object spread [{...a, ...b}]: the properties of [b] win. *)
Definition spread (a b : object) : object := b ∪ a.

(** Rest destructuring [const {k, ...rest} = o]. *)
Definition rest (k : string) (o : object) : object := delete k o.

(** lodash [isEmpty] on [undefined] or a plain object. *)
Definition isEmpty (o : option object) : bool :=
  match o with
  | None => true
  | Some m => bool_decide (m = ∅)
  end.

(** The double-quote character. *)
Definition dquote : string := String (Ascii.ascii_of_nat 34) EmptyString.

(** [s1 || s2] on possibly undefined strings. *)
Definition or_string (a b : option string) : option string :=
  match a with
  | Some s => if String.eqb s EmptyString then b else Some s
  | None => b
  end.

End Js.

(** Outcome of a call: a value, or a thrown value / rejected promise. *)
Inductive Result (E A : Type) : Type :=
| Ok (a : A)
| Throw (e : E).
Arguments Ok {E A} a.
Arguments Throw {E A} e.

(* ===================================================================== *)
(** ** LanguageService (language-service.ts)                              *)
(* ===================================================================== *)

Module Language.

Definition DEFAULT_LOCALE : string := "en".
Definition KEY_PREFIX : string := "optimized_checkout".

(** [`${KEY_PREFIX}.${key}`] *)
Definition prefixed (key : string) : string := KEY_PREFIX ++ "." ++ key.

(** [TranslationData]. *)
Abbreviation TranslationData := (gmap string Js.value).

(** What [translate] can throw: a format error (an object carrying
    [originalMessage]) or anything else. *)
Inductive Thrown : Type :=
| FormatError (originalMessage : option string)
| OtherError (msg : string).

(** [_isFormatError]: an object with an [originalMessage] property. *)
Definition _isFormatError (e : Thrown) : bool :=
  match e with FormatError _ => true | OtherError _ => false end.

(** [_transformData]: [null] and [undefined] become the empty string. *)
Definition _transformData (data : TranslationData) : TranslationData :=
  (fun v => if Js.is_nullish v then Js.VStr EmptyString else v) <$> data.

Section Service.
(** The two message-format libraries and the regular-expression rewrite
    of [_escapeSpecialCharacters] are external to the class. *)
Variable Formatter : Type.
Variable IntlMessageFormat_new : string -> option string -> Result Thrown Formatter.
Variable IntlMessageFormat_format : Formatter -> TranslationData -> Result Thrown string.
Variable MessageFormat_compile : option string -> string -> Result Thrown Formatter.
Variable MessageFormat_apply : Formatter -> TranslationData -> Result Thrown string.
Variable _escapeSpecialCharacters : string -> string.

(** The private fields of the service; [_logger] is represented by the
    warnings it has received, oldest first. *)
Record LanguageService : Type := {
  _locale : string;
  _locales : gmap string string;
  _translations : gmap string Js.value;
  _formatters : gmap string Formatter;
  _isCspNonceExperimentEnabled : bool;
  _logger : list string;
}.

Definition warn (msg : string) (s : LanguageService) : LanguageService :=
  {| _locale := _locale s; _locales := _locales s;
     _translations := _translations s; _formatters := _formatters s;
     _isCspNonceExperimentEnabled := _isCspNonceExperimentEnabled s;
     _logger := _logger s ++ [msg] |}.

Definition set_formatter (k : string) (f : Formatter) (s : LanguageService)
  : LanguageService :=
  {| _locale := _locale s; _locales := _locales s;
     _translations := _translations s;
     _formatters := <[k := f]> (_formatters s);
     _isCspNonceExperimentEnabled := _isCspNonceExperimentEnabled s;
     _logger := _logger s |}.

(** [this._translations[prefixedKey] || ''] once it is known to be a
    string. *)
Definition translation_or_empty (v : Js.value) : string :=
  match Js.or v (Js.VStr EmptyString) with Js.VStr s => s | _ => EmptyString end.

(** [mapKeys]: [Object.keys(maps).forEach], in key order. *)
Definition mapKeys (maps : list (string * string)) (s : LanguageService)
  : LanguageService :=
  fold_left
    (fun acc kv =>
       {| _locale := _locale acc; _locales := _locales acc;
          _translations :=
            <[prefixed (fst kv) := Js.get (_translations acc) (prefixed (snd kv))]>
              (_translations acc);
          _formatters := _formatters acc;
          _isCspNonceExperimentEnabled := _isCspNonceExperimentEnabled acc;
          _logger := _logger acc |})
    maps s.

(** [translate(key, data)]. *)
Definition translate (key : string) (data : TranslationData) (s : LanguageService)
  : Result Thrown string * LanguageService :=
  let prefixedKey := prefixed key in
  let t := Js.get (_translations s) prefixedKey in
  if negb (Js.is_string t) then
    (Ok prefixedKey,
     warn ("Translation key " ++ Js.dquote ++ prefixedKey ++ Js.dquote ++ " is missing") s)
  else if _isCspNonceExperimentEnabled s then
    let made :=
      match _formatters s !! prefixedKey with
      | Some f => Ok (f, s)
      | None =>
          match IntlMessageFormat_new
                  (_escapeSpecialCharacters (translation_or_empty t))
                  (_locales s !! prefixedKey) with
          | Ok f => Ok (f, set_formatter prefixedKey f s)
          | Throw e => Throw e
          end
      end in
    match made with
    | Throw e => (Throw e, s)
    | Ok (f, s') =>
        match IntlMessageFormat_format f (_transformData data) with
        | Ok r => (Ok r, s')
        | Throw e =>
            if _isFormatError e
            then (Ok (match e with
                      | FormatError (Some m) => m
                      | _ => EmptyString
                      end), s')
            else (Throw e, s')
        end
    end
  else
    let made :=
      match _formatters s !! prefixedKey with
      | Some f => Ok (f, s)
      | None =>
          match MessageFormat_compile (_locales s !! prefixedKey)
                                      (translation_or_empty t) with
          | Ok f => Ok (f, set_formatter prefixedKey f s)
          | Throw e => Throw e
          end
      end in
    match made with
    | Throw e => (Throw e, s)
    | Ok (f, s') => (MessageFormat_apply f (_transformData data), s')
    end.

End Service.

Arguments _locale {Formatter} _.
Arguments _locales {Formatter} _.
Arguments _translations {Formatter} _.
Arguments _formatters {Formatter} _.
Arguments _isCspNonceExperimentEnabled {Formatter} _.
Arguments _logger {Formatter} _.
Arguments warn {Formatter} _ _.

(** A service without formatting libraries, holding one translation that
    is a string and one that is not. *)
Definition serviceMock : LanguageService unit :=
  {| _locale := "en";
     _locales := ∅;
     _translations :=
       {[ "optimized_checkout.test.greeting" := Js.VStr "Hello";
          "optimized_checkout.test.count" := Js.VNum 5 ]};
     _formatters := ∅;
     _isCspNonceExperimentEnabled := true;
     _logger := [] |}.

End Language.

(* ===================================================================== *)
(** ** StripeCSPaymentStrategy (stripe-cs-payment-strategy.ts)            *)
(* ===================================================================== *)

Module StripeCS.

(** *** Errors *)

Inductive NotInitializedErrorType : Type := PaymentNotInitialized.
Inductive MissingDataErrorType : Type := MissingPaymentMethod | MissingCheckout.

Record AdditionalActionData : Type := {
  redirect_url : option string;
  token : option string;
}.

Record AdditionalActionRequired : Type := {
  aa_type : string;
  aa_data : option AdditionalActionData;
}.

Record ErrorItem : Type := { code : string }.

Record ErrorResponseBody : Type := {
  errors : list ErrorItem;
  additional_action_required : option AdditionalActionRequired;
}.

Inductive Error : Type :=
| NotInitializedError (t : NotInitializedErrorType)
| InvalidArgumentError (msg : string)
| MissingDataError (t : MissingDataErrorType)
| PaymentMethodFailedError (msg : option string)
| OrderFinalizationNotRequiredError
| RequestError (body : ErrorResponseBody)
| TypeError (msg : string)
| GenericError (msg : string).

(** Anything can be thrown or used to reject a promise; only some thrown
    values are [instanceof Error]. *)
Inductive Thrown : Type :=
| ThrownError (e : Error)
| ThrownValue (v : Js.value).

(** *** Vendor handles and data *)

Inductive StripeClient : Type := StripeClientHandle (n : nat).
Inductive StripeCheckoutInstance : Type := StripeCheckoutHandle (n : nat).
Inductive StripeElement : Type := StripeElementHandle (n : nat).
Inductive StripeCheckoutSessionActions : Type := StripeActionsHandle (n : nat).

Inductive StripeJsVersion : Type := V3 | CLOVER.
Inductive StripeStringConstants : Type := NEVER | AUTO | IF_REQUIRED.
Inductive StripeElementEvent : Type := LOADER_START | READY | CHANGE.

Inductive StripeCheckoutSessionPaymentStatus : Type :=
| Paid
| UnPaid
| NoPaymentRequired.

Record StripeCheckoutSessionStatus : Type := {
  paymentStatus : StripeCheckoutSessionPaymentStatus;
}.

(** A checkout session as the vendor returns it: at run time any of the
    fields read by the strategy can be missing. *)
Record StripeCheckoutSession : Type := {
  session_id : option string;
  session_status : option StripeCheckoutSessionStatus;
  session_total_amount : option Z;
}.

Record StripeError : Type := { message : option string }.

Record StripeConfirmResult : Type := {
  confirm_session : option StripeCheckoutSession;
  confirm_error : option StripeError;
}.

Record StripeLoadActionsResult : Type := {
  actions : option StripeCheckoutSessionActions;
  load_error : option StripeError;
}.

Record StripeInitializationData : Type := {
  stripePublishableKey : string;
  stripeConnectedAccount : string;
  shopperLanguage : string;
  enableLink : option bool;
}.

Record PaymentMethod : Type := {
  clientToken : option string;
  initializationData : option StripeInitializationData;
}.

(** [isStripePaymentMethodLike] belongs to stripe-utils, which is not among
    the sources.  The guard narrows to a method whose [initializationData]
    can be read, so it is taken to hold exactly when that field is
    present. *)
Definition isStripePaymentMethodLike (pm : PaymentMethod) : bool :=
  match initializationData pm with Some _ => true | None => false end.

Record Address : Type := {
  email : option string;
  postalCode : string;
}.

Record Checkout : Type := { isStoreCreditApplied : bool }.
Record Cart : Type := { cart_id : string }.

(** [PaymentIntegrationSelectors]: one snapshot of the checkout state. *)
Record Selectors : Type := {
  getPaymentMethodOrThrow : string -> option string -> Result Thrown PaymentMethod;
  getCheckoutOrThrow : Result Thrown Checkout;
  getCart : option Cart;
  getCartLocale : string;
  getBillingAddress : option Address;
  getShippingAddress : option Address;
}.

(** *** Arguments of the lifecycle methods *)

(** [StripeOCSPaymentInitializeOptions].  A callback is represented by
    whether the caller supplied it; each invocation is an event of the
    trace.  Callbacks and the vendor's [void] element methods return
    normally. *)
Record StripeOCSPaymentInitializeOptions : Type := {
  containerId : string;
  appearance : Js.value;
  fonts : Js.value;
  layout : Js.value;
  has_onError : bool;
  has_paymentMethodSelect : bool;
  has_handleClosePaymentMethod : bool;
  has_togglePreloader : bool;
}.

Record PaymentInitializeOptions : Type := {
  init_methodId : string;
  init_gatewayId : option string;
  stripeocs : option StripeOCSPaymentInitializeOptions;
}.

Record OrderPaymentRequestBody : Type := {
  pay_methodId : string;
  pay_gatewayId : option string;
}.

Record OrderRequestBody : Type := {
  payment : option OrderPaymentRequestBody;
  order : Js.object;
}.

(** The payment payload built by [_getPaymentPayload]. *)
Record Payment : Type := {
  methodId : string;
  formatted_cart_id : string;
  formatted_confirm : bool;
  formatted_method : option string;
  credit_card_token : option string;
}.

Record StripeElementsCreateOptions : Type := {
  fields_email : StripeStringConstants;
  fields_country : StripeStringConstants;
  fields_city : StripeStringConstants;
  fields_postalCode : StripeStringConstants;
  wallets_applePay : StripeStringConstants;
  wallets_googlePay : StripeStringConstants;
  wallets_link : StripeStringConstants;
  create_layout : Js.value;
}.

Record StripeCheckoutOptions : Type := {
  clientSecret : string;
  elements_appearance : Js.value;
  elements_fonts : Js.value;
  adaptivePricing_allowed : bool;
}.

Record StripeConfirmOptions : Type := {
  redirect : StripeStringConstants;
  returnUrl : option string;
}.

Record StripePaymentEvent : Type := {
  event_value_type : string;
  event_collapsed : bool;
}.

(** *** Trace of externally visible calls *)

Inductive Event : Type :=
| EvLoadPaymentMethod (gatewayId method : string) (failed : option Thrown)
| EvApplyStoreCredit (b : bool) (failed : option Thrown)
| EvSubmitOrder (o : Js.object) (opts : option Js.object) (failed : option Thrown)
| EvSubmitPayment (p : Payment) (failed : option Thrown)
| EvGetStripeClient (d : StripeInitializationData) (locale : string)
    (v : StripeJsVersion) (r : Result Thrown StripeClient)
| EvGetStripeCheckout (c : StripeClient) (o : StripeCheckoutOptions)
    (r : Result Thrown StripeCheckoutInstance)
| EvLoadActions (co : StripeCheckoutInstance) (r : Result Thrown StripeLoadActionsResult)
| EvUpdateEmail (a : StripeCheckoutSessionActions) (email : string) (failed : option Thrown)
| EvConfirm (a : StripeCheckoutSessionActions) (o : StripeConfirmOptions)
    (r : Result Thrown StripeConfirmResult)
| EvGetSession (a : StripeCheckoutSessionActions)
    (r : Result Thrown (option StripeCheckoutSession))
| EvCreatePaymentElement (co : StripeCheckoutInstance) (o : option StripeElementsCreateOptions)
    (r : option StripeElement)
| EvCreateCurrencySelectorElement (co : StripeCheckoutInstance) (r : option StripeElement)
| EvMountElement (e : StripeElement) (container : string)
| EvMount (e : StripeElement) (selector : string)
| EvUnmount (e : StripeElement)
| EvDestroy (e : StripeElement)
| EvCollapse (e : StripeElement)
| EvOn (e : StripeElement) (ev : StripeElementEvent)
| EvSetTextContent (element_id : string) (text : string)
| EvOnError (e : Error)
| EvRender
| EvTogglePreloader (b : bool)
| EvPaymentMethodSelect (id : string)
| EvHandleClosePaymentMethod
| EvThrowPaymentConfirmationProceedMessage
| EvConsole (msg : string).

Abbreviation Trace := (list Event).

(** *** The collaborators

    Every collaborator answers from the history of calls made so far, so
    that two calls with equal arguments may be answered differently. *)
Record World : Type := {
  (* PaymentIntegrationService *)
  getState : Trace -> Selectors;
  loadPaymentMethod : Trace -> string -> string -> Result Thrown Selectors;
  applyStoreCredit : Trace -> bool -> Result Thrown unit;
  submitOrder : Trace -> Js.object -> option Js.object -> Result Thrown unit;
  submitPayment : Trace -> Payment -> Result Thrown unit;
  (* StripeIntegrationService *)
  isAdditionalActionError : list ErrorItem -> bool;
  (* StripeScriptLoader *)
  getStripeClient : Trace -> StripeInitializationData -> string -> StripeJsVersion ->
                    Result Thrown StripeClient;
  getStripeCheckout : Trace -> StripeClient -> StripeCheckoutOptions ->
                      Result Thrown StripeCheckoutInstance;
  (* StripeCheckoutInstance *)
  loadActions : Trace -> StripeCheckoutInstance -> Result Thrown StripeLoadActionsResult;
  getPaymentElement : Trace -> StripeCheckoutInstance -> option StripeElement;
  createPaymentElement : Trace -> StripeCheckoutInstance ->
                         option StripeElementsCreateOptions -> option StripeElement;
  getCurrencySelectorElement : Trace -> StripeCheckoutInstance -> option StripeElement;
  createCurrencySelectorElement : Trace -> StripeCheckoutInstance -> option StripeElement;
  (* StripeCheckoutSessionActions; [getSession] is an optional method *)
  updateEmail : Trace -> StripeCheckoutSessionActions -> string -> Result Thrown unit;
  confirm : Trace -> StripeCheckoutSessionActions -> StripeConfirmOptions ->
            Result Thrown StripeConfirmResult;
  getSession : Trace -> StripeCheckoutSessionActions ->
               option (Result Thrown (option StripeCheckoutSession));
  (* document *)
  getElementById : Trace -> string -> bool;
}.

(** *** The strategy instance and its monad *)

Record Strategy : Type := {
  stripeClient : option StripeClient;
  stripeCheckout : option StripeCheckoutInstance;
  selectedMethodId : option string;
}.

(** The state of a freshly constructed instance. *)
Definition Uninitialized : Strategy :=
  {| stripeClient := None; stripeCheckout := None; selectedMethodId := None |}.

(** A computation reads the instance and the history, and yields its
    outcome, the instance as it left it and the events it added.  An [await]
    is a [bind]: a method runs to its end before another one starts, so the
    instance changes between two steps only through the method itself (a
    method started on an instance that another call has meanwhile cleared is
    a run from that cleared instance). *)
Definition M (A : Type) : Type :=
  Strategy -> Trace -> Result Thrown A * Strategy * Trace.

Definition ret {A} (a : A) : M A := fun s _ => (Ok a, s, []).
Definition throw {A} (e : Thrown) : M A := fun s _ => (Throw e, s, []).

Definition bind {A B} (m : M A) (k : A -> M B) : M B :=
  fun s h =>
    match m s h with
    | (Ok a, s1, t1) =>
        match k a s1 (h ++ t1)%list with
        | (r, s2, t2) => (r, s2, (t1 ++ t2)%list)
        end
    | (Throw e, s1, t1) => (Throw e, s1, t1)
    end.

(** [try { m } catch (e) { handler e }] *)
Definition try_catch {A} (m : M A) (handler : Thrown -> M A) : M A :=
  fun s h =>
    match m s h with
    | (Ok a, s1, t1) => (Ok a, s1, t1)
    | (Throw e, s1, t1) =>
        match handler e s1 (h ++ t1)%list with
        | (r, s2, t2) => (r, s2, (t1 ++ t2)%list)
        end
    end.

Definition this : M Strategy := fun s _ => (Ok s, s, []).
Definition history : M Trace := fun s h => (Ok h, s, []).
Definition emit (e : Event) : M unit := fun s _ => (Ok tt, s, [e]).
Definition lift {A} (r : Result Thrown A) : M A := fun s _ => (r, s, []).

(** A call to a collaborator: answered from the history, and recorded. *)
Definition call {A} (f : Trace -> Result Thrown A) (ev : Result Thrown A -> Event) : M A :=
  fun s h => let r := f h in (r, s, [ev r]).

Definition failure {A} (r : Result Thrown A) : option Thrown :=
  match r with Ok _ => None | Throw e => Some e end.

Definition set_stripeClient (c : option StripeClient) : M unit :=
  fun s _ => (Ok tt, {| stripeClient := c; stripeCheckout := stripeCheckout s;
                        selectedMethodId := selectedMethodId s |}, []).
Definition set_stripeCheckout (c : option StripeCheckoutInstance) : M unit :=
  fun s _ => (Ok tt, {| stripeClient := stripeClient s; stripeCheckout := c;
                        selectedMethodId := selectedMethodId s |}, []).
Definition set_selectedMethodId (m : option string) : M unit :=
  fun s _ => (Ok tt, {| stripeClient := stripeClient s;
                        stripeCheckout := stripeCheckout s;
                        selectedMethodId := m |}, []).

Declare Scope strategy_scope.
Delimit Scope strategy_scope with strategy.
Notation "'let*' x ':=' m 'in' k" := (bind m (fun x => k))
  (at level 10, x name, m at level 100, k at level 200) : strategy_scope.
Notation "m1 '>>' m2" := (bind m1 (fun _ => m2))
  (at level 100, m2 at level 200, right associativity) : strategy_scope.
Local Open Scope strategy_scope.

(** [s || ''] and truthiness for possibly undefined strings. *)
Definition string_truthy (s : option string) : bool :=
  match s with Some x => negb (String.eqb x EmptyString) | None => false end.
Definition string_or_empty (s : option string) : string :=
  match s with Some x => x | None => EmptyString end.

(** *** Methods *)

Section Methods.
Variable w : World.

(** [_loadStripeJs] *)
Definition _loadStripeJs (initData : StripeInitializationData) : M StripeClient :=
  let* self := this in
  match stripeClient self with
  | Some c => ret c
  | None =>
      let* h := history in
      let state := getState w h in
      call (fun h' => getStripeClient w h' initData (getCartLocale state) CLOVER)
           (EvGetStripeClient initData (getCartLocale state) CLOVER)
  end.

(** [_getStripeActionsOrThrow] *)
Definition _getStripeActionsOrThrow : M StripeCheckoutSessionActions :=
  let* self := this in
  match stripeCheckout self with
  | None => throw (ThrownError (NotInitializedError PaymentNotInitialized))
  | Some co =>
      let* r := call (fun h => loadActions w h co) (EvLoadActions co) in
      match actions r, load_error r with
      | Some a, None => ret a
      | _, err => throw (ThrownError (PaymentMethodFailedError (err ≫= message)))
      end
  end.

(** [_getStripeElement] *)
Definition _getStripeElement (options : option StripeElementsCreateOptions)
  : M (option StripeElement) :=
  let* self := this in
  match stripeCheckout self with
  | None => ret None
  | Some co =>
      let* h := history in
      match getPaymentElement w h co with
      | Some e => ret (Some e)
      | None =>
          fun s h' =>
            let r := createPaymentElement w h' co options in
            (Ok r, s, [EvCreatePaymentElement co options r])
      end
  end.

(** [_getCurrencySelectorElement] *)
Definition _getCurrencySelectorElement : M (option StripeElement) :=
  let* self := this in
  match stripeCheckout self with
  | None => ret None
  | Some co =>
      let* h := history in
      match getCurrencySelectorElement w h co with
      | Some e => ret (Some e)
      | None =>
          fun s h' =>
            let r := createCurrencySelectorElement w h' co in
            (Ok r, s, [EvCreateCurrencySelectorElement co r])
      end
  end.

(** [_onStripeElementChange]; [None] stands for an event that is not a
    payment event. *)
Definition _onStripeElementChange (event : option StripePaymentEvent)
    (gatewayId methodId : string) (has_select : bool) : M unit :=
  match event with
  | None => ret tt
  | Some ev =>
      if event_collapsed ev then ret tt
      else
        set_selectedMethodId (Some (event_value_type ev)) >>
        (if has_select
         then emit (EvPaymentMethodSelect (gatewayId ++ "-" ++ methodId))
         else ret tt)
  end.

(** [_collapseStripeElement] *)
Definition _collapseStripeElement : M unit :=
  let* self := this in
  match stripeCheckout self with
  | None => ret tt
  | Some co =>
      let* h := history in
      match getPaymentElement w h co with
      | Some e => emit (EvCollapse e)
      | None => ret tt
      end
  end.

(** [_updateCheckoutSessionData] *)
Definition _updateCheckoutSessionData (gatewayId methodId : string) : M unit :=
  let* _ := call (fun h => loadPaymentMethod w h gatewayId methodId)
                 (fun r => EvLoadPaymentMethod gatewayId methodId (failure r)) in
  ret tt.

(** [_getPaymentPayload] *)
Definition _getPaymentPayload (methodId : string) (token : option string) : M Payment :=
  let* h := history in
  let* self := this in
  let cartId :=
    match getCart (getState w h) with
    | Some c => cart_id c
    | None => EmptyString
    end in
  ret {| methodId := methodId;
         formatted_cart_id := cartId;
         formatted_confirm := false;
         formatted_method := selectedMethodId self;
         credit_card_token := token |}.

Definition do_submitPayment (p : Payment) : M unit :=
  call (fun h => submitPayment w h p) (fun r => EvSubmitPayment p (failure r)).

(** Modelled from the spec: [throwPaymentConfirmationProceedMessage] of
    the Stripe integration service, which is not among the sources; the
    already-paid case "is reported as a payment-method-failure". *)
Definition throwPaymentConfirmationProceedMessage : M unit :=
  emit EvThrowPaymentConfirmationProceedMessage >>
  throw (ThrownError (PaymentMethodFailedError None)).

(** [_confirmStripePaymentOrThrow] *)
Definition _confirmStripePaymentOrThrow (data : option AdditionalActionData)
  : M StripeCheckoutSession :=
  let redirect_url := data ≫= redirect_url in
  let* self := this in
  match stripeCheckout self with
  | None => throw (ThrownError (NotInitializedError PaymentNotInitialized))
  | Some _ =>
      let* stripeActions := _getStripeActionsOrThrow in
      let o := {| redirect := IF_REQUIRED; returnUrl := redirect_url |} in
      let* r := call (fun h => confirm w h stripeActions o) (EvConfirm stripeActions o) in
      match confirm_error r, confirm_session r with
      | None, Some session => ret session
      | err, _ => throw (ThrownError (PaymentMethodFailedError (err ≫= message)))
      end
  end.

(** [isRequestError]: the thrown value is a request error, whose body
    can be read. *)
Definition isRequestError (e : Thrown) : option ErrorResponseBody :=
  match e with
  | ThrownError (RequestError body) => Some body
  | _ => None
  end.

(** [_processAdditionalAction] *)
Definition _processAdditionalAction (error : Thrown) (methodId : string) : M unit :=
  match isRequestError error with
  | None => throw error
  | Some body =>
      if negb (isAdditionalActionError w (errors body)) then throw error
      else
        let additionalActionData := additional_action_required body ≫= aa_data in
        let token := additionalActionData ≫= token in
        let* session := _confirmStripePaymentOrThrow additionalActionData in
        let* paymentPayload :=
          _getPaymentPayload methodId (Js.or_string (session_id session) token) in
        try_catch (do_submitPayment paymentPayload)
          (fun error' =>
             match session_status session with
             | None =>
                 throw (ThrownError
                          (TypeError "Cannot read properties of undefined"))
             | Some status =>
                 (match paymentStatus status with
                  | Paid => throwPaymentConfirmationProceedMessage
                  | _ => ret tt
                  end) >>
                 throw error'
             end)
  end.

(** [_initAdaptivePricing] *)
Definition _initAdaptivePricing : M unit :=
  let* self := this in
  match stripeCheckout self with
  | None => throw (ThrownError (NotInitializedError PaymentNotInitialized))
  | Some _ =>
      try_catch
        (let* stripeActions := _getStripeActionsOrThrow in
         let* h := history in
         let* session :=
           match getSession w h stripeActions with
           | None => ret None
           | Some r => call (fun _ => r) (EvGetSession stripeActions)
           end in
         let* h1 := history in
         let totalElement := getElementById w h1 "stripe-total" in
         emit (EvConsole "*** totalElement") >>
         emit (EvConsole "*** currencySelectorHTMLElement") >>
         emit (EvConsole "*** stripeCheckoutSession") >>
         (if totalElement then
            match session with
            | None => emit (EvSetTextContent "stripe-total" EmptyString)
            | Some sess =>
                match session_total_amount sess with
                | None =>
                    throw (ThrownError
                             (TypeError "Cannot read properties of undefined"))
                | Some amount =>
                    emit (EvSetTextContent "stripe-total"
                            (pretty.pretty_Z amount))
                end
            end
          else ret tt) >>
         let* currencySelectorElement := _getCurrencySelectorElement in
         emit (EvConsole "*** currencySelectorElement") >>
         match currencySelectorElement with
         | Some e => emit (EvMount e "#stripe-currency-selector")
         | None => ret tt
         end)
        (fun _ => emit (EvConsole "*** error"))
  end.

(** [_initializeStripeElement] *)
Definition _initializeStripeElement (stripe : StripeOCSPaymentInitializeOptions)
    (gatewayId methodId : string) : M unit :=
  let* h0 := history in
  let* paymentMethod0 :=
    lift (getPaymentMethodOrThrow (getState w h0) methodId (Some gatewayId)) in
  let* paymentMethod :=
    (if negb (string_truthy (clientToken paymentMethod0)) then
       let* state := call (fun h => loadPaymentMethod w h gatewayId methodId)
                          (fun r => EvLoadPaymentMethod gatewayId methodId (failure r)) in
       lift (getPaymentMethodOrThrow state methodId (Some gatewayId))
     else ret paymentMethod0) in
  match initializationData paymentMethod with
  | None => throw (ThrownError (MissingDataError MissingPaymentMethod))
  | Some initData =>
      if negb (string_truthy (clientToken paymentMethod)) then
        throw (ThrownError (MissingDataError MissingPaymentMethod))
      else
        let token := string_or_empty (clientToken paymentMethod) in
        let* client := _loadStripeJs initData in
        set_stripeClient (Some client) >>
        let* h1 := history in
        let billingAddress := getBillingAddress (getState w h1) in
        let postal :=
          match getShippingAddress (getState w h1), billingAddress with
          | Some a, _ => Some (postalCode a)
          | None, Some a => Some (postalCode a)
          | None, None => None
          end in
        let* checkout :=
          call (fun h =>
                  getStripeCheckout w h client
                    {| clientSecret := token;
                       elements_appearance := appearance stripe;
                       elements_fonts := fonts stripe;
                       adaptivePricing_allowed := true |})
               (EvGetStripeCheckout client
                    {| clientSecret := token;
                       elements_appearance := appearance stripe;
                       elements_fonts := fonts stripe;
                       adaptivePricing_allowed := true |}) in
        set_stripeCheckout (Some checkout) >>
        let* stripeActions := _getStripeActionsOrThrow in
        let mail := string_or_empty (billingAddress ≫= email) in
        let* _ := call (fun h => updateEmail w h stripeActions mail)
                       (fun r => EvUpdateEmail stripeActions mail (failure r)) in
        let* stripeElement :=
          _getStripeElement
            (Some {| fields_email := NEVER;
                     fields_country := NEVER;
                     fields_city := NEVER;
                     fields_postalCode :=
                       if string_truthy postal then NEVER else AUTO;
                     wallets_applePay := NEVER;
                     wallets_googlePay := NEVER;
                     wallets_link :=
                       match enableLink initData with
                       | Some true => AUTO
                       | _ => NEVER
                       end;
                     create_layout := layout stripe |}) in
        match stripeElement with
        | None => throw (ThrownError (NotInitializedError PaymentNotInitialized))
        | Some element =>
            emit (EvMountElement element (containerId stripe)) >>
            emit (EvOn element LOADER_START) >>
            emit (EvOn element READY) >>
            emit (EvOn element CHANGE) >>
            (if has_handleClosePaymentMethod stripe
             then emit EvHandleClosePaymentMethod
             else ret tt)
        end
  end.

(** The handlers registered on the payment element, run when the vendor
    fires the event. *)
Definition on_LOADER_START (stripe : StripeOCSPaymentInitializeOptions) : M unit :=
  if has_togglePreloader stripe then emit (EvTogglePreloader false) else ret tt.

Definition on_READY : M unit := emit EvRender.

Definition on_CHANGE (stripe : StripeOCSPaymentInitializeOptions)
    (gatewayId methodId : string) (event : option StripePaymentEvent) : M unit :=
  _onStripeElementChange event gatewayId methodId (has_paymentMethodSelect stripe).

(** The body of the [try] block of [initialize]: the setup work. *)
Definition initialize_setup (stripe : StripeOCSPaymentInitializeOptions)
    (gatewayId methodId : string) : M unit :=
  _initializeStripeElement stripe gatewayId methodId >>
  _initAdaptivePricing.

(** The [catch] block of [initialize]: only an [Error] instance reaches
    the optional [onError] callback. *)
Definition initialize_catch (stripe : StripeOCSPaymentInitializeOptions)
    (error : Thrown) : M unit :=
  match error with
  | ThrownError e => if has_onError stripe then emit (EvOnError e) else ret tt
  | ThrownValue _ => ret tt
  end.

(** [initialize] *)
Definition initialize (options : PaymentInitializeOptions) : M unit :=
  match stripeocs options with
  | None => throw (ThrownError (NotInitializedError PaymentNotInitialized))
  | Some stripe =>
      if negb (string_truthy (Some (containerId stripe)))
         || negb (string_truthy (init_gatewayId options))
      then throw (ThrownError (NotInitializedError PaymentNotInitialized))
      else
        try_catch
          (initialize_setup stripe
             (string_or_empty (init_gatewayId options)) (init_methodId options))
          (initialize_catch stripe)
  end.

(** [execute] *)
Definition execute (orderRequest : OrderRequestBody) (options : option Js.object)
  : M unit :=
  let methodId := pay_methodId <$> payment orderRequest in
  let gatewayId := payment orderRequest ≫= pay_gatewayId in
  let* self := this in
  match stripeClient self with
  | None => throw (ThrownError (NotInitializedError PaymentNotInitialized))
  | Some _ =>
      if negb (string_truthy gatewayId) || negb (string_truthy methodId) then
        throw (ThrownError (InvalidArgumentError
          ("Unable to initialize payment because " ++ Js.dquote ++ "gatewayId"
             ++ Js.dquote ++ " or " ++ Js.dquote ++ "methodId" ++ Js.dquote
             ++ " argument is not provided.")))
      else
        let gatewayId := string_or_empty gatewayId in
        let methodId := string_or_empty methodId in
        let* h := history in
        let state := getState w h in
        let* checkout := lift (getCheckoutOrThrow state) in
        (if isStoreCreditApplied checkout
         then call (fun h' => applyStoreCredit w h' true)
                   (fun r => EvApplyStoreCredit true (failure r))
         else ret tt) >>
        _updateCheckoutSessionData gatewayId methodId >>
        call (fun h' => submitOrder w h' (order orderRequest) options)
             (fun r => EvSubmitOrder (order orderRequest) options (failure r)) >>
        let* paymentMethod := lift (getPaymentMethodOrThrow state methodId None) in
        let* paymentPayload :=
          _getPaymentPayload methodId
            (Some (string_or_empty (clientToken paymentMethod))) in
        try_catch (do_submitPayment paymentPayload)
                  (fun error => _processAdditionalAction error methodId)
  end.

(** [finalize] *)
Definition finalize : M unit :=
  throw (ThrownError OrderFinalizationNotRequiredError).

(** [deinitialize] *)
Definition deinitialize : M unit :=
  let* self := this in
  let* h := history in
  let paymentElement :=
    stripeCheckout self ≫= getPaymentElement w h in
  (match paymentElement with
   | Some e => emit (EvUnmount e) >> emit (EvDestroy e)
   | None => ret tt
   end) >>
  set_stripeCheckout None >>
  set_stripeClient None >>
  set_selectedMethodId None.

(** [wp m s h Q]: running [m] on instance [s] after history [h] ends in
    an outcome, an instance and new events related by [Q]. *)
Definition wp {A} (m : M A) (s : Strategy) (h : Trace)
    (Q : Result Thrown A -> Strategy -> Trace -> Prop) : Prop :=
  match m s h with (r, s', t) => Q r s' t end.

(** Running a method on an instance after some history. *)
Definition run {A} (m : M A) (s : Strategy) (h : Trace)
  : Result Thrown A * Strategy * Trace := m s h.

(** A sequence of [initialize] calls on one instance; each call sees the
    events of the earlier ones.  Yields the outcomes, the final instance
    and all events. *)
Fixpoint initialize_all (calls : list PaymentInitializeOptions)
    (s : Strategy) (h : Trace)
  : list (Result Thrown unit) * Strategy * Trace :=
  match calls with
  | [] => ([], s, [])
  | o :: rest =>
      match initialize o s h with
      | (r, s1, t1) =>
          match initialize_all rest s1 (h ++ t1)%list with
          | (rs, s2, t2) => (r :: rs, s2, (t1 ++ t2)%list)
          end
      end
  end.

End Methods.

(** *** Observations on traces *)

Definition is_submitPayment (e : Event) : bool :=
  match e with EvSubmitPayment _ _ => true | _ => false end.
Definition is_confirm (e : Event) : bool :=
  match e with EvConfirm _ _ _ => true | _ => false end.
Definition is_getStripeClient (e : Event) : bool :=
  match e with EvGetStripeClient _ _ _ _ => true | _ => false end.
Definition is_unmount_of (el : StripeElement) (e : Event) : bool :=
  match e with
  | EvUnmount (StripeElementHandle n) =>
      match el with StripeElementHandle m => Nat.eqb n m end
  | _ => false
  end.
Definition is_destroy_of (el : StripeElement) (e : Event) : bool :=
  match e with
  | EvDestroy (StripeElementHandle n) =>
      match el with StripeElementHandle m => Nat.eqb n m end
  | _ => false
  end.

Definition count (p : Event -> bool) (t : Trace) : nat := length (List.filter p t).

(** The outcomes of the [submitPayment] calls of a trace, in order. *)
Definition submitPayment_failures (t : Trace) : list (option Thrown) :=
  omap (fun e => match e with EvSubmitPayment _ f => Some f | _ => None end) t.

(** The outcomes of the vendor confirmations of a trace, in order. *)
Definition confirm_results (t : Trace) : list (Result Thrown StripeConfirmResult) :=
  omap (fun e => match e with EvConfirm _ _ r => Some r | _ => None end) t.

(** A thrown value the strategy recognises as "additional action
    required". *)
Definition is_additional_action (w : World) (e : Thrown) : bool :=
  match isRequestError e with
  | Some body => isAdditionalActionError w (errors body)
  | None => false
  end.

(** The confirmation round-trip came back with a session and no error. *)
Definition confirmed_session (r : Result Thrown StripeConfirmResult)
  : option StripeCheckoutSession :=
  match r with
  | Ok c => match confirm_error c with
            | None => confirm_session c
            | Some _ => None
            end
  | Throw _ => None
  end.




(** The client handles a trace shows as loaded. *)
Definition loaded_clients (t : Trace) : list StripeClient :=
  omap (fun e => match e with
                 | EvGetStripeClient _ _ _ (Ok c) => Some c
                 | _ => None
                 end) t.

(** How loading relates the instance before ([s]) and after ([s']) some
    calls with events [t]: a cached client stays and is not reloaded, a
    loaded client is cached, and at most one load succeeds. *)
Definition load_post (s s' : Strategy) (t : Trace) : Prop :=
  (forall c, stripeClient s = Some c ->
             stripeClient s' = Some c /\ count is_getStripeClient t = 0)
  /\ (forall c, In c (loaded_clients t) -> stripeClient s' = Some c)
  /\ length (loaded_clients t) <= 1.

(** What the [catch] block of [initialize] adds to the trace. *)
Definition onError_events (stripe : StripeOCSPaymentInitializeOptions) (e : Thrown)
  : Trace :=
  match e with
  | ThrownError err => if has_onError stripe then [EvOnError err] else []
  | ThrownValue _ => []
  end.

(** *** The specification's statements, as written

    They are stated here so that they can be tested against the code. *)


(** "For every failure arising during the setup work of initialize:
    initialize resolves without rejecting, the onError callback is invoked
    with the error, and the strategy instance is returned to the
    Uninitialized state." *)
Definition setup_failure_claim (w : World) (o : PaymentInitializeOptions)
    (s : Strategy) (h : Trace) : Prop :=
  forall stripe e s1 t1,
    stripeocs o = Some stripe ->
    run (initialize_setup w stripe (string_or_empty (init_gatewayId o))
           (init_methodId o)) s h = (Throw (ThrownError e), s1, t1) ->
    exists t, run (initialize w o) s h = (Ok tt, Uninitialized, t)
              /\ In (EvOnError e) t.

(** "For every sequence of initialize calls on the same strategy instance,
    only the first call invokes the script loader's client load." *)
Definition only_first_call_loads (w : World) (o : PaymentInitializeOptions)
    (rest : list PaymentInitializeOptions) (s : Strategy) (h : Trace) : Prop :=
  forall r s1 t1 rs s2 t2,
    run (initialize w o) s h = (r, s1, t1) ->
    initialize_all w rest s1 (h ++ t1)%list = (rs, s2, t2) ->
    count is_getStripeClient t2 = 0.

(** *** A scripted world

    Collaborators in the manner of the test suite: fixed answers, except
    that the n-th [submitPayment] and the n-th [getStripeClient] take their
    answer from a list, and that the payment element, once created, is
    found again. *)

Record Script : Type := {
  script_paymentMethod : PaymentMethod;
  script_submitPayment : list (Result Thrown unit);
  script_getStripeClient : list (Result Thrown StripeClient);
  script_getStripeCheckout : Result Thrown StripeCheckoutInstance;
  script_confirm : Result Thrown StripeConfirmResult;
}.

Definition scripted_selectors (sc : Script) : Selectors :=
  {| getPaymentMethodOrThrow := fun _ _ => Ok (script_paymentMethod sc);
     getCheckoutOrThrow := Ok {| isStoreCreditApplied := false |};
     getCart := Some {| cart_id := "b20deef40f9699e48671bbc3fef6ca44dc80e3c7" |};
     getCartLocale := "en";
     getBillingAddress :=
       Some {| email := Some "test@bigcommerce.com"; postalCode := "95555" |};
     getShippingAddress := None |}.

Definition created_element (h : Trace) : option StripeElement :=
  last (omap (fun e => match e with
                       | EvCreatePaymentElement _ _ r => r
                       | _ => None
                       end) h).

Definition scripted (sc : Script) : World :=
  {| getState := fun _ => scripted_selectors sc;
     loadPaymentMethod := fun _ _ _ => Ok (scripted_selectors sc);
     applyStoreCredit := fun _ _ => Ok tt;
     submitOrder := fun _ _ _ => Ok tt;
     submitPayment := fun h _ =>
       nth (count is_submitPayment h) (script_submitPayment sc) (Ok tt);
     isAdditionalActionError :=
       existsb (fun e => String.eqb (code e) "additional_action_required");
     getStripeClient := fun h _ _ _ =>
       nth (count is_getStripeClient h) (script_getStripeClient sc)
           (Ok (StripeClientHandle 0));
     getStripeCheckout := fun _ _ _ => script_getStripeCheckout sc;
     loadActions := fun _ _ =>
       Ok {| actions := Some (StripeActionsHandle 0); load_error := None |};
     getPaymentElement := fun h _ => created_element h;
     createPaymentElement := fun _ _ _ => Some (StripeElementHandle 0);
     getCurrencySelectorElement := fun _ _ => None;
     createCurrencySelectorElement := fun _ _ => None;
     updateEmail := fun _ _ _ => Ok tt;
     confirm := fun _ _ _ => script_confirm sc;
     getSession := fun _ _ => None;
     getElementById := fun _ _ => false |}.

Definition stripeOCSMock : PaymentMethod :=
  {| clientToken := Some "clientToken";
     initializationData :=
       Some {| stripePublishableKey := "key"; stripeConnectedAccount := "key";
               shopperLanguage := "en"; enableLink := None |} |}.

Definition stripeOptionsMock : StripeOCSPaymentInitializeOptions :=
  {| containerId := "containerId";
     appearance := Js.VUndefined; fonts := Js.VUndefined;
     layout := Js.VUndefined;
     has_onError := true;
     has_paymentMethodSelect := false;
     has_handleClosePaymentMethod := false;
     has_togglePreloader := false |}.

Definition initializeOptionsMock : PaymentInitializeOptions :=
  {| init_methodId := "checkout_session";
     init_gatewayId := Some "stripeocs";
     stripeocs := Some stripeOptionsMock |}.

Definition orderRequestBodyMock : OrderRequestBody :=
  {| payment := Some {| pay_methodId := "checkout_session";
                        pay_gatewayId := Some "stripeocs" |};
     order := ∅ |}.

(** The rejection of the first [submitPayment] in the additional-action
    tests. *)
Definition additionalActionResponse : Thrown :=
  ThrownError
    (RequestError
       {| errors := [ {| code := "additional_action_required" |} ];
          additional_action_required :=
            Some {| aa_type := "additional_action_requires_payment_method";
                    aa_data := Some {| redirect_url := Some "https://redirect-url.com";
                                       token := Some "token" |} |} |}).


(** An instance after a successful [initialize]. *)
Definition initialized : Strategy :=
  {| stripeClient := Some (StripeClientHandle 0);
     stripeCheckout := Some (StripeCheckoutHandle 0);
     selectedMethodId := None |}.



(** An instance whose client is loaded and whose checkout instance is
    missing, as a setup that failed in [getStripeCheckout] leaves it. *)
Definition client_only : Strategy :=
  {| stripeClient := Some (StripeClientHandle 0);
     stripeCheckout := None;
     selectedMethodId := None |}.


(** The client loads, the checkout instance does not. *)
Definition world_checkout_fails : World :=
  scripted {| script_paymentMethod := stripeOCSMock;
              script_submitPayment := [];
              script_getStripeClient := [];
              script_getStripeCheckout :=
                Throw (ThrownError (GenericError "checkout unavailable"));
              script_confirm :=
                Ok {| confirm_session := None; confirm_error := None |} |}.

(** The first load of the client is rejected, the second succeeds. *)
Definition world_first_load_fails : World :=
  scripted {| script_paymentMethod := stripeOCSMock;
              script_submitPayment := [];
              script_getStripeClient :=
                [ Throw (ThrownError (GenericError "script blocked"));
                  Ok (StripeClientHandle 7) ];
              script_getStripeCheckout := Ok (StripeCheckoutHandle 0);
              script_confirm :=
                Ok {| confirm_session := None; confirm_error := None |} |}.

(** Both submissions fail and the vendor reports the session as unpaid. *)
Definition world_unpaid : World :=
  scripted {| script_paymentMethod := stripeOCSMock;
              script_submitPayment :=
                [ Throw additionalActionResponse;
                  Throw (ThrownError (GenericError "second submitPayment error")) ];
              script_getStripeClient := [];
              script_getStripeCheckout := Ok (StripeCheckoutHandle 0);
              script_confirm :=
                Ok {| confirm_session :=
                        Some {| session_id := Some "paymentIntentId";
                                session_status := Some {| paymentStatus := UnPaid |};
                                session_total_amount := None |};
                      confirm_error := None |} |}.

(** The confirmation returns a session without an id; the second
    submission succeeds. *)
Definition world_no_session_id : World :=
  scripted {| script_paymentMethod := stripeOCSMock;
              script_submitPayment := [ Throw additionalActionResponse ];
              script_getStripeClient := [];
              script_getStripeCheckout := Ok (StripeCheckoutHandle 0);
              script_confirm :=
                Ok {| confirm_session :=
                        Some {| session_id := Some EmptyString;
                                session_status := None;
                                session_total_amount := None |};
                      confirm_error := None |} |}.

(** The tokens of the payloads handed to [submitPayment], in order. *)
Definition submitted_tokens (t : Trace) : list (option string) :=
  omap (fun e => match e with
                 | EvSubmitPayment p _ => Some (credit_card_token p)
                 | _ => None
                 end) t.

(** Everything succeeds. *)
Definition world_ok : World :=
  scripted {| script_paymentMethod := stripeOCSMock;
              script_submitPayment := [];
              script_getStripeClient := [];
              script_getStripeCheckout := Ok (StripeCheckoutHandle 0);
              script_confirm :=
                Ok {| confirm_session := None; confirm_error := None |} |}.





Definition run_checkout_fails : Result Thrown unit * Strategy * Trace := Eval vm_compute in
    run (initialize_setup world_checkout_fails stripeOptionsMock
           "stripeocs" "checkout_session") Uninitialized [].

Definition run_first_call_ok : list (Result Thrown unit) * Strategy * Trace := Eval vm_compute in
    initialize_all world_ok [initializeOptionsMock] Uninitialized [].

Definition run_later_calls_ok : list (Result Thrown unit) * Strategy * Trace := Eval vm_compute in
    initialize_all world_ok [initializeOptionsMock; initializeOptionsMock]
      (snd (fst run_first_call_ok)) (snd run_first_call_ok).

End StripeCS.

(* ===================================================================== *)
(** ** BillingAddressActionCreator (billing-address-action-creator.ts)    *)
(* ===================================================================== *)

Module Billing.

Inductive MissingDataErrorType : Type := MissingCheckout.

Inductive Error : Type :=
| MissingDataError (t : MissingDataErrorType)
| UnableToContinueAsGuestError.

Record Checkout : Type := {
  id : string;
  checkout_data : Js.object;
}.

Record Customer : Type := { isGuest : bool }.

(** [storeConfig.checkoutSettings.features] of the store configuration. *)
Record Config : Type := { features : gmap string bool }.

(** The selectors read by the action creator ([store.getState()]). *)
Record InternalCheckoutSelectors : Type := {
  getCheckout : option Checkout;
  getConfig : option Config;
  getCustomer : option Customer;
  getBillingAddress : option Js.object;
}.

Abbreviation RequestOptions := (gmap string Js.value).



(** *** Requests and actions *)

Inductive RequestKind : Type := CreateAddress | UpdateAddress.

(** A call to [BillingAddressRequestSender]. *)
Record Request : Type := {
  kind : RequestKind;
  checkoutId : string;
  address : Js.object;
  options : option RequestOptions;
}.

(** What the request sender rejects with. *)
Record ErrorResponse : Type := {
  status : Z;
  error_body : Js.object;
}.

Record Subscriptions : Type := {
  email : Js.value;
  acceptsMarketingNewsletter : Js.value;
  acceptsAbandonedCartEmails : Js.value;
}.

Inductive BillingAddressActionType : Type :=
| ContinueAsGuestRequested
| ContinueAsGuestSucceeded
| ContinueAsGuestFailed
| UpdateBillingAddressRequested
| UpdateBillingAddressSucceeded
| UpdateBillingAddressFailed.

Inductive SubscriptionsActionType : Type :=
| UpdateSubscriptionsRequested
| UpdateSubscriptionsSucceeded
| UpdateSubscriptionsFailed.

Inductive ActionType : Type :=
| BillingAddressAction (t : BillingAddressActionType)
| SubscriptionsAction (t : SubscriptionsActionType).

(** A value travelling on the error channel before it is wrapped. *)
Inductive RequestFailure : Type :=
| Rejected (r : ErrorResponse)
| Raised (e : Error).

Inductive Payload : Type :=
| CheckoutPayload (c : Checkout)
| ErrorPayload (f : RequestFailure).

Record Action : Type := {
  type : ActionType;
  payload : option Payload;
  error : bool;
}.

(** [createAction] and [createErrorAction] of the data-store library. *)
Definition createAction (t : ActionType) (p : option Payload) : Action :=
  {| type := t; payload := p; error := false |}.

Definition createErrorAction (t : ActionType) (p : option Payload) : Action :=
  {| type := t; payload := p; error := true |}.

(** The error channel of an observable carries any value. *)
Inductive Failure : Type :=
| Plain (f : RequestFailure)
| ErrorAction (a : Action).

(** *** Observables

    The combinators the action creator uses, as a syntax tree; their
    meaning is given by [subscribe] below. *)

(** [async () => { const { body } = await request; return k(body); }] *)
Inductive Task : Type :=
| Await (r : Request) (k : Checkout -> Action).

(** The body of [Observable.create((observer) => ...)]. *)
Inductive Emitter : Type :=
| observer_next (a : Action) (k : Emitter)
| observer_complete
| observer_error (f : Failure)
| throw_sync (e : Error)
| await (r : Request) (on_fulfilled : Checkout -> Emitter)
        (on_rejected : ErrorResponse -> Emitter).

Inductive Observable : Type :=
| of_ (a : Action)  (* rxjs [of], a reserved word here *)
| empty
| throwError (f : Failure)
| defer (t : Task)
| concat (a b : Observable)
| merge (a b : Observable)
| catchError (o : Observable) (handler : Failure -> Observable)
| create (e : Emitter)
(* the observable returned by SubscriptionsActionCreator.updateSubscriptions *)
| updateSubscriptions (s : Subscriptions) (o : option RequestOptions).

(** Modelled from the spec: [throwErrorAction] of [common/error], which is
    not among the sources: "request-layer errors are wrapped into a
    [Failed] action carrying the error".  A value that is already an action
    is passed on. *)
Definition throwErrorAction (t : ActionType) (f : Failure) : Observable :=
  match f with
  | Plain r => throwError (ErrorAction (createErrorAction t (Some (ErrorPayload r))))
  | ErrorAction a => throwError (ErrorAction a)
  end.

(** *** Timed meaning of observables

    Time is counted in turns of the event loop.  A subscription made at
    time [t0] emits its synchronous notifications at [t0]; a promise
    settles strictly later. *)

Inductive Call : Type :=
| CRequest (r : Request)
| CUpdateSubscriptions (s : Subscriptions) (o : option RequestOptions).

Inductive End : Type :=
| Completed (t : nat)
| Errored (t : nat) (f : Failure).

Record Stream : Type := {
  events : list (nat * Action);
  calls : list (nat * Call);
  fin : End;
}.

(** What the observable of the subscriptions action creator does once
    subscribed, with times relative to the subscription. *)
Record ExternalStream : Type := {
  ext_events : list (nat * Action);
  ext_fin : End;
}.

(** The collaborators: the request sender answers a request issued at a
    given time after some delay; the subscriptions action creator yields
    its stream. *)
Record World : Type := {
  send : Request -> nat -> nat * Result ErrorResponse Checkout;
  subscriptions : Subscriptions -> option RequestOptions -> ExternalStream;
}.

Definition end_time (e : End) : nat :=
  match e with Completed t => t | Errored t _ => t end.

Definition shift_end (d : nat) (e : End) : End :=
  match e with
  | Completed t => Completed (d + t)
  | Errored t f => Errored (d + t) f
  end.

Definition shift {A} (d : nat) (l : list (nat * A)) : list (nat * A) :=
  map (fun x => (d + fst x, snd x)) l.

(** Merge of two time-ordered lists; at equal times the left one first. *)
Fixpoint merge_by_time {A} (l1 : list (nat * A)) : list (nat * A) -> list (nat * A) :=
  fix inner (l2 : list (nat * A)) : list (nat * A) :=
    match l1, l2 with
    | [], _ => l2
    | _, [] => l1
    | x :: l1', y :: l2' =>
        if Nat.leb (fst x) (fst y) then x :: merge_by_time l1' l2
        else y :: inner l2'
    end.

Definition upto {A} (t : nat) (l : list (nat * A)) : list (nat * A) :=
  List.filter (fun x => Nat.leb (fst x) t) l.

Definition before {A} (t : nat) (l : list (nat * A)) : list (nat * A) :=
  List.filter (fun x => Nat.ltb (fst x) t) l.

(** [concat]: the second stream is what the second observable does when
    subscribed at the completion time of the first. *)
Definition concat_streams (s1 : Stream) (s2 : nat -> Stream) : Stream :=
  match fin s1 with
  | Completed t =>
      {| events := (events s1 ++ events (s2 t))%list;
         calls := (calls s1 ++ calls (s2 t))%list;
         fin := fin (s2 t) |}
  | Errored _ _ => s1
  end.

(** [merge]: both are subscribed at the same time, the left one first; the
    first error ends the merged stream and unsubscribes the other side. *)
Definition merge_streams (s1 s2 : Stream) : Stream :=
  match fin s1, fin s2 with
  | Completed t1, Completed t2 =>
      {| events := merge_by_time (events s1) (events s2);
         calls := merge_by_time (calls s1) (calls s2);
         fin := Completed (Nat.max t1 t2) |}
  | Errored t1 f1, Completed _ =>
      {| events := merge_by_time (events s1) (before t1 (events s2));
         calls := merge_by_time (calls s1) (before t1 (calls s2));
         fin := Errored t1 f1 |}
  | Completed _, Errored t2 f2 =>
      {| events := merge_by_time (upto t2 (events s1)) (events s2);
         calls := merge_by_time (upto t2 (calls s1)) (calls s2);
         fin := Errored t2 f2 |}
  | Errored t1 f1, Errored t2 f2 =>
      if Nat.leb t1 t2 then
        {| events := merge_by_time (events s1) (before t1 (events s2));
           calls := merge_by_time (calls s1) (before t1 (calls s2));
           fin := Errored t1 f1 |}
      else
        {| events := merge_by_time (upto t2 (events s1)) (events s2);
           calls := merge_by_time (upto t2 (calls s1)) (calls s2);
           fin := Errored t2 f2 |}
  end.

Section Semantics.
Variable W : World.

(** The time at which a request issued at [t] settles. *)
Definition settles (r : Request) (t : nat) : nat := t + S (fst (send W r t)).

Fixpoint emit (e : Emitter) (t : nat) : Stream :=
  match e with
  | observer_next a k =>
      let s := emit k t in
      {| events := (t, a) :: events s; calls := calls s; fin := fin s |}
  | observer_complete => {| events := []; calls := []; fin := Completed t |}
  | observer_error f => {| events := []; calls := []; fin := Errored t f |}
  | throw_sync e => {| events := []; calls := []; fin := Errored t (Plain (Raised e)) |}
  | await r on_fulfilled on_rejected =>
      let s :=
        match snd (send W r t) with
        | Ok c => emit (on_fulfilled c) (settles r t)
        | Throw x => emit (on_rejected x) (settles r t)
        end in
      {| events := events s; calls := (t, CRequest r) :: calls s; fin := fin s |}
  end.

Fixpoint subscribe (o : Observable) (t0 : nat) : Stream :=
  match o with
  | of_ a => {| events := [(t0, a)]; calls := []; fin := Completed t0 |}
  | empty => {| events := []; calls := []; fin := Completed t0 |}
  | throwError f => {| events := []; calls := []; fin := Errored t0 f |}
  | defer (Await r k) =>
      match snd (send W r t0) with
      | Ok c =>
          {| events := [(settles r t0, k c)];
             calls := [(t0, CRequest r)];
             fin := Completed (settles r t0) |}
      | Throw x =>
          {| events := [];
             calls := [(t0, CRequest r)];
             fin := Errored (settles r t0) (Plain (Rejected x)) |}
      end
  | concat a b => concat_streams (subscribe a t0) (subscribe b)
  | merge a b => merge_streams (subscribe a t0) (subscribe b t0)
  | catchError a handler =>
      let s := subscribe a t0 in
      match fin s with
      | Completed _ => s
      | Errored t f =>
          let s' := subscribe (handler f) t in
          {| events := (events s ++ events s')%list;
             calls := (calls s ++ calls s')%list;
             fin := fin s' |}
      end
  | create e => emit e t0
  | updateSubscriptions b o =>
      let s := subscriptions W b o in
      {| events := shift t0 (ext_events s);
         calls := [(t0, CUpdateSubscriptions b o)];
         fin := shift_end t0 (ext_fin s) |}
  end.

End Semantics.

(** *** The action creator *)

Definition feature_key : string := "CHECKOUT-8392.fix_billing_creation_in_checkout".

(** [state.config.getConfig()?.storeConfig.checkoutSettings.features[...] ?? true] *)
Definition isBillingFixExperimentEnabled (state : InternalCheckoutSelectors) : bool :=
  match getConfig state with
  | None => true
  | Some c => default true (features c !! feature_key)
  end.

(** [_createOrUpdateBillingAddress]: the request it sends. *)
Definition _createOrUpdateBillingAddress (checkoutId : string) (address : Js.object)
    (isBillingFixExperimentEnabled hasBillingAddress : bool)
    (options : option RequestOptions) : Request :=
  if isBillingFixExperimentEnabled then
    if negb hasBillingAddress then
      {| kind := CreateAddress; checkoutId := checkoutId;
         address := address; options := options |}
    else
      {| kind := UpdateAddress; checkoutId := checkoutId;
         address := address; options := options |}
  else if negb (Js.truthy (Js.get address "id")) then
    {| kind := CreateAddress; checkoutId := checkoutId;
       address := address; options := options |}
  else
    {| kind := UpdateAddress; checkoutId := checkoutId;
       address := address; options := options |}.

(** [_updateCustomerConsent] *)
Definition _updateCustomerConsent (credentials : Js.object)
    (options : option RequestOptions) : Observable :=
  let email := Js.get credentials "email" in
  let acceptsAbandonedCartEmails := Js.get credentials "acceptsAbandonedCartEmails" in
  let acceptsMarketingNewsletter := Js.get credentials "acceptsMarketingNewsletter" in
  if Js.is_nullish acceptsAbandonedCartEmails && Js.is_nullish acceptsMarketingNewsletter
  then empty
  else
    updateSubscriptions
      {| email := email;
         acceptsMarketingNewsletter := Js.or acceptsMarketingNewsletter (Js.VBool false);
         acceptsAbandonedCartEmails := Js.or acceptsAbandonedCartEmails (Js.VBool false) |}
      options.

(** The request body built by [continueAsGuest]. *)
Definition continueAsGuest_body (billingAddress : option Js.object)
    (credentials : Js.object) : Js.object :=
  match billingAddress with
  | None => credentials
  | Some b => Js.spread (Js.rest "country" b) credentials
  end.

(** The billing-address part of the stream returned by [continueAsGuest]. *)
Definition continueAsGuest_actions (checkout : Checkout)
    (state : InternalCheckoutSelectors) (credentials : Js.object)
    (options : option RequestOptions) : Observable :=
  let billingAddress := getBillingAddress state in
  let billingAddressRequestBody := continueAsGuest_body billingAddress credentials in
  let hasBillingAddress := negb (Js.isEmpty billingAddress) in
  catchError
    (concat
       (of_ (createAction (BillingAddressAction ContinueAsGuestRequested) None))
       (defer
          (Await
             (_createOrUpdateBillingAddress (id checkout) billingAddressRequestBody
                (isBillingFixExperimentEnabled state) hasBillingAddress options)
             (fun body =>
                createAction (BillingAddressAction ContinueAsGuestSucceeded)
                             (Some (CheckoutPayload body))))))
    (fun error => throwErrorAction (BillingAddressAction ContinueAsGuestFailed) error).

(** [continueAsGuest(credentials, options)(store)]: the thunk either throws
    or returns the observable. *)
Definition continueAsGuest (credentials : Js.object) (options : option RequestOptions)
    (state : InternalCheckoutSelectors) : Result Error Observable :=
  match getCheckout state with
  | None => Throw (MissingDataError MissingCheckout)
  | Some checkout =>
      match getCustomer state with
      | Some {| isGuest := false |} => Throw UnableToContinueAsGuestError
      | _ =>
          Ok (merge (continueAsGuest_actions checkout state credentials options)
                    (_updateCustomerConsent credentials options))
      end
  end.

(** The request body built by [updateAddress]. *)
Definition updateAddress_body (billingAddress : option Js.object)
    (address : Js.object) : Js.object :=
  let email :=
    match billingAddress with
    | Some b =>
        if Js.is_undefined (Js.get address "email")
        then Js.get b "email" else Js.get address "email"
    | None => Js.get address "email"
    end in
  let billingAddressRequestBody := <["email" := email]> address in
  match billingAddress with
  | Some b =>
      if Js.truthy (Js.get b "id")
      then <["id" := Js.get b "id"]> billingAddressRequestBody
      else billingAddressRequestBody
  | None => billingAddressRequestBody
  end.

(** [updateAddress(address, options)(store)] *)
Definition updateAddress (address : Js.object) (options : option RequestOptions)
    (state : InternalCheckoutSelectors) : Observable :=
  create
    match getCheckout state with
    | None => throw_sync (MissingDataError MissingCheckout)
    | Some checkout =>
        observer_next
          (createAction (BillingAddressAction UpdateBillingAddressRequested) None)
          (let billingAddress := getBillingAddress state in
           let hasBillingAddress := negb (Js.isEmpty billingAddress) in
           await
             (_createOrUpdateBillingAddress (id checkout)
                (updateAddress_body billingAddress address)
                (isBillingFixExperimentEnabled state) hasBillingAddress options)
             (fun body =>
                observer_next
                  (createAction (BillingAddressAction UpdateBillingAddressSucceeded)
                                (Some (CheckoutPayload body)))
                  observer_complete)
             (fun response =>
                observer_error
                  (ErrorAction
                     (createErrorAction (BillingAddressAction UpdateBillingAddressFailed)
                                        (Some (ErrorPayload (Rejected response)))))))
    end.

(** *** Observations *)

Definition requests (s : Stream) : list (nat * Request) :=
  omap (fun c => match snd c with
                 | CRequest r => Some (fst c, r)
                 | CUpdateSubscriptions _ _ => None
                 end) (calls s).

Definition subscription_calls (s : Stream)
  : list (nat * (Subscriptions * option RequestOptions)) :=
  omap (fun c => match snd c with
                 | CRequest _ => None
                 | CUpdateSubscriptions b o => Some (fst c, (b, o))
                 end) (calls s).

Definition is_subscription_action (a : Action) : bool :=
  match type a with SubscriptionsAction _ => true | BillingAddressAction _ => false end.

(** A customer that is signed in: present and not a guest. *)
Definition signed_in (state : InternalCheckoutSelectors) : bool :=
  match getCustomer state with
  | Some c => negb (isGuest c)
  | None => false
  end.

(** The stream does not fail before time [t]. *)
Definition no_failure_upto (t : nat) (s : Stream) : Prop :=
  match fin s with
  | Completed _ => True
  | Errored te _ => (t < te)%nat
  end.

(** The consent fields of the credentials are provided: at least one is
    neither [undefined] nor [null]. *)
Definition consent_provided (credentials : Js.object) : bool :=
  negb (Js.is_nullish (Js.get credentials "acceptsAbandonedCartEmails"))
  || negb (Js.is_nullish (Js.get credentials "acceptsMarketingNewsletter")).

(** The body handed to the subscriptions action creator. *)
Definition consent_body (credentials : Js.object) : Subscriptions :=
  {| email := Js.get credentials "email";
     acceptsMarketingNewsletter :=
       Js.or (Js.get credentials "acceptsMarketingNewsletter") (Js.VBool false);
     acceptsAbandonedCartEmails :=
       Js.or (Js.get credentials "acceptsAbandonedCartEmails") (Js.VBool false) |}.

(** The request sent by [continueAsGuest]. *)
Definition continueAsGuest_request (checkout : Checkout)
    (state : InternalCheckoutSelectors) (credentials : Js.object)
    (options : option RequestOptions) : Request :=
  _createOrUpdateBillingAddress (id checkout)
    (continueAsGuest_body (getBillingAddress state) credentials)
    (isBillingFixExperimentEnabled state)
    (negb (Js.isEmpty (getBillingAddress state))) options.

Definition Requested : Action :=
  createAction (BillingAddressAction ContinueAsGuestRequested) None.
Definition Succeeded (body : Checkout) : Action :=
  createAction (BillingAddressAction ContinueAsGuestSucceeded) (Some (CheckoutPayload body)).
Definition Failed (response : ErrorResponse) : Action :=
  createErrorAction (BillingAddressAction ContinueAsGuestFailed)
                    (Some (ErrorPayload (Rejected response))).

(** *** The specification's statements, as written *)


(** *** Sample states and collaborators *)

Definition checkoutMock : Checkout :=
  {| id := "b20deef40f9699e48671bbc3fef6ca44dc80e3c7"; checkout_data := ∅ |}.

Definition state_guest : InternalCheckoutSelectors :=
  {| getCheckout := Some checkoutMock; getConfig := None;
     getCustomer := Some {| isGuest := true |}; getBillingAddress := None |}.

Definition state_signed_in : InternalCheckoutSelectors :=
  {| getCheckout := Some checkoutMock; getConfig := None;
     getCustomer := Some {| isGuest := false |}; getBillingAddress := None |}.

Definition state_no_checkout_signed_in : InternalCheckoutSelectors :=
  {| getCheckout := None; getConfig := None;
     getCustomer := Some {| isGuest := false |}; getBillingAddress := None |}.

Definition storedBillingAddress : Js.object :=
  {[ "id" := Js.VStr "55c96cda6f04c"; "email" := Js.VStr "old@x.com";
     "firstName" := Js.VStr "Test"; "country" := Js.VStr "United States" ]}.

Definition state_with_billing : InternalCheckoutSelectors :=
  {| getCheckout := Some checkoutMock; getConfig := None;
     getCustomer := None; getBillingAddress := Some storedBillingAddress |}.

Definition guestCredentials : Js.object := {[ "email" := Js.VStr "a@b.com" ]}.

Definition consentingCredentials : Js.object :=
  {[ "email" := Js.VStr "a@b.com"; "acceptsMarketingNewsletter" := Js.VBool true ]}.

(** Requests settle two turns later with the checkout; the subscription
    stream announces the update at once and succeeds a turn later. *)
Definition world_mock : World :=
  {| send := fun _ _ => (1, Ok checkoutMock);
     subscriptions := fun _ _ =>
       {| ext_events :=
            [ (0, createAction (SubscriptionsAction UpdateSubscriptionsRequested) None);
              (1, createAction (SubscriptionsAction UpdateSubscriptionsSucceeded) None) ];
          ext_fin := Completed 1 |} |}.

End Billing.

(* ===================================================================== *)
(** ** StripeUPEScriptLoader (stripe-upe-script-loader.ts)                *)
(* ===================================================================== *)

Module StripeUPE.

Inductive Error : Type :=
| PaymentMethodClientUnavailableError
| ScriptLoadError (msg : string).

Inductive StripeUPEClient : Type := StripeUPEClientHandle (n : nat).
Inductive StripeElements : Type := StripeElementsHandle (n : nat).

(** The options object passed to the [Stripe] constructor. *)
Record StripeConfigOptions : Type := {
  stripeAccount : string;
  locale : option string;
  betas : list string;
  apiVersion : string;
}.

Abbreviation StripeElementsOptions := (gmap string Js.value).

(** [window.Stripe], the constructor the vendor script defines. *)
Definition StripeConstructor : Type := string -> StripeConfigOptions -> StripeUPEClient.

(** [StripeHostWindow]: the process-wide object the loader reads and
    writes. *)
Record StripeHostWindow : Type := {
  bcStripeClient : option StripeUPEClient;
  bcStripeElements : option StripeElements;
  Stripe : option StripeConstructor;
}.

Inductive Event : Type :=
| EvLoadScript (url : string)
| EvConsoleLog (stripePublishableKey stripeAccount : string) (locale : option string)
| EvStripe (key : string) (options : StripeConfigOptions) (client : StripeUPEClient)
| EvElements (client : StripeUPEClient) (options : StripeElementsOptions).

(** The collaborators: the generic script loader, which rejects or leaves
    [window.Stripe] defined or not, and the vendor client's [elements]. *)
Record World : Type := {
  loadScript : string -> StripeHostWindow -> Result Error (option StripeConstructor);
  elements : StripeUPEClient -> StripeElementsOptions -> StripeElements;
}.

(** The publishable key written into the source. *)
Definition HARD_CODED_KEY : string := "pk_test_iyRKkVUt0YWpJ3Lq7mfsw3VW008KiFDH4s".

Definition BETAS : list string :=
  [ "payment_element_beta_2"; "alipay_pm_beta_1"; "link_default_integration_beta_1";
    "shipping_address_element_beta_1"; "address_element_beta_1" ].

Definition API_VERSION : string := "2020-03-02;alipay_beta=v1;link_beta=v1".

Section Loader.
Variable W : World.

(** [load] *)
Definition load (win : StripeHostWindow)
  : Result Error StripeConstructor * StripeHostWindow * list Event :=
  match loadScript W "https://js.stripe.com/v3/" win with
  | Throw e => (Throw e, win, [EvLoadScript "https://js.stripe.com/v3/"])
  | Ok defined =>
      let win' := {| bcStripeClient := bcStripeClient win;
                     bcStripeElements := bcStripeElements win;
                     Stripe := defined |} in
      match defined with
      | None => (Throw PaymentMethodClientUnavailableError, win',
                 [EvLoadScript "https://js.stripe.com/v3/"])
      | Some stripe => (Ok stripe, win', [EvLoadScript "https://js.stripe.com/v3/"])
      end
  end.

(** [getStripeClient] *)
Definition getStripeClient (stripePublishableKey stripeAccount : string)
    (locale : option string) (win : StripeHostWindow)
  : Result Error StripeUPEClient * StripeHostWindow * list Event :=
  match bcStripeClient win with
  | Some stripeClient => (Ok stripeClient, win, [])
  | None =>
      match load win with
      | (Throw e, win', t) => (Throw e, win', t)
      | (Ok stripe, win', t) =>
          let options := {| stripeAccount := stripeAccount; locale := locale;
                            betas := BETAS; apiVersion := API_VERSION |} in
          let stripeClient := stripe HARD_CODED_KEY options in
          (Ok stripeClient,
           {| bcStripeClient := Some stripeClient;
              bcStripeElements := bcStripeElements win';
              Stripe := Stripe win' |},
           (t ++ [EvConsoleLog stripePublishableKey stripeAccount locale;
                  EvStripe HARD_CODED_KEY options stripeClient])%list)
      end
  end.

(** [getElements] *)
Definition getElements (stripeClient : StripeUPEClient) (options : StripeElementsOptions)
    (win : StripeHostWindow) : StripeElements * StripeHostWindow * list Event :=
  match bcStripeElements win with
  | Some stripeElements => (stripeElements, win, [])
  | None =>
      let stripeElements := elements W stripeClient options in
      (stripeElements,
       {| bcStripeClient := bcStripeClient win;
          bcStripeElements := Some stripeElements;
          Stripe := Stripe win |},
       [EvElements stripeClient options])
  end.

(** Successive [getStripeClient] calls against one window. *)
Fixpoint getStripeClient_all (args : list (string * string * option string))
    (win : StripeHostWindow)
  : list (Result Error StripeUPEClient) * StripeHostWindow * list Event :=
  match args with
  | [] => ([], win, [])
  | (key, account, locale) :: rest =>
      match getStripeClient key account locale win with
      | (r, win1, t1) =>
          match getStripeClient_all rest win1 with
          | (rs, win2, t2) => (r :: rs, win2, (t1 ++ t2)%list)
          end
      end
  end.

End Loader.

(** The constructions of a client recorded in a trace. *)
Definition constructions (t : list Event) : list (string * StripeConfigOptions) :=
  omap (fun e => match e with EvStripe k o _ => Some (k, o) | _ => None end) t.

(** A vendor script that defines [Stripe]; the client it builds is
    numbered after the length of the key it was given. *)
Definition stripeJsMock : StripeConstructor :=
  fun key _ => StripeUPEClientHandle (String.length key).

Definition world_script_loads : World :=
  {| loadScript := fun _ _ => Ok (Some stripeJsMock);
     elements := fun _ _ => StripeElementsHandle 0 |}.

Definition emptyWindow : StripeHostWindow :=
  {| bcStripeClient := None; bcStripeElements := None; Stripe := None |}.

Definition run_window_first : Result Error StripeUPEClient * StripeHostWindow * list Event := Eval cbv in
    getStripeClient world_script_loads "pk_live_1" "acct_1" (Some "en") emptyWindow.

End StripeUPE.

(* ===================================================================== *)
(** ** StripeCSPaymentStrategy: further observations and scenarios        *)
(* ===================================================================== *)

Module StripeCSTrace.
Import StripeCS.

(** The payloads handed to [submitPayment], in order. *)
Definition submitted_payloads (t : Trace) : list Payment :=
  omap (fun e => match e with EvSubmitPayment p _ => Some p | _ => None end) t.

Definition is_applyStoreCredit (e : Event) : bool :=
  match e with EvApplyStoreCredit _ _ => true | _ => false end.
Definition is_loadPaymentMethod_ok (e : Event) : bool :=
  match e with EvLoadPaymentMethod _ _ None => true | _ => false end.
Definition is_submitOrder (e : Event) : bool :=
  match e with EvSubmitOrder _ _ _ => true | _ => false end.
Definition is_submitOrder_ok (e : Event) : bool :=
  match e with EvSubmitOrder _ _ None => true | _ => false end.
Definition is_getStripeCheckout (e : Event) : bool :=
  match e with EvGetStripeCheckout _ _ _ => true | _ => false end.
Definition is_onError (e : Event) : bool :=
  match e with EvOnError _ => true | _ => false end.

(** [preceded p q t]: every event of [t] that satisfies [q] comes after an
    event that satisfies [p]. *)
Fixpoint preceded (p q : Event -> bool) (t : Trace) : bool :=
  match t with
  | [] => true
  | e :: t' => if p e then true else negb (q e) && preceded p q t'
  end.

(** The elements mounted through the integration service, with their
    containers, and the handlers registered on elements, in order. *)
Definition mounted (t : Trace) : list (StripeElement * string) :=
  omap (fun e => match e with EvMountElement el c => Some (el, c) | _ => None end) t.
Definition registrations (t : Trace) : list (StripeElement * StripeElementEvent) :=
  omap (fun e => match e with EvOn el ev => Some (el, ev) | _ => None end) t.

(** The elements mounted by their own [mount] method, with the selectors
    they were mounted at, in order. *)
Definition element_mounts (t : Trace) : list (StripeElement * string) :=
  omap (fun e => match e with EvMount el sel => Some (el, sel) | _ => None end) t.

(** The checkout instances a trace shows as obtained from the loader. *)
Definition checkout_instances (t : Trace) : list StripeCheckoutInstance :=
  omap (fun e => match e with
                 | EvGetStripeCheckout _ _ (Ok co) => Some co
                 | _ => None
                 end) t.

(** The guard at the head of [initialize]:
    [!stripeocs?.containerId || !gatewayId] is false. *)
Definition initialize_guard (o : PaymentInitializeOptions) : bool :=
  match stripeocs o with
  | Some stripe =>
      string_truthy (Some (containerId stripe)) && string_truthy (init_gatewayId o)
  | None => false
  end.

(** The second guard of [execute]: [!gatewayId || !methodId] is false. *)
Definition execute_guard (o : OrderRequestBody) : bool :=
  string_truthy (payment o ≫= pay_gatewayId)
  && string_truthy (pay_methodId <$> payment o).

(** A world of the scripted kind in which store credit is applied. *)
Definition world_store_credit : World :=
  let base := world_ok in
  {| getState := fun h =>
       {| getPaymentMethodOrThrow := getPaymentMethodOrThrow (getState base h);
          getCheckoutOrThrow := Ok {| isStoreCreditApplied := true |};
          getCart := getCart (getState base h);
          getCartLocale := getCartLocale (getState base h);
          getBillingAddress := getBillingAddress (getState base h);
          getShippingAddress := getShippingAddress (getState base h) |};
     loadPaymentMethod := loadPaymentMethod base;
     applyStoreCredit := applyStoreCredit base;
     submitOrder := submitOrder base;
     submitPayment := submitPayment base;
     isAdditionalActionError := isAdditionalActionError base;
     getStripeClient := getStripeClient base;
     getStripeCheckout := getStripeCheckout base;
     loadActions := loadActions base;
     getPaymentElement := getPaymentElement base;
     createPaymentElement := createPaymentElement base;
     getCurrencySelectorElement := getCurrencySelectorElement base;
     createCurrencySelectorElement := createCurrencySelectorElement base;
     updateEmail := updateEmail base;
     confirm := confirm base;
     getSession := getSession base;
     getElementById := getElementById base |}.


(** The first submission fails with an error that is not a request
    error. *)
Definition world_plain_failure : World :=
  scripted {| script_paymentMethod := stripeOCSMock;
              script_submitPayment :=
                [ Throw (ThrownError (GenericError "card declined")) ];
              script_getStripeClient := [];
              script_getStripeCheckout := Ok (StripeCheckoutHandle 0);
              script_confirm :=
                Ok {| confirm_session := None; confirm_error := None |} |}.


Definition run_unpaid : Result Thrown unit * Strategy * Trace := Eval vm_compute in
    run (execute world_unpaid orderRequestBodyMock None) initialized [].

Definition run_no_session_id : Result Thrown unit * Strategy * Trace := Eval vm_compute in
    run (execute world_no_session_id orderRequestBodyMock None) initialized [].

Definition run_plain_failure : Result Thrown unit * Strategy * Trace := Eval vm_compute in
    run (execute world_plain_failure orderRequestBodyMock None) initialized [].

Definition run_store_credit : Result Thrown unit * Strategy * Trace := Eval vm_compute in
    run (execute world_store_credit orderRequestBodyMock None) initialized [].

Definition run_initialize_checkout_fails : Result Thrown unit * Strategy * Trace := Eval vm_compute in
    run (initialize world_checkout_fails initializeOptionsMock) Uninitialized [].

(** The second payload of the scenario in which the confirmed session has
    no id. *)
Definition second_payload_no_session_id : Payment :=
  {| methodId := "checkout_session";
     formatted_cart_id := "b20deef40f9699e48671bbc3fef6ca44dc80e3c7";
     formatted_confirm := false;
     formatted_method := None;
     credit_card_token := Some "token" |}.

End StripeCSTrace.

(* ===================================================================== *)
(** ** StripeUPEScriptLoader: elements and failures                        *)
(* ===================================================================== *)

Module StripeUPECalls.
Import StripeUPE.

(** Successive [getElements] calls against one window. *)
Fixpoint getElements_all (W : World)
    (args : list (StripeUPEClient * StripeElementsOptions)) (win : StripeHostWindow)
  : list StripeElements * StripeHostWindow * list Event :=
  match args with
  | [] => ([], win, [])
  | (stripeClient, options) :: rest =>
      match getElements W stripeClient options win with
      | (r, win1, t1) =>
          match getElements_all W rest win1 with
          | (rs, win2, t2) => (r :: rs, win2, (t1 ++ t2)%list)
          end
      end
  end.

Definition is_loadScript (e : Event) : bool :=
  match e with EvLoadScript _ => true | _ => false end.
Definition is_elements (e : Event) : bool :=
  match e with EvElements _ _ => true | _ => false end.

End StripeUPECalls.

(* ===================================================================== *)
(** ** BillingAddressActionCreator: further scenarios                      *)
(* ===================================================================== *)

Module BillingScenes.
Import Billing.

Definition UpdateRequested : Action :=
  createAction (BillingAddressAction UpdateBillingAddressRequested) None.
Definition UpdateSucceeded (body : Checkout) : Action :=
  createAction (BillingAddressAction UpdateBillingAddressSucceeded)
               (Some (CheckoutPayload body)).
Definition UpdateFailed (response : ErrorResponse) : Action :=
  createErrorAction (BillingAddressAction UpdateBillingAddressFailed)
                    (Some (ErrorPayload (Rejected response))).

Definition badRequest : ErrorResponse := {| status := 400; error_body := ∅ |}.

(** Every request is rejected two turns later. *)
Definition world_rejecting : World :=
  {| send := fun _ _ => (1, Throw badRequest);
     subscriptions := subscriptions world_mock |}.

(** A billing address as an order holds it: without an id. *)
Definition orderBillingAddress : Js.object :=
  {[ "email" := Js.VStr "old@x.com"; "firstName" := Js.VStr "Test";
     "country" := Js.VStr "United States" ]}.

(** The experiment is switched off, and an order's billing address is
    stored. *)
Definition state_experiment_off : InternalCheckoutSelectors :=
  {| getCheckout := Some checkoutMock;
     getConfig := Some {| features := {[ feature_key := false ]} |};
     getCustomer := None;
     getBillingAddress := Some orderBillingAddress |}.

End BillingScenes.

(* ===================================================================== *)
(** ** LanguageService: configuration and locale (language-service.ts)    *)
(* ===================================================================== *)

Module LanguageConfig.
Import Language.

(** [Translations]: the value of a property is a primitive or a nested
    object, whose properties are listed in the order of [Object.keys] (an
    array is such an object, keyed by its indices). *)
#[warnings="-register-all"]
Inductive Translations : Type :=
| Leaf (v : Js.value)
| Nested (entries : list (string * Translations)).

(** [TransformedTranslations] and [Locales]: flat tables. *)
Abbreviation TransformedTranslations := (gmap string Js.value).
Abbreviation Locales := (gmap string string).

(** [parentKey ? `${parentKey}.${key}` : key] *)
Definition resultKey (parentKey key : string) : string :=
  if String.eqb parentKey EmptyString then key else parentKey ++ "." ++ key.

(** One turn of the loop of [_flattenObject]: the value read under a
    property is flattened into [result] under [key]; a nested object
    ([isObject(value)]) by the recursive call, which loops over its
    properties, anything else by the assignment [result[resultKey] = value].
    Neither [Object.keys] nor the assignment throws on these values, so the
    [catch] block is not entered. *)
Fixpoint flatten_value (value : Translations) (result : TransformedTranslations)
    (key : string) : TransformedTranslations :=
  match value with
  | Leaf v => <[key := v]> result
  | Nested entries =>
      fold_left
        (fun result kv => flatten_value (snd kv) result (resultKey key (fst kv)))
        entries result
  end.

(** [_flattenObject(object, result, parentKey)] *)
Definition _flattenObject (object : list (string * Translations))
    (result : TransformedTranslations) (parentKey : string) : TransformedTranslations :=
  flatten_value (Nested object) result parentKey.

(** [Partial<LanguageConfig>]: every property may be missing. *)
Record LanguageConfig : Type := {
  defaultTranslations : option (list (string * Translations));
  defaultLocale : option string;
  fallbackTranslations : option (list (string * Translations));
  fallbackLocale : option string;
  locale : option string;
  locales : option Locales;
  translations : option (list (string * Translations));
  isCspNonceExperimentEnabled : option bool;
}.

(** The part of [TransformedLanguageConfig] that [_transformConfig] fills
    in and the constructor reads. *)
Record TransformedLanguageConfig : Type := {
  out_translations : TransformedTranslations;
  out_locales : Locales;
  out_locale : string;
}.

(** [s || d] on a possibly missing string. *)
Definition or_default (s : option string) (d : string) : string :=
  match s with
  | Some x => if String.eqb x EmptyString then d else x
  | None => d
  end.

(** The body of the loop of [_transformConfig].  A property read is a read
    of an own property and an assignment creates or overwrites one: on the
    plain objects of the source that is so for every key that does not name
    a member of [Object.prototype].  The properties of [_transformConfig]
    are stated for configurations whose keys are of that kind
    ([own_properties_only] below). *)
Definition transform_key (config : LanguageConfig)
    (translations defaultTranslations fallbackTranslations : TransformedTranslations)
    (output : TransformedLanguageConfig) (key : string) : TransformedLanguageConfig :=
  if Js.truthy (Js.get translations key) then
    {| out_translations := <[key := Js.get translations key]> (out_translations output);
       out_locales :=
         <[key := or_default (default ∅ (locales config) !! key) (out_locale output)]>
           (out_locales output);
       out_locale := out_locale output |}
  else if Js.truthy (Js.get defaultTranslations key) then
    {| out_translations :=
         <[key := Js.get defaultTranslations key]> (out_translations output);
       out_locales :=
         <[key := default DEFAULT_LOCALE (defaultLocale config)]> (out_locales output);
       out_locale := out_locale output |}
  else
    {| out_translations :=
         <[key := Js.get fallbackTranslations key]> (out_translations output);
       out_locales :=
         <[key := default DEFAULT_LOCALE (fallbackLocale config)]> (out_locales output);
       out_locale := out_locale output |}.

(** [_transformConfig].  The keys of the three flattened tables are
    visited once each ([union] drops repetitions) and the visit of a key
    writes under that key only, so the order of the visits does not show in
    the result. *)
Definition _transformConfig (config : LanguageConfig) : TransformedLanguageConfig :=
  let translations := _flattenObject (default [] (translations config)) ∅ EmptyString in
  let defaultTranslations :=
    _flattenObject (default [] (defaultTranslations config)) ∅ EmptyString in
  let fallbackTranslations :=
    _flattenObject (default [] (fallbackTranslations config)) ∅ EmptyString in
  let translationKeys :=
    elements (dom fallbackTranslations ∪ dom defaultTranslations ∪ dom translations) in
  fold_left (transform_key config translations defaultTranslations fallbackTranslations)
    translationKeys
    {| out_translations := ∅; out_locales := ∅;
       out_locale := or_default (locale config) DEFAULT_LOCALE |}.

(** The names of the members of [Object.prototype].  On a plain object a
    read under such a name finds the inherited member when the object has
    no own property of that name, and an assignment under [__proto__]
    creates no property. *)
Definition Object_prototype_members : list string :=
  [ "constructor"; "__defineGetter__"; "__defineSetter__"; "hasOwnProperty";
    "__lookupGetter__"; "__lookupSetter__"; "isPrototypeOf";
    "propertyIsEnumerable"; "toString"; "valueOf"; "__proto__";
    "toLocaleString" ].

(** The keys that the loop of [_transformConfig] visits. *)
Definition translationKeys (config : LanguageConfig) : gset string :=
  dom (_flattenObject (default [] (fallbackTranslations config)) ∅ EmptyString)
  ∪ dom (_flattenObject (default [] (defaultTranslations config)) ∅ EmptyString)
  ∪ dom (_flattenObject (default [] (translations config)) ∅ EmptyString).

(** No visited key names a member of [Object.prototype]: every read and
    every assignment of the loop then concerns an own property, as
    [transform_key] has it. *)
Definition own_properties_only (config : LanguageConfig) : bool :=
  forallb (fun key => negb (existsb (String.eqb key) Object_prototype_members))
          (elements (translationKeys config)).

(** The constructor; the injected logger has received nothing yet. *)
Definition new_LanguageService {Formatter : Type} (config : LanguageConfig)
  : LanguageService Formatter :=
  let output := _transformConfig config in
  {| _locale := out_locale output;
     _locales := out_locales output;
     _translations := out_translations output;
     _formatters := ∅;
     _isCspNonceExperimentEnabled := default true (isCspNonceExperimentEnabled config);
     _logger := [] |}.

(** [code.split('-')[0]] *)
Fixpoint language (code : string) : string :=
  match code with
  | EmptyString => EmptyString
  | String c rest =>
      if String.eqb (String c EmptyString) "-" then EmptyString
      else String c (language rest)
  end.

(** [_hasTranslations] *)
Definition _hasTranslations {Formatter : Type} (s : LanguageService Formatter) : bool :=
  Nat.ltb 0
    (length (List.filter
               (fun code => String.eqb (language code) (language (_locale s)))
               (map snd (map_to_list (_locales s))))).

(** [getLocale] *)
Definition getLocale {Formatter : Type} (s : LanguageService Formatter) : string :=
  if _hasTranslations s then _locale s else DEFAULT_LOCALE.


(** The key under which a path below [parentKey] is stored. *)
Definition dotted (parentKey : string) (path : list string) : string :=
  fold_left resultKey path parentKey.


(** A configuration in the manner of the test suite: French translations
    for one key, English defaults for two. *)
Definition configMock : LanguageConfig :=
  {| defaultTranslations :=
       Some [("optimized_checkout",
              Nested [("test", Nested [("greeting", Leaf (Js.VStr "Hello"));
                                       ("farewell", Leaf (Js.VStr "Bye"))])])];
     defaultLocale := None;
     fallbackTranslations := None;
     fallbackLocale := None;
     locale := Some "fr-CA";
     locales := Some {[ "optimized_checkout.test.greeting" := "fr" ]};
     translations :=
       Some [("optimized_checkout",
              Nested [("test", Nested [("greeting", Leaf (Js.VStr "Bonjour"));
                                       ("farewell", Leaf (Js.VStr EmptyString));
                                       ("thanks", Leaf (Js.VStr "Merci"))])])];
     isCspNonceExperimentEnabled := None |}.

(** A configuration whose only translation is named like a member of
    [Object.prototype]. *)
Definition configWithInheritedName : LanguageConfig :=
  {| defaultTranslations := None;
     defaultLocale := None;
     fallbackTranslations := None;
     fallbackLocale := None;
     locale := Some "fr";
     locales := None;
     translations := Some [("toString", Leaf (Js.VStr "x"))];
     isCspNonceExperimentEnabled := None |}.

(** Formatting libraries for the scenarios: a formatter is the message it
    was built from; formatting returns that message, and fails with a
    format error on a message that opens a placeholder it does not close. *)
Definition formatterMock_new (message : string) (locale : option string)
  : Result Thrown string := Ok message.

Definition formatterMock_format (f : string) (data : TranslationData)
  : Result Thrown string :=
  if String.eqb f "{name" then Throw (FormatError (Some "{name")) else Ok f.

(** A service that has translated two of its keys already. *)
Definition translatedServiceMock : LanguageService string :=
  {| _locale := "en";
     _locales := ∅;
     _translations :=
       {[ "optimized_checkout.test.greeting" := Js.VStr "Hello";
          "optimized_checkout.test.farewell" := Js.VStr "Bye";
          "optimized_checkout.test.name" := Js.VStr "{name";
          "optimized_checkout.test.link" := Js.VStr "<a href='/terms'>{label}</a>" ]};
     _formatters :=
       {[ "optimized_checkout.test.greeting" := "Hello";
          "optimized_checkout.test.name" := "{name" ]};
     _isCspNonceExperimentEnabled := true;
     _logger := [] |}.

End LanguageConfig.

(* ===================================================================== *)
(** ** LanguageService: escaping (language-service.ts)                    *)
(* ===================================================================== *)

Module LanguageEscape.

(** A string is the sequence of the bytes of its UTF-8 encoding; the
    characters the regular expression tells apart are all ASCII. *)
Definition is_char (c : Ascii.ascii) (s : string) : bool :=
  String.eqb (String c EmptyString) s.

(** [\w]: a letter, a digit or the underscore. *)
Definition is_word (c : Ascii.ascii) : bool :=
  let n := Ascii.nat_of_ascii c in
  (Nat.leb 48 n && Nat.leb n 57) || (Nat.leb 65 n && Nat.leb n 90)
  || (Nat.leb 97 n && Nat.leb n 122) || Nat.eqb n 95.

(** Some character of the string is a single quote. *)
Fixpoint has_quote (s : string) : bool :=
  match s with
  | EmptyString => false
  | String c rest => is_char c "'" || has_quote rest
  end.

(** Where the scan for a match stands: outside a match, after at least
    one word character, after word characters and [=], or inside the quotes
    of a match. *)
Inductive Scan : Type := Outside | InWord | AfterEquals | InQuotes.

Definition after (c : Ascii.ascii) : Scan := if is_word c then InWord else Outside.

(** The global replacement of [message.replace], read from left to right.
    A match of the regular expression is a run of word characters, [=], a
    quote, characters other than a quote, and a closing quote; matches do
    not overlap, and the replacement (first group, [=], two quotes, second
    group, two quotes) writes each of the two quotes of a match twice.  The
    quote after [=] opens a match exactly when a closing quote follows
    somewhere. *)
Fixpoint scan (state : Scan) (message : string) : string :=
  match message with
  | EmptyString => EmptyString
  | String c rest =>
      match state with
      | Outside => String c (scan (after c) rest)
      | InWord =>
          String c (scan (if is_word c then InWord
                          else if is_char c "=" then AfterEquals else Outside) rest)
      | AfterEquals =>
          if is_char c "'" then
            if has_quote rest then String c (String c (scan InQuotes rest))
            else String c (scan Outside rest)
          else String c (scan (after c) rest)
      | InQuotes =>
          if is_char c "'" then String c (String c (scan Outside rest))
          else String c (scan InQuotes rest)
      end
  end.

(** [_escapeSpecialCharacters] *)
Definition _escapeSpecialCharacters (message : string) : string := scan Outside message.

(** The string without its single quotes. *)
Fixpoint unquoted (s : string) : string :=
  match s with
  | EmptyString => EmptyString
  | String c rest => if is_char c "'" then unquoted rest else String c (unquoted rest)
  end.

(** Every character of the string is a word character. *)
Fixpoint all_word (s : string) : bool :=
  match s with
  | EmptyString => true
  | String c rest => is_word c && all_word rest
  end.

End LanguageEscape.

(* ===================================================================== *)
(** ** mergeOrPush (common/utility/merge-or-push.ts)                       *)
(* ===================================================================== *)

Module MergeOrPush.

(** The elements are plain objects whose property values are primitives.

    [ValueKeyIteratee<T>], without lodash's property-name shorthands: a
    function of the element, its index and the array, or an object of
    properties to match. *)
Inductive Predicate : Type :=
| PFunction (f : Js.object -> nat -> list Js.object -> bool)
| PObject (source : Js.object).

(** lodash [pick(item, 'id')]: the property is picked when the item has
    it, whatever its value. *)
Definition pick_id (item : Js.object) : Js.object :=
  match item !! "id" with
  | Some v => {[ "id" := v ]}
  | None => ∅
  end.

(** lodash [pickBy(object)]: the properties whose value is truthy. *)
Definition pickBy (object : Js.object) : Js.object :=
  filter (fun kv => Js.truthy (snd kv) = true) object.

(** lodash [matches(source)] on an element: every property of [source] is
    a property of the element, with the same ([===]) value. *)
Definition matches (source element : Js.object) : bool :=
  bool_decide (map_Forall (fun k v => element !! k = Some v) source).

(** The iteratee lodash makes of a predicate. *)
Definition iteratee (predicate : Predicate) (array : list Js.object)
  : Js.object -> nat -> bool :=
  match predicate with
  | PFunction f => fun value index => f value index array
  | PObject source => fun value _ => matches source value
  end.

(** lodash [findIndex(array, predicate)]; [None] stands for [-1]. *)
Fixpoint findIndex_from (test : Js.object -> nat -> bool) (array : list Js.object)
    (index : nat) : option nat :=
  match array with
  | [] => None
  | value :: rest =>
      if test value index then Some index else findIndex_from test rest (S index)
  end.

Definition findIndex (array : list Js.object) (predicate : Predicate) : option nat :=
  findIndex_from (iteratee predicate array) array 0.

(** [typeof predicate === 'object' ? pickBy(predicate)
                                   : predicate || defaultPredicate] *)
Definition derivedPredicate (item : Js.object) (predicate : option Predicate)
  : Predicate :=
  match predicate with
  | Some (PObject source) => PObject (pickBy source)
  | Some (PFunction f) => PFunction f
  | None => PObject (pick_id item)
  end.

Section Merge.
(** [isPlainObject] and [objectMerge] are utilities of their own. *)
Variable isPlainObject : Js.object -> bool.
Variable objectMerge : Js.object -> Js.object -> Js.object.

(** What is stored at the index of a match. *)
Definition merged (existingItem item : Js.object) : Js.object :=
  if isPlainObject existingItem && isPlainObject item
  then objectMerge existingItem item
  else item.

(** [mergeOrPush(array, item, predicate)]; a missing item is [None]. *)
Definition mergeOrPush (array : list Js.object) (item : option Js.object)
    (predicate : option Predicate) : list Js.object :=
  match item with
  | None => array
  | Some item =>
      match findIndex array (derivedPredicate item predicate) with
      | None => (array ++ [item])%list
      | Some index =>
          match array !! index with
          | Some existingItem => <[index := merged existingItem item]> array
          | None => array
          end
      end
  end.

End Merge.

(** Consignments in the manner of the callers, and a merge that lets the
    properties of the new item win. *)
Definition consignmentsMock : list Js.object :=
  [ {[ "id" := Js.VStr "a"; "city" := Js.VStr "Sydney" ]};
    {[ "id" := Js.VStr "b"; "city" := Js.VStr "Austin" ]} ].

Definition objectMergeMock (existingItem item : Js.object) : Js.object :=
  Js.spread existingItem item.

Definition itemWithoutId : Js.object := {[ "city" := Js.VStr "Perth" ]}.

End MergeOrPush.

(* ===================================================================== *)
(** * Properties                                                          *)
(* ===================================================================== *)

Local Open Scope list_scope.

(** ** StripeCSPaymentStrategy *)

Section StripeCSFacts.
Import StripeCS.
Variable w : World.

(** *** A weakest-precondition calculus for the strategy monad *)

Lemma wp_run {A} (m : M A) s h (Q : Result Thrown A -> Strategy -> Trace -> Prop) :
  wp m s h Q <-> (forall r s' t, run m s h = (r, s', t) -> Q r s' t).
Proof.
  unfold wp, run. destruct (m s h) as [[r0 s0] t0]. split.
  - intros HQ r s' t [= <- <- <-]. exact HQ.
  - intros HQ. apply HQ. reflexivity.
Qed.

Lemma wp_mono {A} (m : M A) s h (Q1 Q2 : Result Thrown A -> Strategy -> Trace -> Prop) :
  wp m s h Q1 -> (forall r s' t, Q1 r s' t -> Q2 r s' t) -> wp m s h Q2.
Proof. unfold wp. destruct (m s h) as [[r0 s0] t0]. auto. Qed.

Lemma wp_ret {A} (a : A) s h Q : Q (Ok a) s [] -> wp (ret a) s h Q.
Proof. exact id. Qed.

Lemma wp_throw {A} (e : Thrown) s h (Q : Result Thrown A -> _) :
  Q (Throw e) s [] -> wp (throw e) s h Q.
Proof. exact id. Qed.

Lemma wp_this s h Q : Q (Ok s) s [] -> wp this s h Q.
Proof. exact id. Qed.

Lemma wp_history s h Q : Q (Ok h) s [] -> wp history s h Q.
Proof. exact id. Qed.

Lemma wp_emit e s h Q : Q (Ok tt) s [e] -> wp (emit e) s h Q.
Proof. exact id. Qed.

Lemma wp_lift {A} (r : Result Thrown A) s h Q : Q r s [] -> wp (lift r) s h Q.
Proof. exact id. Qed.

Lemma wp_call {A} (f : Trace -> Result Thrown A) ev s h Q :
  Q (f h) s [ev (f h)] -> wp (call f ev) s h Q.
Proof. exact id. Qed.

Lemma wp_set_stripeClient c s h Q :
  Q (Ok tt) {| stripeClient := c; stripeCheckout := stripeCheckout s;
               selectedMethodId := selectedMethodId s |} [] ->
  wp (set_stripeClient c) s h Q.
Proof. exact id. Qed.

Lemma wp_set_stripeCheckout c s h Q :
  Q (Ok tt) {| stripeClient := stripeClient s; stripeCheckout := c;
               selectedMethodId := selectedMethodId s |} [] ->
  wp (set_stripeCheckout c) s h Q.
Proof. exact id. Qed.

Lemma wp_set_selectedMethodId x s h Q :
  Q (Ok tt) {| stripeClient := stripeClient s; stripeCheckout := stripeCheckout s;
               selectedMethodId := x |} [] ->
  wp (set_selectedMethodId x) s h Q.
Proof. exact id. Qed.

Lemma wp_bind {A B} (m : M A) (k : A -> M B) s h Q :
  wp m s h (fun r s1 t1 =>
              match r with
              | Ok a => wp (k a) s1 (h ++ t1)%list (fun r2 s2 t2 => Q r2 s2 (t1 ++ t2)%list)
              | Throw e => Q (Throw e) s1 t1
              end) ->
  wp (bind m k) s h Q.
Proof.
  unfold wp, bind. destruct (m s h) as [[[a|e] s1] t1]; [|exact id].
  destruct (k a s1 (h ++ t1)%list) as [[r2 s2] t2]. exact id.
Qed.

Lemma wp_try_catch {A} (m : M A) (handler : Thrown -> M A) s h Q :
  wp m s h (fun r s1 t1 =>
              match r with
              | Ok a => Q (Ok a) s1 t1
              | Throw e =>
                  wp (handler e) s1 (h ++ t1)%list (fun r2 s2 t2 => Q r2 s2 (t1 ++ t2)%list)
              end) ->
  wp (try_catch m handler) s h Q.
Proof.
  unfold wp, try_catch. destruct (m s h) as [[[a|e] s1] t1]; [exact id|].
  destruct (handler e s1 (h ++ t1)%list) as [[r2 s2] t2]. exact id.
Qed.

(** One step of symbolic execution. *)
Ltac wp_prim :=
  lazymatch goal with
  | |- wp (bind _ _) _ _ _ => apply wp_bind
  | |- wp (try_catch _ _) _ _ _ => apply wp_try_catch
  | |- wp (ret _) _ _ _ => apply wp_ret
  | |- wp (throw _) _ _ _ => apply wp_throw
  | |- wp this _ _ _ => apply wp_this
  | |- wp history _ _ _ => apply wp_history
  | |- wp (emit _) _ _ _ => apply wp_emit
  | |- wp (lift _) _ _ _ => apply wp_lift
  | |- wp (call _ _) _ _ _ => apply wp_call
  | |- wp (set_stripeClient _) _ _ _ => apply wp_set_stripeClient
  | |- wp (set_stripeCheckout _) _ _ _ => apply wp_set_stripeCheckout
  | |- wp (set_selectedMethodId _) _ _ _ => apply wp_set_selectedMethodId
  | |- wp (fun _ _ => _) _ _ _ => unfold wp at 1
  | |- wp (match ?x with _ => _ end) _ _ _ => destruct x eqn:?
  | |- match ?x with _ => _ end => destruct x eqn:?
  end; cbv beta iota.

Ltac head_of t :=
  lazymatch t with
  | ?f _ => head_of f
  | _ => t
  end.

Ltac wp_unfold :=
  lazymatch goal with
  | |- wp ?m _ _ _ =>
      let f := head_of m in
      unfold f
  end; cbv beta iota.

Ltac wp_go := repeat first [wp_prim | wp_unfold].

Lemma deinitialize_result (s : Strategy) (h : Trace) :
  exists t, run (deinitialize w) s h = (Ok tt, Uninitialized, t)
            /\ (stripeCheckout s = None -> t = [])
            /\ (forall el, count (is_unmount_of el) t <= 1
                           /\ count (is_destroy_of el) t <= 1).
Proof.
  unfold deinitialize, run.
  cbv [bind try_catch ret throw this history emit lift call
       set_stripeClient set_stripeCheckout set_selectedMethodId].
  rewrite ?app_nil_r.
  destruct (stripeCheckout s) as [co|]; cbn.
  - destruct (getPaymentElement w h co) as [[n]|]; cbn.
    + eexists; split; [reflexivity|]. split; [discriminate|].
      intros [m]. unfold count; cbn. destruct (Nat.eqb n m); cbn; lia.
    + eexists; split; [reflexivity|]. split; [discriminate|].
      intros el. unfold count; cbn. lia.
  - eexists; split; [reflexivity|]. split; [reflexivity|].
    intros el. unfold count; cbn. lia.
Qed.

Ltac wp_done :=
  cbn in *; unfold count in *; cbn in *;
  repeat match goal with
         | |- _ /\ _ => split
         | |- forall _, _ => intro
         | H : _ /\ _ |- _ => destruct H
         | H : _ \/ _ |- _ => destruct H
         | H : False |- _ => destruct H
         end;
  simplify_eq; try congruence; try lia; try reflexivity.

Lemma count_app p (t1 t2 : Trace) : count p (t1 ++ t2) = count p t1 + count p t2.
Proof. unfold count. rewrite List.filter_app, length_app. reflexivity. Qed.

Lemma loaded_clients_app (t1 t2 : Trace) :
  loaded_clients (t1 ++ t2) = (loaded_clients t1 ++ loaded_clients t2)%list.
Proof. unfold loaded_clients. apply omap_app. Qed.

Lemma load_post_quiet (s s' : Strategy) (t t2 : Trace) :
  load_post s s' t -> count is_getStripeClient t2 = 0 -> loaded_clients t2 = [] ->
  load_post s s' (t ++ t2).
Proof.
  intros (Hk & Hl & Hn) Hc Hq. unfold load_post.
  rewrite count_app, loaded_clients_app, Hc, Hq, app_nil_r, Nat.add_0_r. auto.
Qed.

Lemma not_loading_not_loaded (t : Trace) :
  count is_getStripeClient t = 0 -> loaded_clients t = [].
Proof.
  unfold count, loaded_clients. induction t as [|e t IH]; [reflexivity|].
  destruct e; cbn; try exact IH. discriminate.
Qed.

(** Adaptive pricing leaves the instance alone and never loads a client. *)
Lemma initAdaptivePricing_frame (s : Strategy) (h : Trace) :
  wp (_initAdaptivePricing w) s h
     (fun _ s' t => s' = s /\ count is_getStripeClient t = 0 /\ loaded_clients t = []).
Proof. wp_go. all: wp_done. Qed.

Lemma initializeStripeElement_load stripe gatewayId methodId (s : Strategy) (h : Trace) :
  wp (_initializeStripeElement w stripe gatewayId methodId) s h
     (fun _ s' t => load_post s s' t).
Proof. unfold load_post. wp_go. all: wp_done. Qed.

Lemma initialize_catch_frame stripe (e : Thrown) (s : Strategy) (h : Trace) :
  wp (initialize_catch stripe e) s h
     (fun r s' t => r = Ok tt /\ s' = s /\ t = onError_events stripe e).
Proof.
  destruct e as [e0|v]; unfold initialize_catch, onError_events;
    [destruct (has_onError stripe)|]; wp_go; wp_done.
Qed.

Lemma onError_events_quiet stripe e :
  count is_getStripeClient (onError_events stripe e) = 0
  /\ loaded_clients (onError_events stripe e) = [].
Proof.
  destruct e as [e0|v]; unfold onError_events; [destruct (has_onError stripe)|];
    split; reflexivity.
Qed.

(** The setup work of [initialize]. *)
Lemma initialize_setup_load stripe gatewayId methodId (s : Strategy) (h : Trace) :
  wp (initialize_setup w stripe gatewayId methodId) s h
     (fun _ s' t => load_post s s' t).
Proof.
  unfold initialize_setup. apply wp_bind.
  eapply wp_mono; [apply initializeStripeElement_load|].
  cbv beta. intros r s1 t1 Hpost. destruct r as [[]|e]; [|exact Hpost].
  eapply wp_mono; [apply initAdaptivePricing_frame|].
  cbv beta. intros r2 s2 t2 (-> & Hc2 & Hl2). now apply load_post_quiet.
Qed.

Lemma initialize_load_wp (o : PaymentInitializeOptions) (s : Strategy) (h : Trace) :
  wp (initialize w o) s h (fun _ s' t => load_post s s' t).
Proof.
  unfold initialize.
  destruct (stripeocs o) as [stripe|]; [|unfold load_post; wp_go; wp_done].
  destruct (_ || _); [unfold load_post; wp_go; wp_done|].
  apply wp_try_catch.
  eapply wp_mono; [apply initialize_setup_load|].
  cbv beta. intros r s1 t1 Hpost. destruct r as [[]|e]; [exact Hpost|].
  eapply wp_mono; [apply initialize_catch_frame|].
  cbv beta. intros r3 s3 t3 (_ & -> & ->).
  destruct (onError_events_quiet stripe e) as [Hc3 Hl3]. now apply load_post_quiet.
Qed.

Lemma initialize_all_load (calls : list PaymentInitializeOptions) :
  forall s h rs s' t,
    initialize_all w calls s h = (rs, s', t) -> load_post s s' t.
Proof.
  induction calls as [|o rest IH]; intros s h rs s' t Hrun; cbn in Hrun.
  - injection Hrun as <- <- <-. unfold load_post. cbn. repeat split; auto; lia || tauto.
  - pose proof (initialize_load_wp o s h) as H1. unfold wp in H1.
    destruct (initialize w o s h) as [[r s1] t1].
    destruct (initialize_all w rest s1 (h ++ t1)%list) as [[rs2 s2] t2] eqn:Hrest.
    injection Hrun as <- <- <-.
    destruct H1 as (Hk1 & Hl1 & Hn1).
    destruct (IH _ _ _ _ _ Hrest) as (Hk2 & Hl2 & Hn2).
    unfold load_post. rewrite count_app, loaded_clients_app.
    assert (Hcached : forall c, stripeClient s1 = Some c ->
               stripeClient s2 = Some c /\ loaded_clients t2 = []).
    { intros c Hc. destruct (Hk2 c Hc) as [? Hz]. split; [assumption|].
      now apply not_loading_not_loaded. }
    split; [|split].
    + intros c Hc. destruct (Hk1 c Hc) as [Hs1 Hz1].
      destruct (Hk2 c Hs1) as [Hs2 Hz2]. rewrite Hz1, Hz2. auto.
    + intros c Hin. apply in_app_or in Hin as [Hin|Hin]; [|auto].
      apply (Hcached c). auto.
    + destruct (loaded_clients t1) as [|c l] eqn:Hl; [exact Hn2|].
      destruct (Hcached c) as [_ ->]; [apply Hl1; left; reflexivity|].
      rewrite app_nil_r. exact Hn1.
Qed.


(** *** The lifecycle properties *)

(** C7.  [deinitialize] always resolves and leaves the instance cleared;
    a second call in a row, or a call before [initialize], resolves too and
    performs no call at all, so that over the two calls every payment
    element is unmounted at most once and destroyed at most once. *)
Theorem deinitialize_idempotent_total (s : Strategy) (h : Trace) :
  exists t1 t2,
    run (deinitialize w) s h = (Ok tt, Uninitialized, t1)
    /\ run (deinitialize w) Uninitialized (h ++ t1) = (Ok tt, Uninitialized, t2)
    /\ t2 = []
    /\ (forall h0, run (deinitialize w) Uninitialized h0 = (Ok tt, Uninitialized, []))
    /\ (forall el, count (is_unmount_of el) (t1 ++ t2) <= 1
                   /\ count (is_destroy_of el) (t1 ++ t2) <= 1).
Proof.
  destruct (deinitialize_result s h) as (t1 & Hrun & _ & Hcount).
  assert (Hfresh : forall h0,
             run (deinitialize w) Uninitialized h0 = (Ok tt, Uninitialized, [])).
  { intros h0. destruct (deinitialize_result Uninitialized h0) as (t & Ht & Hnil & _).
    rewrite Ht, (Hnil eq_refl). reflexivity. }
  exists t1, []. repeat split; auto; rewrite app_nil_r; apply Hcount.
Qed.


(** C6 (amended).  When the arguments of [initialize] are valid and its
    setup work fails, [initialize] resolves; [onError] is invoked with the
    failure when the caller supplied it and the failure is an [Error]
    instance; and the instance is left as the failed setup left it: a
    client handle that was cached before, or that the setup loaded, is
    still cached. *)
Theorem initialize_setup_failure (o : PaymentInitializeOptions)
    (stripe : StripeOCSPaymentInitializeOptions) (s : Strategy) (h : Trace)
    (e : Thrown) (s1 : Strategy) (t1 : Trace) :
  stripeocs o = Some stripe ->
  string_truthy (Some (containerId stripe)) = true ->
  string_truthy (init_gatewayId o) = true ->
  run (initialize_setup w stripe (string_or_empty (init_gatewayId o))
         (init_methodId o)) s h = (Throw e, s1, t1) ->
  run (initialize w o) s h = (Ok tt, s1, t1 ++ onError_events stripe e)
  /\ (forall c, stripeClient s = Some c -> stripeClient s1 = Some c)
  /\ (forall c, In c (loaded_clients t1) -> stripeClient s1 = Some c).
Proof.
  intros Hs Hc Hg Hrun. split.
  - unfold run, initialize, try_catch in *. rewrite Hs, Hc, Hg. cbn [negb orb].
    rewrite Hrun.
    pose proof (initialize_catch_frame stripe e s1 (h ++ t1)%list) as Hcatch.
    unfold wp in Hcatch.
    destruct (initialize_catch stripe e s1 (h ++ t1)%list) as [[r2 s2] t2].
    destruct Hcatch as (-> & -> & ->). reflexivity.
  - pose proof (proj1 (wp_run _ _ _ _)
                  (initialize_setup_load stripe _ _ s h) _ _ _ Hrun)
      as (Hk & Hl & _).
    split; [|exact Hl]. intros c Hcl. apply (Hk c Hcl).
Qed.

(** The strategy part of C8: over any sequence of [initialize] calls at
    most one load of the client succeeds, and once a client is cached no
    later call invokes the loader and the handle stays. *)
Lemma client_cached_once (calls more : list PaymentInitializeOptions)
    (s : Strategy) (h : Trace) rs s1 t1 rs2 s2 t2 :
  initialize_all w calls s h = (rs, s1, t1) ->
  initialize_all w more s1 (h ++ t1)%list = (rs2, s2, t2) ->
  length (loaded_clients (t1 ++ t2)) <= 1
  /\ (forall c, stripeClient s = Some c \/ In c (loaded_clients t1) ->
                count is_getStripeClient t2 = 0 /\ stripeClient s2 = Some c).
Proof.
  intros H1 H2.
  destruct (initialize_all_load _ _ _ _ _ _ H1) as (Hk1 & Hl1 & Hn1).
  destruct (initialize_all_load _ _ _ _ _ _ H2) as (Hk2 & Hl2 & Hn2).
  assert (Hreuse : forall c, stripeClient s = Some c \/ In c (loaded_clients t1) ->
                             count is_getStripeClient t2 = 0 /\ stripeClient s2 = Some c).
  { intros c [Hc|Hin].
    - destruct (Hk1 c Hc) as [Hs1 _]. destruct (Hk2 c Hs1). auto.
    - destruct (Hk2 c (Hl1 c Hin)). auto. }
  split; [|exact Hreuse].
  rewrite loaded_clients_app. destruct (loaded_clients t1) as [|c l] eqn:Hl; [exact Hn2|].
  destruct (Hreuse c) as [Hz _]; [right; left; reflexivity|].
  rewrite (not_loading_not_loaded _ Hz), app_nil_r. exact Hn1.
Qed.

End StripeCSFacts.

(** ** StripeUPEScriptLoader *)

Section StripeUPEFacts.
Variable W : StripeUPE.World.

Lemma window_client_cached key account locale win c :
  StripeUPE.bcStripeClient win = Some c ->
  StripeUPE.getStripeClient W key account locale win = (Ok c, win, []).
Proof. intros H. unfold StripeUPE.getStripeClient. rewrite H. reflexivity. Qed.

Lemma window_client_attached key account locale win c win1 t1 :
  StripeUPE.getStripeClient W key account locale win = (Ok c, win1, t1) ->
  StripeUPE.bcStripeClient win1 = Some c.
Proof.
  unfold StripeUPE.getStripeClient, StripeUPE.load.
  destruct (StripeUPE.bcStripeClient win) as [c0|] eqn:Hc.
  - intros [= <- <- <-]. exact Hc.
  - destruct (StripeUPE.loadScript W _ win) as [[ctor|]|e]; intros [= <- <- <-].
    reflexivity.
Qed.

Lemma window_client_all_cached args : forall win c,
  StripeUPE.bcStripeClient win = Some c ->
  StripeUPE.getStripeClient_all W args win = (repeat (Ok c) (length args), win, []).
Proof.
  induction args as [|[[key account] locale] rest IH]; intros win c Hc; cbn.
  - reflexivity.
  - rewrite (window_client_cached _ _ _ _ _ Hc), (IH _ _ Hc). reflexivity.
Qed.

(** The window part of C8: once a call has returned a client, every later
    call returns that same client whatever its arguments, loads no script
    and constructs nothing. *)
Lemma window_client_reused key account locale win c win1 t1 args :
  StripeUPE.getStripeClient W key account locale win = (Ok c, win1, t1) ->
  StripeUPE.getStripeClient_all W args win1 = (repeat (Ok c) (length args), win1, []).
Proof.
  intros H. apply window_client_all_cached. exact (window_client_attached _ _ _ _ _ _ _ H).
Qed.

(** C9.  Two calls of [getStripeClient] that differ only in the publishable
    key return the same client, leave the same window and construct the
    client from the same arguments: the key handed to the [Stripe]
    constructor is the one written in the source, never the argument. *)
Theorem getStripeClient_ignores_publishable_key (key1 key2 account : string)
    (locale : option string) (win : StripeUPE.StripeHostWindow) :
  let '(r1, win1, t1) := StripeUPE.getStripeClient W key1 account locale win in
  let '(r2, win2, t2) := StripeUPE.getStripeClient W key2 account locale win in
  r1 = r2 /\ win1 = win2
  /\ StripeUPE.constructions t1 = StripeUPE.constructions t2
  /\ Forall (fun c => fst c = StripeUPE.HARD_CODED_KEY) (StripeUPE.constructions t1).
Proof.
  unfold StripeUPE.getStripeClient, StripeUPE.load.
  destruct (StripeUPE.bcStripeClient win) as [c0|].
  - repeat split; constructor.
  - destruct (StripeUPE.loadScript W _ win) as [[ctor|]|e]; cbn;
      repeat split; repeat constructor.
Qed.

End StripeUPEFacts.

(** ** The cached client, across both loaders *)

(** C8 (amended).  Over any sequence of [initialize] calls on one strategy
    instance at most one load of the client succeeds, and once a client is
    cached (before the sequence, or by a call of it) no later call invokes
    the loader and the handle stays the same.  Likewise, once the
    window-level loader has returned a client, every later call returns that
    client whatever its arguments. *)
Theorem client_loaded_once_then_reused :
  (forall (w : StripeCS.World) (calls more : list StripeCS.PaymentInitializeOptions)
          (s : StripeCS.Strategy) (h : StripeCS.Trace) rs s1 t1 rs2 s2 t2,
      StripeCS.initialize_all w calls s h = (rs, s1, t1) ->
      StripeCS.initialize_all w more s1 (h ++ t1) = (rs2, s2, t2) ->
      length (StripeCS.loaded_clients (t1 ++ t2)) <= 1
      /\ (forall c,
            StripeCS.stripeClient s = Some c \/ In c (StripeCS.loaded_clients t1) ->
            StripeCS.count StripeCS.is_getStripeClient t2 = 0
            /\ StripeCS.stripeClient s2 = Some c))
  /\ (forall (W : StripeUPE.World) key account locale win c win1 t1 args,
        StripeUPE.getStripeClient W key account locale win = (Ok c, win1, t1) ->
        StripeUPE.getStripeClient_all W args win1
        = (repeat (Ok c) (length args), win1, [])).
Proof.
  split.
  - intros w calls more s h rs s1 t1 rs2 s2 t2. apply client_cached_once.
  - intros W key account locale win c win1 t1 args. apply window_client_reused.
Qed.

(** ** Scenarios *)

Section Scenarios.
Import StripeCS.

(** *** Agreement with the strategy's test suite *)

(** "submit second payment request with token from submitPayment response
    error body if checkout session ID not exists" *)
Example second_request_falls_back_to_token :
  let '(r, _, t) := run (execute world_no_session_id orderRequestBodyMock None)
                        initialized [] in
  r = Ok tt /\ submitted_tokens t = [Some "clientToken"; Some "token"].
Proof. vm_compute. split; reflexivity. Qed.

(** "throws error on second submitPayment request" *)
Example second_error_is_rethrown_when_unpaid :
  let '(r, _, t) := run (execute world_unpaid orderRequestBodyMock None) initialized [] in
  r = Throw (ThrownError (GenericError "second submitPayment error"))
  /\ count is_submitPayment t = 2.
Proof. vm_compute. split; reflexivity. Qed.

(** "throw error if stripe client not initialized" *)
Example execute_before_initialize :
  run (execute world_ok orderRequestBodyMock None) Uninitialized []
  = (Throw (ThrownError (NotInitializedError PaymentNotInitialized)), Uninitialized, []).
Proof. reflexivity. Qed.

(** "loads stripe js only once per initialization" *)
Example two_initializations_load_once :
  let '(rs, _, t) := initialize_all world_ok [initializeOptionsMock; initializeOptionsMock]
                                    Uninitialized [] in
  rs = [Ok tt; Ok tt] /\ count is_getStripeClient t = 1.
Proof. vm_compute. split; reflexivity. Qed.

(** "deinitializes stripe payment strategy": the mounted element is
    unmounted and destroyed. *)
Example deinitialize_after_initialize :
  let '(_, s1, t1) := run (initialize world_ok initializeOptionsMock) Uninitialized [] in
  run (deinitialize world_ok) s1 t1
  = (Ok tt, Uninitialized,
     [EvUnmount (StripeElementHandle 0); EvDestroy (StripeElementHandle 0)]).
Proof. vm_compute. reflexivity. Qed.

(** "throws an error to inform that order finalization is not required" *)
Example finalize_rejects (s : Strategy) (h : Trace) :
  run finalize s h = (Throw (ThrownError OrderFinalizationNotRequiredError), s, []).
Proof. reflexivity. Qed.

(** *** The claims at concrete inputs *)

(** The instance a setup leaves when the checkout instance cannot be
    obtained holds a client and no checkout instance. *)
Example failed_setup_leaves_client_only :
  snd (fst run_checkout_fails) = client_only.
Proof. reflexivity. Qed.



(** C6, witness: the checkout instance cannot be obtained after the client
    was loaded. *)
Lemma initialize_setup_failure_witness :
  run (initialize world_checkout_fails initializeOptionsMock) Uninitialized []
  = (Ok tt, snd (fst run_checkout_fails),
     snd run_checkout_fails ++ [EvOnError (GenericError "checkout unavailable")])
  /\ stripeClient (snd (fst run_checkout_fails)) = Some (StripeClientHandle 0).
Proof.
  assert (Hsetup : run (initialize_setup world_checkout_fails stripeOptionsMock
                          "stripeocs" "checkout_session") Uninitialized []
                   = run_checkout_fails) by (vm_compute; reflexivity).
  destruct (initialize_setup_failure world_checkout_fails initializeOptionsMock
              stripeOptionsMock Uninitialized [] _ _ _ eq_refl eq_refl eq_refl Hsetup)
    as (Hrun & _ & Hload).
  split; [exact Hrun|]. apply Hload. vm_compute. tauto.
Defined.

(** C6, as written, fails: after that failure the client handle is still
    cached, the instance is not back in the Uninitialized state. *)
Lemma setup_failure_claim_fails :
  ~ setup_failure_claim world_checkout_fails initializeOptionsMock Uninitialized [].
Proof.
  intros H.
  assert (Hsetup : run (initialize_setup world_checkout_fails stripeOptionsMock
                          "stripeocs" "checkout_session") Uninitialized []
                   = run_checkout_fails) by (vm_compute; reflexivity).
  destruct (H stripeOptionsMock (GenericError "checkout unavailable") _ _ eq_refl Hsetup)
    as (t & Hrun & _).
  vm_compute in Hrun. discriminate Hrun.
Qed.

(** C8, witness: after a first successful call two more calls find the
    client cached; the window-level loader, called again with other
    arguments, returns the client of its first call. *)
Lemma client_loaded_once_then_reused_witness :
  (initialize_all world_ok [initializeOptionsMock] Uninitialized [] = run_first_call_ok
   /\ count is_getStripeClient (snd run_later_calls_ok) = 0
   /\ stripeClient (snd (fst run_later_calls_ok)) = Some (StripeClientHandle 0))
  /\ StripeUPE.getStripeClient_all StripeUPE.world_script_loads
       [("pk_live_2", "acct_2", None); ("pk_live_3", "acct_3", Some "fr")]
       (snd (fst StripeUPE.run_window_first))
     = ([Ok (StripeUPE.StripeUPEClientHandle 42); Ok (StripeUPE.StripeUPEClientHandle 42)],
        snd (fst StripeUPE.run_window_first), []).
Proof.
  destruct client_loaded_once_then_reused as [Hcs Hwin]. split.
  - assert (H1 : initialize_all world_ok [initializeOptionsMock] Uninitialized []
                 = run_first_call_ok) by (vm_compute; reflexivity).
    split; [exact H1|].
    assert (H2 : initialize_all world_ok [initializeOptionsMock; initializeOptionsMock]
                   (snd (fst run_first_call_ok)) ([] ++ snd run_first_call_ok)
                 = run_later_calls_ok) by (vm_compute; reflexivity).
    destruct (Hcs world_ok _ _ _ _ _ _ _ _ _ _ H1 H2) as [_ Hreuse].
    apply (Hreuse (StripeClientHandle 0)). right. vm_compute. tauto.
  - exact (Hwin StripeUPE.world_script_loads "pk_live_1" "acct_1" (Some "en")
                StripeUPE.emptyWindow _ _ _
                [("pk_live_2", "acct_2", None); ("pk_live_3", "acct_3", Some "fr")]
                eq_refl).
Defined.

(** C8, as written, fails when the first load is rejected: the second
    [initialize] call invokes the loader again. *)
Lemma only_first_call_loads_fails :
  ~ only_first_call_loads world_first_load_fails initializeOptionsMock
      [initializeOptionsMock] Uninitialized [].
Proof.
  intros H.
  specialize (H _ _ _ _ _ _ eq_refl eq_refl).
  vm_compute in H. discriminate H.
Qed.

End Scenarios.


(** ** BillingAddressActionCreator *)

Section BillingFacts.
Import Billing.
Variable W : World.

(** *** Merging timed lists *)

Lemma merge_by_time_nil_l {A} (l : list (nat * A)) : merge_by_time [] l = l.
Proof. destruct l; reflexivity. Qed.

Lemma merge_by_time_nil_r {A} (l : list (nat * A)) : merge_by_time l [] = l.
Proof. destruct l; reflexivity. Qed.

Lemma merge_by_time_cons {A} (x y : nat * A) l1 l2 :
  merge_by_time (x :: l1) (y :: l2)
  = if Nat.leb (fst x) (fst y) then x :: merge_by_time l1 (y :: l2)
    else y :: merge_by_time (x :: l1) l2.
Proof. reflexivity. Qed.

Lemma in_merge_by_time {A} (x : nat * A) l1 : forall l2,
  In x (merge_by_time l1 l2) <-> In x l1 \/ In x l2.
Proof.
  induction l1 as [|a l1 IH]; intros l2.
  - rewrite merge_by_time_nil_l. cbn. tauto.
  - induction l2 as [|b l2 IH2].
    + rewrite merge_by_time_nil_r. cbn. tauto.
    + rewrite merge_by_time_cons. destruct (Nat.leb (fst a) (fst b)).
      * cbn [In]. rewrite IH. cbn [In]. tauto.
      * cbn [In]. rewrite IH2. cbn [In]. tauto.
Qed.

Lemma head_merge_by_time {A} (x : nat * A) l1 l2 :
  Forall (fun y => fst x <= fst y) l2 ->
  head (merge_by_time (x :: l1) l2) = Some x.
Proof.
  destruct l2 as [|y l2]; [reflexivity|].
  intros H. rewrite merge_by_time_cons.
  apply Forall_inv in H. apply Nat.leb_le in H. rewrite H. reflexivity.
Qed.

Lemma in_upto {A} (x : nat * A) t l : In x l -> fst x <= t -> In x (upto t l).
Proof.
  intros Hin Hle. unfold upto. apply List.filter_In. split; [assumption|].
  now apply Nat.leb_le.
Qed.

Lemma in_before {A} (x : nat * A) t l : In x l -> fst x < t -> In x (before t l).
Proof.
  intros Hin Hlt. unfold before. apply List.filter_In. split; [assumption|].
  now apply Nat.ltb_lt.
Qed.

Lemma shift_times {A} (t0 : nat) (l : list (nat * A)) :
  Forall (fun y => t0 <= fst y) (shift t0 l).
Proof.
  unfold shift. apply List.Forall_forall. intros y Hin.
  apply List.in_map_iff in Hin as (x & <- & _). cbn. lia.
Qed.

Lemma in_shift {A} (t0 tau : nat) (a : A) l :
  In (tau, a) l -> In (t0 + tau, a) (shift t0 l).
Proof.
  intros Hin. unfold shift. apply List.in_map_iff. exists (tau, a). auto.
Qed.

(** *** Merging streams *)

Lemma merge_streams_left_event (s1 s2 : Stream) (x : nat * Action) :
  In x (events s1) ->
  match fin s2 with Completed _ => True | Errored t2 _ => fst x <= t2 end ->
  In x (events (merge_streams s1 s2)).
Proof.
  intros Hin Hok. unfold merge_streams.
  destruct (fin s1) as [t1|t1 f1], (fin s2) as [t2|t2 f2]; cbn [events];
    try destruct (Nat.leb t1 t2); cbn [events];
    apply in_merge_by_time; left; auto using in_upto.
Qed.

Lemma merge_streams_right_event (s1 s2 : Stream) (y : nat * Action) :
  In y (events s2) ->
  match fin s1 with Completed _ => True | Errored t1 _ => fst y < t1 end ->
  In y (events (merge_streams s1 s2)).
Proof.
  intros Hin Hok. unfold merge_streams.
  destruct (fin s1) as [t1|t1 f1], (fin s2) as [t2|t2 f2]; cbn [events];
    try destruct (Nat.leb t1 t2); cbn [events];
    apply in_merge_by_time; right; auto using in_before.
Qed.

Lemma merge_streams_right_event_merged (s1 s2 : Stream) (y : nat * Action) :
  In y (events s2) ->
  no_failure_upto (fst y) (merge_streams s1 s2) ->
  In y (events (merge_streams s1 s2)).
Proof.
  intros Hin. unfold no_failure_upto, merge_streams.
  destruct (fin s1) as [t1|t1 f1], (fin s2) as [t2|t2 f2]; cbn [events fin];
    try destruct (Nat.leb t1 t2); cbn [events fin]; intros Hok;
    apply in_merge_by_time; right; auto using in_before.
Qed.

Lemma merge_streams_head (s1 s2 : Stream) (x : nat * Action) rest :
  events s1 = x :: rest ->
  Forall (fun y => fst x <= fst y) (events s2) ->
  fst x <= end_time (fin s2) ->
  head (events (merge_streams s1 s2)) = Some x.
Proof.
  intros He Hall Hend. unfold merge_streams.
  assert (Hb : forall t, Forall (fun y => fst x <= fst y) (before t (events s2))).
  { intros t. unfold before. apply List.Forall_forall. intros y Hy.
    apply List.filter_In in Hy as [Hy _]. revert y Hy. now apply List.Forall_forall. }
  assert (Hu : forall t, fst x <= t -> upto t (events s1) = x :: upto t rest).
  { intros t Ht. rewrite He. unfold upto. cbn [List.filter].
    apply Nat.leb_le in Ht. rewrite Ht. reflexivity. }
  destruct (fin s1) as [t1|t1 f1], (fin s2) as [t2|t2 f2]; cbn [events end_time] in *;
    try destruct (Nat.leb t1 t2); cbn [events];
    rewrite ?Hu by assumption; rewrite ?He; now apply head_merge_by_time.
Qed.

Lemma merge_streams_calls (s1 s2 : Stream) (t0 : nat) (c1 : Call) :
  calls s1 = [(t0, c1)] ->
  (calls s2 = [] \/ exists c2, calls s2 = [(t0, c2)]) ->
  t0 < end_time (fin s1) ->
  t0 <= end_time (fin s2) ->
  calls (merge_streams s1 s2) = (t0, c1) :: calls s2.
Proof.
  intros H1 H2 Hlt Hle. unfold merge_streams.
  assert (Hleb : forall t, t0 <= t -> Nat.leb t0 t = true)
    by (intros; now apply Nat.leb_le).
  assert (Hltb : forall t, t0 < t -> Nat.ltb t0 t = true)
    by (intros; now apply Nat.ltb_lt).
  destruct (fin s1) as [t1|t1 f1], (fin s2) as [t2|t2 f2]; cbn [calls end_time] in *;
    try destruct (Nat.leb t1 t2); cbn [calls];
    rewrite H1; destruct H2 as [->|[c2 ->]];
    unfold upto, before; cbn [List.filter fst];
    rewrite ?Hleb, ?Hltb by assumption;
    rewrite ?merge_by_time_nil_r, ?merge_by_time_cons; cbn [fst];
    rewrite ?Nat.leb_refl, ?merge_by_time_nil_l; reflexivity.
Qed.

(** *** The two streams merged by [continueAsGuest] *)

(** The billing-address sequence: [Requested] at once, the request issued
    at once, and the terminal notification when the request settles. *)
Lemma continueAsGuest_actions_stream checkout state credentials options t0 :
  let req := continueAsGuest_request checkout state credentials options in
  subscribe W (continueAsGuest_actions checkout state credentials options) t0
  = match snd (send W req t0) with
    | Ok body =>
        {| events := [(t0, Requested); (settles W req t0, Succeeded body)];
           calls := [(t0, CRequest req)];
           fin := Completed (settles W req t0) |}
    | Throw response =>
        {| events := [(t0, Requested)];
           calls := [(t0, CRequest req)];
           fin := Errored (settles W req t0) (ErrorAction (Failed response)) |}
    end.
Proof.
  cbn zeta. unfold continueAsGuest_actions, continueAsGuest_request.
  cbn [subscribe concat_streams fin events calls].
  destruct (snd (send W _ t0)); reflexivity.
Qed.

(** The consent stream: nothing, or the subscription creator's stream
    subscribed at the same time. *)
Lemma updateCustomerConsent_stream credentials options t0 :
  subscribe W (_updateCustomerConsent credentials options) t0
  = if consent_provided credentials then
      {| events := shift t0 (ext_events (subscriptions W (consent_body credentials) options));
         calls := [(t0, CUpdateSubscriptions (consent_body credentials) options)];
         fin := shift_end t0 (ext_fin (subscriptions W (consent_body credentials) options)) |}
    else {| events := []; calls := []; fin := Completed t0 |}.
Proof.
  unfold _updateCustomerConsent, consent_provided, consent_body.
  destruct (Js.is_nullish (Js.get credentials "acceptsAbandonedCartEmails"));
    destruct (Js.is_nullish (Js.get credentials "acceptsMarketingNewsletter"));
    reflexivity.
Qed.

Lemma settles_later (req : Request) (t0 : nat) : t0 < settles W req t0.
Proof. unfold settles. lia. Qed.

Lemma shift_end_later (t0 : nat) (e : End) : t0 <= end_time (shift_end t0 e).
Proof. destruct e; cbn; lia. Qed.

(** What subscribing to the observable of [continueAsGuest] does, in terms
    of its two parts. *)
Lemma continueAsGuest_stream checkout state credentials options t0 :
  let req := continueAsGuest_request checkout state credentials options in
  let billing := subscribe W (continueAsGuest_actions checkout state credentials options) t0 in
  let consent := subscribe W (_updateCustomerConsent credentials options) t0 in
  let S := merge_streams billing consent in
  head (events S) = Some (t0, Requested)
  /\ calls S = (t0, CRequest req) :: calls consent
  /\ (forall body,
        snd (send W req t0) = Ok body ->
        no_failure_upto (settles W req t0) consent ->
        In (settles W req t0, Succeeded body) (events S))
  /\ (forall y,
        In y (events consent) ->
        no_failure_upto (fst y) billing ->
        In y (events S)).
Proof.
  cbn zeta.
  pose proof (continueAsGuest_actions_stream checkout state credentials options t0) as Hb.
  pose proof (updateCustomerConsent_stream credentials options t0) as Hc.
  cbn zeta in Hb.
  set (req := continueAsGuest_request checkout state credentials options) in *.
  set (billing := subscribe W (continueAsGuest_actions _ _ _ _) t0) in *.
  set (consent := subscribe W (_updateCustomerConsent _ _) t0) in *.
  pose proof (settles_later req t0) as Hlater.
  assert (Hcalls1 : calls billing = [(t0, CRequest req)])
    by (rewrite Hb; destruct (snd (send W req t0)); reflexivity).
  assert (Hend1 : end_time (fin billing) = settles W req t0)
    by (rewrite Hb; destruct (snd (send W req t0)); reflexivity).
  assert (Hhead1 : exists rest, events billing = (t0, Requested) :: rest)
    by (rewrite Hb; destruct (snd (send W req t0)); eexists; reflexivity).
  assert (Hcalls2 : calls consent = [] \/ exists c2, calls consent = [(t0, c2)])
    by (rewrite Hc; destruct (consent_provided credentials);
        [right; eexists; reflexivity | left; reflexivity]).
  assert (Hend2 : t0 <= end_time (fin consent))
    by (rewrite Hc; destruct (consent_provided credentials);
        [apply shift_end_later | cbn; lia]).
  assert (Htimes2 : Forall (fun y => t0 <= fst y) (events consent))
    by (rewrite Hc; destruct (consent_provided credentials);
        [apply shift_times | constructor]).
  split; [|split; [|split]].
  - destruct Hhead1 as [rest Hrest].
    now apply (merge_streams_head billing consent (t0, Requested) rest).
  - apply merge_streams_calls; auto. rewrite Hend1. exact Hlater.
  - intros body Hok Hnf. apply merge_streams_left_event.
    + rewrite Hb, Hok. cbn. auto.
    + unfold no_failure_upto in Hnf. destruct (fin consent); [exact I|]. cbn. lia.
  - intros y Hin Hnf. apply merge_streams_right_event; [assumption|].
    unfold no_failure_upto in Hnf. destruct (fin billing); [exact I|]. exact Hnf.
Qed.


Lemma continueAsGuest_inv credentials opts state obs :
  continueAsGuest credentials opts state = Ok obs ->
  exists checkout,
    getCheckout state = Some checkout
    /\ signed_in state = false
    /\ obs = merge (continueAsGuest_actions checkout state credentials opts)
                   (_updateCustomerConsent credentials opts).
Proof.
  unfold continueAsGuest, signed_in.
  destruct (getCheckout state) as [checkout|]; [|discriminate].
  destruct (getCustomer state) as [[[|]]|]; intros [= <-]; eauto.
Qed.

Lemma requests_of_calls (S : Stream) t0 req (l : list (nat * Call)) :
  calls S = (t0, CRequest req) :: l ->
  Forall (fun c => match snd c with CRequest _ => False | _ => True end) l ->
  requests S = [(t0, req)].
Proof.
  intros Hcalls Hl. unfold requests. rewrite Hcalls. clear Hcalls. cbn. f_equal.
  induction Hl as [|[t [r|b o]] l Hx _ IH]; cbn in *; [reflexivity|contradiction|exact IH].
Qed.


(** *** The claims about [continueAsGuest] *)

(** C2.  The two preconditions of [continueAsGuest] are checked in the
    order in which they are listed.  The thunk throws
    [MissingDataError(MissingCheckout)] when the state has no checkout, and,
    this first check passed, throws [UnableToContinueAsGuestError] when a
    signed-in (non-guest) customer exists; so with a signed-in customer the
    thunk always throws, one of these two errors.  In both cases the thunk
    throws instead of returning an observable: nothing is subscribed, so no
    action is emitted and no request is issued. *)
Theorem continueAsGuest_preconditions (credentials : Js.object)
    (opts : option RequestOptions) (state : InternalCheckoutSelectors) :
  (getCheckout state = None ->
   continueAsGuest credentials opts state = Throw (MissingDataError MissingCheckout)
   /\ forall obs, continueAsGuest credentials opts state <> Ok obs)
  /\ (forall checkout,
        getCheckout state = Some checkout ->
        signed_in state = true ->
        continueAsGuest credentials opts state = Throw UnableToContinueAsGuestError
        /\ forall obs, continueAsGuest credentials opts state <> Ok obs)
  /\ (signed_in state = true ->
      exists e, continueAsGuest credentials opts state = Throw e
                /\ (e = MissingDataError MissingCheckout
                    \/ e = UnableToContinueAsGuestError)).
Proof.
  unfold continueAsGuest, signed_in. split; [|split].
  - intros ->. split; [reflexivity|discriminate].
  - intros checkout -> Hs.
    destruct (getCustomer state) as [[[|]]|]; try discriminate Hs.
    split; [reflexivity|discriminate].
  - intros Hs. destruct (getCheckout state) as [checkout|]; [|eauto].
    destruct (getCustomer state) as [[[|]]|]; try discriminate Hs. eauto.
Qed.


(** C5.  The observable returned by [continueAsGuest] calls the
    subscriptions action creator if and only if one of the two consent
    fields of the credentials is neither [undefined] nor [null].  When both
    are absent the consent stream is [empty] and no subscription action is
    emitted.  When it is called, its body replaces an absent consent field
    with [false], it is subscribed at the same time as the billing-address
    sequence (not after it), and each of its actions is emitted at its own
    time, unless the merged stream has failed by then. *)
Theorem continueAsGuest_subscription (credentials : Js.object)
    (opts : option RequestOptions) (state : InternalCheckoutSelectors)
    (obs : Observable) (t0 : nat) :
  continueAsGuest credentials opts state = Ok obs ->
  (consent_provided credentials = true <->
   subscription_calls (subscribe W obs t0) = [(t0, (consent_body credentials, opts))])
  /\ (consent_provided credentials = false ->
      _updateCustomerConsent credentials opts = empty
      /\ subscription_calls (subscribe W obs t0) = []
      /\ Forall (fun x => is_subscription_action (snd x) = false)
                (events (subscribe W obs t0)))
  /\ (Js.is_nullish (Js.get credentials "acceptsMarketingNewsletter") = true ->
      acceptsMarketingNewsletter (consent_body credentials) = Js.VBool false)
  /\ (Js.is_nullish (Js.get credentials "acceptsAbandonedCartEmails") = true ->
      acceptsAbandonedCartEmails (consent_body credentials) = Js.VBool false)
  /\ (consent_provided credentials = true ->
      forall tau a,
        In (tau, a) (ext_events (subscriptions W (consent_body credentials) opts)) ->
        no_failure_upto (t0 + tau) (subscribe W obs t0) ->
        In (t0 + tau, a) (events (subscribe W obs t0))).
Proof.
  intros Hobs.
  destruct (continueAsGuest_inv _ _ _ _ Hobs) as (checkout & Hc & Hs & ->).
  destruct (continueAsGuest_stream checkout state credentials opts t0)
    as (_ & Hcalls & _ & _).
  pose proof (updateCustomerConsent_stream credentials opts t0) as Hconsent.
  cbn [subscribe].
  assert (Hsub : subscription_calls
                   (merge_streams
                      (subscribe W (continueAsGuest_actions checkout state credentials opts) t0)
                      (subscribe W (_updateCustomerConsent credentials opts) t0))
                 = if consent_provided credentials
                   then [(t0, (consent_body credentials, opts))] else []).
  { unfold subscription_calls. rewrite Hcalls, Hconsent.
    destruct (consent_provided credentials); reflexivity. }
  split; [|split; [|split; [|split]]].
  - rewrite Hsub. destruct (consent_provided credentials); split; congruence.
  - intros Hno. rewrite Hsub, Hno. split; [|split; [reflexivity|]].
    + unfold _updateCustomerConsent, consent_provided in *.
      destruct (Js.is_nullish (Js.get credentials "acceptsAbandonedCartEmails"));
        destruct (Js.is_nullish (Js.get credentials "acceptsMarketingNewsletter"));
        try reflexivity; discriminate Hno.
    + rewrite Hconsent, Hno, continueAsGuest_actions_stream.
      destruct (snd (send W _ t0)); cbn; repeat constructor.
  - unfold consent_body. cbn. intros H. unfold Js.or.
    destruct (Js.get credentials "acceptsMarketingNewsletter"); try discriminate H;
      reflexivity.
  - unfold consent_body. cbn. intros H. unfold Js.or.
    destruct (Js.get credentials "acceptsAbandonedCartEmails"); try discriminate H;
      reflexivity.
  - intros Hyes tau a Hin Hnf.
    apply (merge_streams_right_event_merged _ _ (t0 + tau, a)); [|exact Hnf].
    rewrite Hconsent, Hyes. cbn [events]. now apply in_shift.
Qed.

(** *** The claim about [updateAddress] *)

(** [updateAddress] issues one request when the state has a checkout, and
    none otherwise. *)
Lemma updateAddress_requests (addr : Js.object) (opts : option RequestOptions)
    (state : InternalCheckoutSelectors) (t0 : nat) :
  requests (subscribe W (updateAddress addr opts state) t0)
  = match getCheckout state with
    | Some checkout =>
        [(t0, _createOrUpdateBillingAddress (id checkout)
                (updateAddress_body (getBillingAddress state) addr)
                (isBillingFixExperimentEnabled state)
                (negb (Js.isEmpty (getBillingAddress state))) opts)]
    | None => []
    end.
Proof.
  unfold updateAddress. destruct (getCheckout state) as [checkout|]; [|reflexivity].
  cbn [subscribe emit]. unfold requests. cbn.
  destruct (snd (send W _ t0)); reflexivity.
Qed.

(** C3.  For every request that [updateAddress] issues: if the caller's
    address has no email ([undefined]) and a billing address is stored, the
    email of the request body is the stored one; if the caller's email is
    anything else, the empty string included, it is used as given; and if
    the stored billing address has an id, the request body carries that
    id. *)
Theorem updateAddress_request_body (addr : Js.object) (opts : option RequestOptions)
    (state : InternalCheckoutSelectors) (t0 t : nat) (req : Request) :
  In (t, req) (requests (subscribe W (updateAddress addr opts state) t0)) ->
  (forall b, getBillingAddress state = Some b ->
             Js.is_undefined (Js.get addr "email") = true ->
             Js.get (address req) "email" = Js.get b "email")
  /\ (Js.is_undefined (Js.get addr "email") = false ->
      Js.get (address req) "email" = Js.get addr "email")
  /\ (forall b, getBillingAddress state = Some b ->
                Js.truthy (Js.get b "id") = true ->
                Js.get (address req) "id" = Js.get b "id").
Proof.
  rewrite updateAddress_requests.
  destruct (getCheckout state) as [checkout|]; [|intros []].
  intros [[= <- <-]|[]].
  assert (Hreq : forall a b c d e,
             address (_createOrUpdateBillingAddress a b c d e) = b).
  { intros a b c d e. unfold _createOrUpdateBillingAddress.
    destruct c, d; cbn; try destruct (Js.truthy _); cbn; auto. }
  rewrite Hreq. unfold updateAddress_body, Js.get.
  split; [|split].
  - intros b -> Hu. unfold Js.get in Hu. rewrite Hu.
    destruct (Js.truthy _); simplify_map_eq; reflexivity.
  - intros Hu. unfold Js.get in Hu.
    destruct (getBillingAddress state) as [b|]; rewrite ?Hu;
      try destruct (Js.truthy _); simplify_map_eq; reflexivity.
  - intros b -> Ht. unfold Js.get in Ht. rewrite Ht. simplify_map_eq. reflexivity.
Qed.

End BillingFacts.

(** *** Scenarios of the billing-address action creator *)

Section BillingScenarios.
Import Billing.

(** C2, witness: without a checkout the missing checkout is reported,
    signed-in customer or not; with one, the signed-in customer is. *)
Lemma continueAsGuest_preconditions_witness :
  continueAsGuest guestCredentials None state_no_checkout_signed_in
  = Throw (MissingDataError MissingCheckout)
  /\ continueAsGuest guestCredentials None state_signed_in
     = Throw UnableToContinueAsGuestError.
Proof.
  split.
  - apply (proj1 (continueAsGuest_preconditions guestCredentials None
                    state_no_checkout_signed_in)). reflexivity.
  - apply (proj1 (proj2 (continueAsGuest_preconditions guestCredentials None
                           state_signed_in)) checkoutMock); reflexivity.
Defined.

(** C3, witness: the stored email is "old@x.com" and the update omits the
    email. *)
Lemma updateAddress_request_body_witness :
  exists req,
    requests (subscribe world_mock
                (updateAddress {[ "firstName" := Js.VStr "Foo" ]} None state_with_billing) 0)
    = [(0, req)]
    /\ Js.get (address req) "email" = Js.VStr "old@x.com"
    /\ Js.get (address req) "id" = Js.VStr "55c96cda6f04c".
Proof.
  pose proof (updateAddress_requests world_mock {[ "firstName" := Js.VStr "Foo" ]}
                None state_with_billing 0) as Hreq.
  cbn [getCheckout state_with_billing] in Hreq.
  eexists. split; [exact Hreq|].
  destruct (updateAddress_request_body world_mock {[ "firstName" := Js.VStr "Foo" ]}
              None state_with_billing 0 0 _
              ltac:(rewrite Hreq; left; reflexivity))
    as (Hemail & _ & Hid).
  split.
  - rewrite (Hemail storedBillingAddress eq_refl); [reflexivity|].
    vm_compute. reflexivity.
  - rewrite (Hid storedBillingAddress eq_refl); [reflexivity|].
    vm_compute. reflexivity.
Defined.



(** C5, witness: the newsletter consent is given, the other one is
    absent. *)
Lemma continueAsGuest_subscription_witness :
  exists obs,
    continueAsGuest consentingCredentials None state_guest = Ok obs
    /\ subscription_calls (subscribe world_mock obs 0)
       = [(0, ({| email := Js.VStr "a@b.com";
                  acceptsMarketingNewsletter := Js.VBool true;
                  acceptsAbandonedCartEmails := Js.VBool false |}, None))]
    /\ In (1, createAction (SubscriptionsAction UpdateSubscriptionsSucceeded) None)
          (events (subscribe world_mock obs 0)).
Proof.
  eexists. split; [reflexivity|].
  destruct (continueAsGuest_subscription world_mock consentingCredentials None
              state_guest _ 0 eq_refl)
    as (Hcall & _ & _ & _ & Hevents).
  split.
  - apply (proj1 Hcall). vm_compute. reflexivity.
  - apply (Hevents eq_refl 1); [vm_compute; tauto | vm_compute; exact I].
Defined.

End BillingScenarios.

(** ** LanguageService *)

Section LanguageFacts.
Import Language.
Variable Formatter : Type.
Variable IntlMessageFormat_new : string -> option string -> Result Thrown Formatter.
Variable IntlMessageFormat_format : Formatter -> TranslationData -> Result Thrown string.
Variable MessageFormat_compile : option string -> string -> Result Thrown Formatter.
Variable MessageFormat_apply : Formatter -> TranslationData -> Result Thrown string.
Variable _escapeSpecialCharacters : string -> string.

(** C10.  When the translation stored under the prefixed key is absent or
    is not a string, [translate] does not throw: it returns the prefixed
    key, hands one warning to the logger and changes nothing else in the
    service, its translation table in particular. *)
Theorem translate_missing_key (key : string) (data : TranslationData)
    (s : LanguageService Formatter) :
  (forall text, _translations s !! prefixed key <> Some (Js.VStr text)) ->
  translate Formatter IntlMessageFormat_new IntlMessageFormat_format
    MessageFormat_compile MessageFormat_apply _escapeSpecialCharacters key data s
  = (Ok ("optimized_checkout." ++ key)%string,
     warn ("Translation key " ++ Js.dquote ++ "optimized_checkout." ++ key
             ++ Js.dquote ++ " is missing")%string s)
  /\ _translations
       (warn ("Translation key " ++ Js.dquote ++ "optimized_checkout." ++ key
                ++ Js.dquote ++ " is missing")%string s)
     = _translations s.
Proof.
  intros Hmissing. split; [|reflexivity].
  unfold translate, Js.get.
  destruct (_translations s !! prefixed key) as [[| | | |text]|] eqn:Hlookup;
    try reflexivity.
  exfalso. exact (Hmissing text eq_refl).
Qed.

End LanguageFacts.

(** C10, witness: a key without translation, and a key whose translation is
    a number. *)
Lemma translate_missing_key_witness :
  fst (Language.translate unit (fun _ _ => Ok tt) (fun _ _ => Ok EmptyString)
         (fun _ _ => Ok tt) (fun _ _ => Ok EmptyString) (fun m => m)
         "test.absent" ∅ Language.serviceMock)
  = Ok "optimized_checkout.test.absent"
  /\ fst (Language.translate unit (fun _ _ => Ok tt) (fun _ _ => Ok EmptyString)
            (fun _ _ => Ok tt) (fun _ _ => Ok EmptyString) (fun m => m)
            "test.count" ∅ Language.serviceMock)
     = Ok "optimized_checkout.test.count".
Proof.
  split.
  - rewrite (proj1 (translate_missing_key unit (fun _ _ => Ok tt) (fun _ _ => Ok EmptyString)
                      (fun _ _ => Ok tt) (fun _ _ => Ok EmptyString) (fun m => m)
                      "test.absent" ∅ Language.serviceMock
                      ltac:(intros text; vm_compute; discriminate))).
    reflexivity.
  - rewrite (proj1 (translate_missing_key unit (fun _ _ => Ok tt) (fun _ _ => Ok EmptyString)
                      (fun _ _ => Ok tt) (fun _ _ => Ok EmptyString) (fun m => m)
                      "test.count" ∅ Language.serviceMock
                      ltac:(intros text; vm_compute; discriminate))).
    reflexivity.
Defined.

(** ** StripeCSPaymentStrategy: the lifecycle beyond the stated claims *)

Section StripeCSLifecycle.
Import StripeCS StripeCSTrace.
Variable w : World.

Ltac wp_prim :=
  lazymatch goal with
  | |- wp (bind _ _) _ _ _ => apply wp_bind
  | |- wp (try_catch _ _) _ _ _ => apply wp_try_catch
  | |- wp (ret _) _ _ _ => apply wp_ret
  | |- wp (throw _) _ _ _ => apply wp_throw
  | |- wp this _ _ _ => apply wp_this
  | |- wp history _ _ _ => apply wp_history
  | |- wp (emit _) _ _ _ => apply wp_emit
  | |- wp (lift _) _ _ _ => apply wp_lift
  | |- wp (call _ _) _ _ _ => apply wp_call
  | |- wp (set_stripeClient _) _ _ _ => apply wp_set_stripeClient
  | |- wp (set_stripeCheckout _) _ _ _ => apply wp_set_stripeCheckout
  | |- wp (set_selectedMethodId _) _ _ _ => apply wp_set_selectedMethodId
  | |- wp (fun _ _ => _) _ _ _ => unfold wp at 1
  | |- wp (match ?x with _ => _ end) _ _ _ => destruct x eqn:?
  | |- match ?x with _ => _ end => destruct x eqn:?
  end; cbv beta iota.

Ltac head_of t :=
  lazymatch t with
  | ?f _ => head_of f
  | _ => t
  end.

Ltac wp_unfold :=
  lazymatch goal with
  | |- wp ?m _ _ _ =>
      let f := head_of m in
      unfold f
  end; cbv beta iota.

Ltac wp_go := repeat first [wp_prim | wp_unfold].

Ltac wp_done :=
  cbn in *; unfold count in *; cbn in *; rewrite ?app_nil_r in *;
  repeat match goal with
         | |- _ /\ _ => split
         | |- forall _, _ => intro
         | H : _ /\ _ |- _ => destruct H
         | H : _ \/ _ |- _ => destruct H
         | H : False |- _ => destruct H
         end;
  simplify_eq; try congruence; try lia; try reflexivity.

Lemma wp_let {A} (m : M A) s h (Q : Result Thrown A -> Strategy -> Trace -> Prop) :
  wp m s h Q -> let '(r, s', t) := run m s h in Q r s' t.
Proof. exact id. Qed.

(** What [_initAdaptivePricing] does with the instance and the trace. *)
Lemma initAdaptivePricing_post (s : Strategy) (h : Trace) :
  wp (_initAdaptivePricing w) s h
     (fun r s' t =>
        s' = s
        /\ count is_onError t = 0 /\ mounted t = [] /\ registrations t = []
        /\ checkout_instances t = []
        /\ match stripeCheckout s with
           | Some _ => r = Ok tt
           | None =>
               r = Throw (ThrownError (NotInitializedError PaymentNotInitialized))
               /\ t = []
           end).
Proof. wp_go. all: wp_done. Qed.


(** What [_initializeStripeElement] does with the instance and the
    trace. *)
Lemma initializeStripeElement_post stripe gatewayId methodId (s : Strategy) (h : Trace) :
  wp (_initializeStripeElement w stripe gatewayId methodId) s h
     (fun r s' t =>
        count is_onError t = 0
        /\ element_mounts t = []
        /\ (r = Ok tt ->
            exists c co el,
              stripeClient s' = Some c /\ stripeCheckout s' = Some co
              /\ checkout_instances t = [co]
              /\ mounted t = [(el, containerId stripe)]
              /\ registrations t = [(el, LOADER_START); (el, READY); (el, CHANGE)])).
Proof.
  wp_go. all: wp_done.
  all: try (do 3 eexists; repeat split; reflexivity).
Qed.

(** The payloads of [execute] carry the method selected on the instance. *)
Lemma execute_method_wp (o : OrderRequestBody) (opts : option Js.object)
    (s : Strategy) (h : Trace) :
  wp (execute w o opts) s h
     (fun _ _ t =>
        Forall (fun p => formatted_method p = selectedMethodId s) (submitted_payloads t)).
Proof. wp_go. all: wp_done. all: repeat constructor. Qed.

Lemma execute_second_token_wp (o : OrderRequestBody) (opts : option Js.object)
    (s : Strategy) (h : Trace) :
  wp (execute w o opts) s h
     (fun _ _ t =>
        forall p2, submitted_payloads t !! 1 = Some p2 ->
          exists body c session,
            head (submitPayment_failures t)
            = Some (Some (ThrownError (RequestError body)))
            /\ isAdditionalActionError w (errors body) = true
            /\ confirm_results t = [Ok c]
            /\ confirmed_session (Ok c) = Some session
            /\ credit_card_token p2
               = Js.or_string (session_id session)
                   ((additional_action_required body ≫= aa_data) ≫= token)).
Proof.
  wp_go. all: wp_done.
  all: unfold isRequestError in *; repeat case_match; simplify_eq.
  all: do 3 eexists; repeat split; try reflexivity.
  all: unfold confirmed_session; cbn;
    repeat match goal with H : _ = _ |- _ => rewrite H end; try reflexivity.
  all: apply negb_false_iff; assumption.
Qed.


Lemma execute_rethrows_wp (o : OrderRequestBody) (opts : option Js.object)
    (s : Strategy) (h : Trace) :
  wp (execute w o opts) s h
     (fun r _ t =>
        forall e, head (submitPayment_failures t) = Some (Some e) ->
          is_additional_action w e = false ->
          r = Throw e /\ count is_submitPayment t = 1 /\ count is_confirm t = 0).
Proof.
  wp_go. all: wp_done.
  all: unfold is_additional_action, isRequestError in *; repeat case_match; simplify_eq.
  all: try match goal with
           | H : negb ?b = false, H' : ?b = false |- _ =>
               rewrite H' in H; discriminate H
           end.
Qed.

Lemma execute_resolves_wp (o : OrderRequestBody) (opts : option Js.object)
    (s : Strategy) (h : Trace) :
  wp (execute w o opts) s h
     (fun r _ t =>
        (r = Ok tt <-> last (submitPayment_failures t) = Some None)
        /\ (forall e2 c session st,
              submitPayment_failures t !! 1 = Some (Some e2) ->
              In c (confirm_results t) ->
              confirmed_session c = Some session ->
              session_status session = Some st ->
              paymentStatus st <> Paid ->
              r = Throw e2)).
Proof.
  wp_go. all: wp_done.
  all: try (split; intros; simplify_eq; try reflexivity; try discriminate).
  all: try match goal with u : unit |- _ => destruct u; reflexivity end.
  all: unfold confirmed_session in *;
    repeat match goal with
           | H : ?a = _, H2 : context [?a] |- _ => rewrite H in H2; cbn in H2
           end; simplify_eq; try congruence.
Qed.

Lemma execute_store_credit_wp (o : OrderRequestBody) (opts : option Js.object)
    (s : Strategy) (h : Trace) :
  wp (execute w o opts) s h
     (fun r _ t =>
        count is_applyStoreCredit t <= 1
        /\ (forall b f, In (EvApplyStoreCredit b f) t ->
              b = true /\ head t = Some (EvApplyStoreCredit b f)
              /\ getCheckoutOrThrow (getState w h)
                 = Ok {| isStoreCreditApplied := true |}
              /\ (forall e, f = Some e -> r = Throw e /\ t = [EvApplyStoreCredit b f]))
        /\ (is_Some (stripeClient s) -> execute_guard o = true ->
            getCheckoutOrThrow (getState w h) = Ok {| isStoreCreditApplied := true |} ->
            exists f, head t = Some (EvApplyStoreCredit true f))).
Proof.
  unfold execute_guard. wp_go. all: wp_done.
  all: try match goal with H : is_Some None |- _ => destruct H; discriminate end.
  all: try (destruct (string_truthy _), (string_truthy _); cbn in *; discriminate).
  all: try (eexists; reflexivity).
  all: repeat match goal with
              | a : Checkout |- _ => destruct a; cbn in *
              end; simplify_eq; try congruence.
Qed.


(** *** [initialize] *)

(** X1.  [initialize] rejects exactly when its guard fails, then with
    [NotInitializedError], before any call and without touching the
    instance; with arguments that pass the guard it always resolves,
    whatever happens during the setup. *)
Theorem initialize_rejects_only_on_guard (o : PaymentInitializeOptions)
    (s : Strategy) (h : Trace) :
  let '(r, s', t) := run (initialize w o) s h in
  if initialize_guard o then r = Ok tt
  else r = Throw (ThrownError (NotInitializedError PaymentNotInitialized))
       /\ s' = s /\ t = [].
Proof.
  change (wp (initialize w o) s h
            (fun r s' t =>
               if initialize_guard o then r = Ok tt
               else r = Throw (ThrownError (NotInitializedError PaymentNotInitialized))
                    /\ s' = s /\ t = [])).
  unfold initialize, initialize_guard.
  destruct (stripeocs o) as [stripe|]; [|wp_go; wp_done].
  destruct (string_truthy (Some (containerId stripe))),
           (string_truthy (init_gatewayId o)); cbn [negb orb andb].
  2-4: wp_go; wp_done.
  apply wp_try_catch. unfold wp.
  destruct (initialize_setup w stripe _ _ s h) as [[[[]|e] s1] t1]; [reflexivity|].
  pose proof (initialize_catch_frame stripe e s1 (h ++ t1)) as Hc. unfold wp in Hc.
  destruct (initialize_catch stripe e s1 (h ++ t1)) as [[r2 s2] t2].
  destruct Hc as (-> & _). reflexivity.
Qed.


(** X3.  [onError] is invoked at most once by [initialize], and only with the
    error that element initialisation failed with: a failure of adaptive
    pricing never reaches the callback. *)
Theorem onError_only_for_element_failure (o : PaymentInitializeOptions)
    (stripe : StripeOCSPaymentInitializeOptions) (s : Strategy) (h : Trace) r s' t :
  stripeocs o = Some stripe ->
  run (initialize w o) s h = (r, s', t) ->
  count is_onError t <= 1
  /\ forall err, In (EvOnError err) t ->
       has_onError stripe = true
       /\ exists s1 t1,
            run (_initializeStripeElement w stripe
                   (string_or_empty (init_gatewayId o)) (init_methodId o)) s h
            = (Throw (ThrownError err), s1, t1).
Proof.
  intros Hs. unfold run, initialize. rewrite Hs.
  destruct (_ || _).
  { intros [= <- <- <-]. split; [cbn; lia|intros err []]. }
  unfold try_catch, initialize_setup, bind.
  pose proof (initializeStripeElement_post stripe
                (string_or_empty (init_gatewayId o)) (init_methodId o) s h) as H1.
  unfold wp in H1.
  destruct (_initializeStripeElement w stripe _ _ s h) as [[[[]|e] s1] t1].
  - destruct H1 as (Hn1 & _ & Hok).
    destruct (Hok eq_refl) as (c & co & el & _ & Hco & _).
    pose proof (initAdaptivePricing_post s1 (h ++ t1)) as H2. unfold wp in H2.
    destruct (_initAdaptivePricing w s1 (h ++ t1)) as [[r2 s2] t2].
    destruct H2 as (-> & Hn2 & _ & _ & _ & Hr2). rewrite Hco in Hr2. subst r2.
    intros [= <- <- <-].
    assert (Hz : count is_onError (t1 ++ t2) = 0) by (rewrite count_app; lia).
    split; [lia|]. intros err Hin. exfalso.
    unfold count in Hz. apply length_zero_iff_nil in Hz.
    assert (Hf : In (EvOnError err) (List.filter is_onError (t1 ++ t2)))
      by (apply List.filter_In; split; [exact Hin|reflexivity]).
    rewrite Hz in Hf. destruct Hf.
  - destruct H1 as (Hn1 & _).
    pose proof (initialize_catch_frame stripe e s1 (h ++ t1)) as Hc. unfold wp in Hc.
    destruct (initialize_catch stripe e s1 (h ++ t1)) as [[r2 s2] t2].
    destruct Hc as (-> & -> & ->).
    intros [= <- <- <-]. rewrite count_app, Hn1.
    destruct e as [e0|v]; cbn [onError_events]; [destruct (has_onError stripe) eqn:Hon|].
    + split; [cbn; lia|]. intros err Hin. apply in_app_or in Hin as [Hin|Hin].
      * exfalso. unfold count in Hn1. apply length_zero_iff_nil in Hn1.
        assert (Hf : In (EvOnError err) (List.filter is_onError t1))
          by (apply List.filter_In; split; [exact Hin|reflexivity]).
        rewrite Hn1 in Hf. destruct Hf.
      * destruct Hin as [[= <-]|[]]. split; [reflexivity|]. eauto.
    + split; [cbn; lia|]. intros err Hin. rewrite app_nil_r in Hin. exfalso.
      unfold count in Hn1. apply length_zero_iff_nil in Hn1.
      assert (Hf : In (EvOnError err) (List.filter is_onError t1))
        by (apply List.filter_In; split; [exact Hin|reflexivity]).
      rewrite Hn1 in Hf. destruct Hf.
    + split; [cbn; lia|]. intros err Hin. rewrite app_nil_r in Hin. exfalso.
      unfold count in Hn1. apply length_zero_iff_nil in Hn1.
      assert (Hf : In (EvOnError err) (List.filter is_onError t1))
        by (apply List.filter_In; split; [exact Hin|reflexivity]).
      rewrite Hn1 in Hf. destruct Hf.
Qed.

(** X4.  Once the instance holds a checkout instance, [_initAdaptivePricing]
    swallows every failure: it resolves and leaves the instance alone.
    Without a checkout instance it rejects with [NotInitializedError] before
    any call. *)
Theorem initAdaptivePricing_swallows_failures (s : Strategy) (h : Trace) :
  let '(r, s', t) := run (_initAdaptivePricing w) s h in
  s' = s
  /\ match stripeCheckout s with
     | Some _ => r = Ok tt
     | None =>
         r = Throw (ThrownError (NotInitializedError PaymentNotInitialized))
         /\ t = []
     end.
Proof.
  pose proof (initAdaptivePricing_post s h) as H. unfold wp, run in *.
  destruct (_initAdaptivePricing w s h) as [[r s'] t].
  destruct H as (-> & _ & _ & _ & _ & H). auto.
Qed.

(** *** [execute] *)

(** X5.  [execute] makes no call at all when the instance holds no client
    ([NotInitializedError]) or, checked second, when the gateway or method
    id is missing ([InvalidArgumentError]).  Otherwise the order is
    submitted only after the payment method was reloaded, and a payment only
    after the order was submitted. *)
Theorem execute_guards_and_order (o : OrderRequestBody) (opts : option Js.object)
    (s : Strategy) (h : Trace) :
  let '(r, _, t) := run (execute w o opts) s h in
  match stripeClient s with
  | None =>
      r = Throw (ThrownError (NotInitializedError PaymentNotInitialized)) /\ t = []
  | Some _ =>
      if execute_guard o
      then preceded is_loadPaymentMethod_ok is_submitOrder t = true
           /\ preceded is_submitOrder_ok is_submitPayment t = true
      else (exists msg, r = Throw (ThrownError (InvalidArgumentError msg))) /\ t = []
  end.
Proof.
  apply wp_let. unfold execute_guard. wp_go. all: wp_done.
  all: try (destruct (string_truthy _), (string_truthy _); cbn in *; try discriminate).
  all: wp_done.
  all: try (eexists; reflexivity).
Qed.

(** X6.  [execute] leaves the instance as it found it, and neither loads a
    client, nor obtains a checkout instance, nor mounts an element or
    registers a handler. *)
Theorem execute_leaves_instance (o : OrderRequestBody) (opts : option Js.object)
    (s : Strategy) (h : Trace) :
  let '(_, s', t) := run (execute w o opts) s h in
  s' = s /\ count is_getStripeClient t = 0 /\ count is_getStripeCheckout t = 0
  /\ mounted t = [] /\ registrations t = [].
Proof. apply wp_let. wp_go. all: wp_done. Qed.

(** X7.  Every payload [execute] hands to [submitPayment] names the method id
    of the order request, carries [confirm: false] and the method selected
    on the instance; the first one carries the client token of the payment
    method as the state held it when [execute] started. *)
Theorem execute_payloads (o : OrderRequestBody) (opts : option Js.object)
    (s : Strategy) (h : Trace) :
  let '(_, _, t) := run (execute w o opts) s h in
  Forall (fun p => formatted_method p = selectedMethodId s
                   /\ formatted_confirm p = false
                   /\ Some (methodId p) = pay_methodId <$> payment o)
         (submitted_payloads t)
  /\ match head (submitted_payloads t) with
     | Some p =>
         exists pm,
           getPaymentMethodOrThrow (getState w h) (methodId p) None = Ok pm
           /\ credit_card_token p = Some (string_or_empty (clientToken pm))
     | None => True
     end.
Proof.
  apply wp_let. destruct o as [[[m g]|] ord]; wp_go. all: wp_done.
  all: repeat constructor; cbn; try reflexivity.
  all: try (eexists; split; [eassumption|reflexivity]).
Qed.

(** X8.  [execute] resolves exactly when its last [submitPayment] call
    succeeded. *)
Theorem execute_resolves_iff_last_submission_succeeds (o : OrderRequestBody)
    (opts : option Js.object) (s : Strategy) (h : Trace) :
  let '(r, _, t) := run (execute w o opts) s h in
  r = Ok tt <-> last (submitPayment_failures t) = Some None.
Proof.
  pose proof (execute_resolves_wp o opts s h) as H. unfold wp, run in *.
  destruct (execute w o opts s h) as [[r s'] t]. exact (proj1 H).
Qed.

(** X9.  A second payload exists only after a request error recognised as
    additional-action-required and one vendor confirmation that returned a
    session; its token is the session id, or, when the session has no id or
    an empty one, the token of the error body. *)
Theorem execute_second_token (o : OrderRequestBody) (opts : option Js.object)
    (s : Strategy) (h : Trace) r s' t p2 :
  run (execute w o opts) s h = (r, s', t) ->
  submitted_payloads t !! 1 = Some p2 ->
  exists body c session,
    head (submitPayment_failures t) = Some (Some (ThrownError (RequestError body)))
    /\ isAdditionalActionError w (errors body) = true
    /\ confirm_results t = [Ok c]
    /\ confirmed_session (Ok c) = Some session
    /\ credit_card_token p2
       = Js.or_string (session_id session)
           ((additional_action_required body ≫= aa_data) ≫= token).
Proof.
  intros Hrun.
  exact (proj1 (wp_run _ _ _ _) (execute_second_token_wp o opts s h) _ _ _ Hrun p2).
Qed.

(** X10.  [execute] rethrows a failure of [submitPayment] as it is: a failure of
    the first submission that is not recognised as
    additional-action-required, after that single submission and without
    any vendor confirmation; and a failure of the second submission when the
    confirmed session reports a payment status other than Paid. *)
Theorem execute_rethrows_submission_failures (o : OrderRequestBody)
    (opts : option Js.object) (s : Strategy) (h : Trace) r s' t :
  run (execute w o opts) s h = (r, s', t) ->
  (forall e,
     head (submitPayment_failures t) = Some (Some e) ->
     is_additional_action w e = false ->
     r = Throw e /\ count is_submitPayment t = 1 /\ count is_confirm t = 0)
  /\ (forall e2 c session st,
        submitPayment_failures t !! 1 = Some (Some e2) ->
        In c (confirm_results t) ->
        confirmed_session c = Some session ->
        session_status session = Some st ->
        paymentStatus st <> Paid ->
        r = Throw e2).
Proof.
  intros Hrun. split.
  - exact (proj1 (wp_run _ _ _ _) (execute_rethrows_wp o opts s h) _ _ _ Hrun).
  - exact (proj2 (proj1 (wp_run _ _ _ _) (execute_resolves_wp o opts s h) _ _ _ Hrun)).
Qed.

(** X11.  Store credit is applied at most once, only when the checkout says so,
    with [true] and before every other call; when applying it fails,
    [execute] rejects with that failure and attempts nothing else. *)
Theorem execute_store_credit (o : OrderRequestBody) (opts : option Js.object)
    (s : Strategy) (h : Trace) r s' t :
  run (execute w o opts) s h = (r, s', t) ->
  count is_applyStoreCredit t <= 1
  /\ (forall b f, In (EvApplyStoreCredit b f) t ->
        b = true /\ head t = Some (EvApplyStoreCredit b f)
        /\ getCheckoutOrThrow (getState w h) = Ok {| isStoreCreditApplied := true |}
        /\ (forall e, f = Some e -> r = Throw e /\ t = [EvApplyStoreCredit b f]))
  /\ (is_Some (stripeClient s) -> execute_guard o = true ->
      getCheckoutOrThrow (getState w h) = Ok {| isStoreCreditApplied := true |} ->
      exists f, head t = Some (EvApplyStoreCredit true f)).
Proof.
  intros Hrun.
  exact (proj1 (wp_run _ _ _ _) (execute_store_credit_wp o opts s h) _ _ _ Hrun).
Qed.

(** *** The selected method *)

(** X12.  A change event that is a payment event and not collapsed selects its
    type, and every payload of a later [execute] carries that type; any
    other change event leaves the instance as it is and calls nothing. *)
Theorem selected_method_reaches_payload (event : option StripePaymentEvent)
    (gatewayId methodId : string) (has_select : bool)
    (o : OrderRequestBody) (opts : option Js.object) (s : Strategy) (h h' : Trace) :
  let '(r1, s1, t1) :=
    run (_onStripeElementChange event gatewayId methodId has_select) s h in
  r1 = Ok tt
  /\ match event with
     | Some ev =>
         if event_collapsed ev then s1 = s /\ t1 = []
         else
           let '(_, _, t) := run (execute w o opts) s1 h' in
           Forall (fun p => formatted_method p = Some (event_value_type ev))
                  (submitted_payloads t)
     | None => s1 = s /\ t1 = []
     end.
Proof.
  unfold run, _onStripeElementChange.
  destruct event as [ev|]; [|cbn; auto].
  destruct (event_collapsed ev); [cbn; auto|].
  destruct has_select; cbv [bind set_selectedMethodId emit ret];
    (split; [reflexivity|]).
  all: match goal with
       | |- context [execute w ?o1 ?opts1 ?s1 ?h1] =>
           pose proof (execute_method_wp o1 opts1 s1 h1) as H; unfold wp in H;
           destruct (execute w o1 opts1 s1 h1) as [[r s'] t]
       end.
  all: exact H.
Qed.

End StripeCSLifecycle.

Section StripeCSLifecycleScenarios.
Import StripeCS StripeCSTrace.


(** The checkout instance cannot be obtained: [onError] is invoked, once,
    with that failure. *)
Lemma onError_only_for_element_failure_witness :
  count is_onError (snd run_initialize_checkout_fails) <= 1
  /\ has_onError stripeOptionsMock = true.
Proof.
  assert (Hrun : run (initialize world_checkout_fails initializeOptionsMock)
                     Uninitialized []
                 = (fst (fst run_initialize_checkout_fails),
                    snd (fst run_initialize_checkout_fails),
                    snd run_initialize_checkout_fails))
    by (vm_compute; reflexivity).
  destruct (onError_only_for_element_failure world_checkout_fails
              initializeOptionsMock stripeOptionsMock _ _ _ _ _ eq_refl Hrun)
    as [Hcount Hin].
  split; [exact Hcount|].
  apply (Hin (GenericError "checkout unavailable")). vm_compute. tauto.
Defined.

(** The confirmed session has an empty id: the second payload carries the
    token of the error body. *)
Lemma execute_second_token_witness :
  exists body c session,
    head (submitPayment_failures (snd run_no_session_id))
    = Some (Some (ThrownError (RequestError body)))
    /\ isAdditionalActionError world_no_session_id (errors body) = true
    /\ confirm_results (snd run_no_session_id) = [Ok c]
    /\ confirmed_session (Ok c) = Some session
    /\ credit_card_token second_payload_no_session_id
       = Js.or_string (session_id session)
           ((additional_action_required body ≫= aa_data) ≫= token).
Proof.
  assert (Hrun : run (execute world_no_session_id orderRequestBodyMock None)
                     initialized []
                 = (fst (fst run_no_session_id), snd (fst run_no_session_id),
                    snd run_no_session_id))
    by (vm_compute; reflexivity).
  assert (Hp : submitted_payloads (snd run_no_session_id) !! 1
               = Some second_payload_no_session_id) by (vm_compute; reflexivity).
  exact (execute_second_token world_no_session_id _ _ _ _ _ _ _ _ Hrun Hp).
Defined.

(** A first submission that fails with an error that is not a request
    error, and a second submission that fails while the session is unpaid:
    each failure is what [execute] rejects with. *)
Lemma execute_rethrows_submission_failures_witness :
  (fst (fst run_plain_failure) = Throw (ThrownError (GenericError "card declined"))
   /\ count is_submitPayment (snd run_plain_failure) = 1
   /\ count is_confirm (snd run_plain_failure) = 0)
  /\ fst (fst run_unpaid)
     = Throw (ThrownError (GenericError "second submitPayment error")).
Proof.
  assert (Hrun1 : run (execute world_plain_failure orderRequestBodyMock None)
                      initialized []
                  = (fst (fst run_plain_failure), snd (fst run_plain_failure),
                     snd run_plain_failure))
    by (vm_compute; reflexivity).
  assert (Hrun2 : run (execute world_unpaid orderRequestBodyMock None) initialized []
                  = (fst (fst run_unpaid), snd (fst run_unpaid), snd run_unpaid))
    by (vm_compute; reflexivity).
  split.
  - apply (proj1 (execute_rethrows_submission_failures world_plain_failure
                    _ _ _ _ _ _ _ Hrun1)
             (ThrownError (GenericError "card declined"))); reflexivity.
  - apply (proj2 (execute_rethrows_submission_failures world_unpaid
                    _ _ _ _ _ _ _ Hrun2)
             (ThrownError (GenericError "second submitPayment error"))
             (Ok {| confirm_session :=
                      Some {| session_id := Some "paymentIntentId";
                              session_status := Some {| paymentStatus := UnPaid |};
                              session_total_amount := None |};
                    confirm_error := None |})
             {| session_id := Some "paymentIntentId";
                session_status := Some {| paymentStatus := UnPaid |};
                session_total_amount := None |}
             {| paymentStatus := UnPaid |}).
    + reflexivity.
    + vm_compute. tauto.
    + reflexivity.
    + reflexivity.
    + discriminate.
Defined.

(** Store credit is applied: it is the first call of [execute]. *)
Lemma execute_store_credit_witness :
  count is_applyStoreCredit (snd run_store_credit) <= 1
  /\ exists f, head (snd run_store_credit) = Some (EvApplyStoreCredit true f).
Proof.
  assert (Hrun : run (execute world_store_credit orderRequestBodyMock None)
                     initialized []
                 = (fst (fst run_store_credit), snd (fst run_store_credit),
                    snd run_store_credit))
    by (vm_compute; reflexivity).
  destruct (execute_store_credit world_store_credit _ _ _ _ _ _ _ Hrun)
    as (Hcount & _ & Hfirst).
  split; [exact Hcount|].
  apply Hfirst; [eexists; reflexivity|reflexivity|reflexivity].
Defined.

End StripeCSLifecycleScenarios.

(** ** StripeUPEScriptLoader: elements and failures *)

Section StripeUPELoaderFacts.
Import StripeUPE StripeUPECalls.
Variable W : World.

Lemma getElements_all_cached args : forall win e,
  bcStripeElements win = Some e ->
  getElements_all W args win = (repeat e (length args), win, []).
Proof.
  induction args as [|[c o] rest IH]; intros win e He; cbn; [reflexivity|].
  unfold getElements. rewrite He, (IH _ _ He). reflexivity.
Qed.

(** X13.  Over any sequence of [getElements] calls against one window the
    vendor's [elements] is invoked at most once, and not at all when the
    window holds an elements object already; every call returns the same
    object, the one the window holds afterwards, whatever client and
    options it was given. *)
Theorem getElements_created_once
    (args : list (StripeUPEClient * StripeElementsOptions)) (win : StripeHostWindow) :
  let '(rs, win', t) := getElements_all W args win in
  length (List.filter is_elements t) <= 1
  /\ length t = length (List.filter is_elements t)
  /\ bcStripeClient win' = bcStripeClient win
  /\ match bcStripeElements win with
     | Some e => rs = repeat e (length args) /\ win' = win /\ t = []
     | None =>
         match args with
         | [] => rs = [] /\ win' = win /\ t = []
         | (c, o) :: _ =>
             rs = repeat (elements W c o) (length args)
             /\ bcStripeElements win' = Some (elements W c o)
             /\ t = [EvElements c o]
         end
     end.
Proof.
  destruct (bcStripeElements win) as [e|] eqn:He.
  - rewrite (getElements_all_cached args win e He). cbn. repeat split; auto.
  - destruct args as [|[c o] rest]; [cbn; repeat split; auto|].
    cbn [getElements_all]. unfold getElements at 1. rewrite He.
    rewrite (getElements_all_cached rest
               {| bcStripeClient := bcStripeClient win;
                  bcStripeElements := Some (elements W c o);
                  Stripe := Stripe win |} (elements W c o) eq_refl).
    cbn. repeat split; auto.
Qed.

(** X14.  [getStripeClient] loads the script exactly when the window holds no
    client, and then once.  When that succeeds it constructs one client,
    for the given account and locale, returns it and attaches it to the
    window.  When it fails, with what the script loader rejected with or
    with [PaymentMethodClientUnavailableError] when the script loaded
    without defining [Stripe], it constructs no client and attaches none, so
    that the next call loads again.  The elements object of the window is
    never touched. *)
Theorem getStripeClient_loads_iff_uncached (key account : string)
    (locale : option string) (win : StripeHostWindow) :
  let '(r, win', t) := getStripeClient W key account locale win in
  bcStripeElements win' = bcStripeElements win
  /\ match bcStripeClient win with
     | Some c => r = Ok c /\ win' = win /\ t = []
     | None =>
         head t = Some (EvLoadScript "https://js.stripe.com/v3/")
         /\ length (List.filter is_loadScript t) = 1
         /\ match r with
            | Ok c =>
                bcStripeClient win' = Some c
                /\ exists ctor,
                     loadScript W "https://js.stripe.com/v3/" win = Ok (Some ctor)
                     /\ c = ctor HARD_CODED_KEY
                              {| stripeAccount := account; locale := locale;
                                 betas := BETAS; apiVersion := API_VERSION |}
                     /\ constructions t
                        = [(HARD_CODED_KEY,
                            {| stripeAccount := account; locale := locale;
                               betas := BETAS; apiVersion := API_VERSION |})]
            | Throw e =>
                bcStripeClient win' = None /\ constructions t = []
                /\ (loadScript W "https://js.stripe.com/v3/" win = Throw e
                    \/ (loadScript W "https://js.stripe.com/v3/" win = Ok None
                        /\ e = PaymentMethodClientUnavailableError))
            end
     end.
Proof.
  unfold getStripeClient, load.
  destruct (bcStripeClient win) as [c|] eqn:Hc.
  - repeat split; auto.
  - destruct (loadScript W _ win) as [[ctor|]|e0] eqn:Hload; cbn; repeat split; auto.
    exists ctor. auto.
Qed.

End StripeUPELoaderFacts.

(** ** BillingAddressActionCreator: requests and failures *)

Section BillingRequestFacts.
Import Billing BillingScenes.
Variable W : World.

(** X15.  Subscribing to what [updateAddress] returns: without a checkout the
    stream fails at once with [MissingDataError], before any action and
    without a request.  With a checkout it emits [Requested] at once and
    issues one request; when that settles, strictly later, the stream
    either emits [Succeeded] with the returned checkout and completes, or
    fails with the [Failed] error action that carries the response. *)
Theorem updateAddress_notifications (addr : Js.object) (opts : option RequestOptions)
    (state : InternalCheckoutSelectors) (t0 : nat) :
  let S := subscribe W (updateAddress addr opts state) t0 in
  match getCheckout state with
  | None =>
      S = {| events := []; calls := [];
             fin := Errored t0 (Plain (Raised (MissingDataError MissingCheckout))) |}
  | Some checkout =>
      exists req,
        calls S = [(t0, CRequest req)]
        /\ checkoutId req = id checkout
        /\ t0 < settles W req t0
        /\ match snd (send W req t0) with
           | Ok body =>
               events S = [(t0, UpdateRequested); (settles W req t0, UpdateSucceeded body)]
               /\ fin S = Completed (settles W req t0)
           | Throw response =>
               events S = [(t0, UpdateRequested)]
               /\ fin S = Errored (settles W req t0) (ErrorAction (UpdateFailed response))
           end
  end.
Proof.
  cbn zeta. unfold updateAddress.
  destruct (getCheckout state) as [checkout|]; [|reflexivity].
  cbn [subscribe emit].
  exists (_createOrUpdateBillingAddress (id checkout)
            (updateAddress_body (getBillingAddress state) addr)
            (isBillingFixExperimentEnabled state)
            (negb (Js.isEmpty (getBillingAddress state))) opts).
  set (req := _createOrUpdateBillingAddress _ _ _ _ _).
  assert (Hid : checkoutId req = id checkout).
  { unfold req, _createOrUpdateBillingAddress. repeat case_match; reflexivity. }
  assert (Hlater : t0 < settles W req t0) by (unfold settles; lia).
  destruct (snd (send W req t0)); cbn; auto.
Qed.

Lemma request_address a b c d e :
  address (_createOrUpdateBillingAddress a b c d e) = b.
Proof. unfold _createOrUpdateBillingAddress. repeat case_match; reflexivity. Qed.

Lemma request_kind (state : InternalCheckoutSelectors) a b e :
  kind (_createOrUpdateBillingAddress a b (isBillingFixExperimentEnabled state)
          (negb (Js.isEmpty (getBillingAddress state))) e)
  = if isBillingFixExperimentEnabled state
    then if Js.isEmpty (getBillingAddress state) then CreateAddress else UpdateAddress
    else if Js.truthy (Js.get b "id") then UpdateAddress else CreateAddress.
Proof.
  unfold _createOrUpdateBillingAddress.
  repeat case_match; cbn in *; congruence.
Qed.

(** X16.  Whether [updateAddress] creates or updates.  With the experiment on
    (the default when the configuration or the flag is missing) it updates
    exactly when a non-empty billing address is stored, whatever ids there
    are; with the experiment off it updates exactly when the stored billing
    address or the caller's address carries a truthy id. *)
Theorem updateAddress_request_kind (addr : Js.object) (opts : option RequestOptions)
    (state : InternalCheckoutSelectors) (t0 t : nat) (req : Request) :
  In (t, req) (requests (subscribe W (updateAddress addr opts state) t0)) ->
  kind req
  = if isBillingFixExperimentEnabled state
    then if Js.isEmpty (getBillingAddress state) then CreateAddress else UpdateAddress
    else if Js.truthy (Js.get (default ∅ (getBillingAddress state)) "id")
            || Js.truthy (Js.get addr "id")
         then UpdateAddress else CreateAddress.
Proof.
  rewrite updateAddress_requests.
  destruct (getCheckout state) as [checkout|]; [|intros []].
  intros [[= <- <-]|[]]. rewrite request_kind.
  destruct (isBillingFixExperimentEnabled state); [reflexivity|].
  assert (Hid : Js.truthy (Js.get (updateAddress_body (getBillingAddress state) addr) "id")
                = Js.truthy (Js.get (default ∅ (getBillingAddress state)) "id")
                  || Js.truthy (Js.get addr "id")).
  { unfold updateAddress_body, Js.get.
    destruct (getBillingAddress state) as [b|].
    - change (default ∅ (Some b)) with b.
      destruct (Js.truthy (default Js.VUndefined (b !! "id"))) eqn:Hb.
      + rewrite lookup_insert_eq. cbn. rewrite Hb. reflexivity.
      + rewrite lookup_insert_ne by discriminate. reflexivity.
    - change (default ∅ None) with (∅ : Js.object).
      rewrite lookup_insert_ne by discriminate. rewrite lookup_empty. reflexivity. }
  rewrite Hid. reflexivity.
Qed.

Lemma continueAsGuest_requests (credentials : Js.object) (opts : option RequestOptions)
    (state : InternalCheckoutSelectors) (obs : Observable) (t0 : nat) :
  continueAsGuest credentials opts state = Ok obs ->
  exists checkout,
    getCheckout state = Some checkout
    /\ obs = merge (continueAsGuest_actions checkout state credentials opts)
                   (_updateCustomerConsent credentials opts)
    /\ requests (subscribe W obs t0)
       = [(t0, continueAsGuest_request checkout state credentials opts)].
Proof.
  intros Hobs. destruct (continueAsGuest_inv _ _ _ _ Hobs) as (checkout & Hc & _ & ->).
  exists checkout. split; [exact Hc|]. split; [reflexivity|].
  destruct (continueAsGuest_stream W checkout state credentials opts t0)
    as (_ & Hcalls & _).
  eapply requests_of_calls; [exact Hcalls|].
  rewrite updateCustomerConsent_stream.
  destruct (consent_provided credentials); repeat constructor.
Qed.

(** X17.  The request of [continueAsGuest].  It never carries the country of the
    stored billing address; every other stored property is kept unless the
    credentials override it.  With the experiment on it is an update exactly
    when a non-empty billing address is stored; with the experiment off,
    exactly when that merged body carries a truthy id. *)
Theorem continueAsGuest_request_shape (credentials : Js.object)
    (opts : option RequestOptions) (state : InternalCheckoutSelectors)
    (obs : Observable) (t0 t : nat) (req : Request) :
  continueAsGuest credentials opts state = Ok obs ->
  In (t, req) (requests (subscribe W obs t0)) ->
  address req !! "country" = credentials !! "country"
  /\ (forall k, k <> "country" ->
        address req !! k
        = match credentials !! k with
          | Some v => Some v
          | None => getBillingAddress state ≫= (fun b => b !! k)
          end)
  /\ kind req
     = if isBillingFixExperimentEnabled state
       then if Js.isEmpty (getBillingAddress state) then CreateAddress else UpdateAddress
       else if Js.truthy (Js.get (address req) "id") then UpdateAddress
            else CreateAddress.
Proof.
  intros Hobs Hin.
  destruct (continueAsGuest_requests _ _ _ _ t0 Hobs) as (checkout & Hc & _ & Hreq).
  rewrite Hreq in Hin. destruct Hin as [[= <- <-]|[]].
  unfold continueAsGuest_request. rewrite request_address, request_kind.
  split; [|split; [|reflexivity]].
  - unfold continueAsGuest_body, Js.spread, Js.rest.
    destruct (getBillingAddress state) as [b|]; [|reflexivity].
    rewrite lookup_union, lookup_delete_eq.
    destruct (credentials !! "country"); reflexivity.
  - intros k Hk. unfold continueAsGuest_body, Js.spread, Js.rest.
    destruct (getBillingAddress state) as [b|]; cbn.
    + rewrite lookup_union, lookup_delete_ne by congruence.
      destruct (credentials !! k), (b !! k); reflexivity.
    + destruct (credentials !! k); reflexivity.
Qed.

(** X18.  When the request of [continueAsGuest] is rejected, the stream ends in
    an error and the billing part has contributed nothing but [Requested]:
    every other action comes from the subscription stream.  Unless that
    stream fails first, the error is the [Failed] error action carrying the
    response, at the time the request settles. *)
Theorem continueAsGuest_request_rejected (credentials : Js.object)
    (opts : option RequestOptions) (state : InternalCheckoutSelectors)
    (obs : Observable) (checkout : Checkout) (t0 : nat) (response : ErrorResponse) :
  continueAsGuest credentials opts state = Ok obs ->
  getCheckout state = Some checkout ->
  snd (send W (continueAsGuest_request checkout state credentials opts) t0)
  = Throw response ->
  let req := continueAsGuest_request checkout state credentials opts in
  let consent := subscribe W (_updateCustomerConsent credentials opts) t0 in
  let S := subscribe W obs t0 in
  (exists te f, fin S = Errored te f /\ te <= settles W req t0)
  /\ (forall x, In x (events S) -> x = (t0, Requested) \/ In x (events consent))
  /\ (match fin consent with
      | Completed _ => True
      | Errored t2 _ => settles W req t0 <= t2
      end ->
      fin S = Errored (settles W req t0) (ErrorAction (Failed response))).
Proof.
  intros Hobs Hc Hrej. cbn zeta.
  destruct (continueAsGuest_inv _ _ _ _ Hobs) as (checkout' & Hc' & _ & ->).
  assert (checkout' = checkout) by congruence. subst checkout'.
  cbn [subscribe].
  pose proof (continueAsGuest_actions_stream W checkout state credentials opts t0) as Hb.
  cbn zeta in Hb. rewrite Hrej in Hb. rewrite Hb.
  set (consent := subscribe W (_updateCustomerConsent credentials opts) t0).
  set (ts := settles W (continueAsGuest_request checkout state credentials opts) t0).
  unfold merge_streams. cbn [fin events calls].
  destruct (fin consent) as [t2|t2 f2] eqn:Hfin.
  - cbn [fin events]. split; [eauto|]. split; [|reflexivity].
    intros x Hin. apply in_merge_by_time in Hin as [[<-|[]]|Hin]; [left; reflexivity|].
    right. unfold before in Hin. apply List.filter_In in Hin as [Hin _]. exact Hin.
  - destruct (Nat.leb ts t2) eqn:Hle; cbn [fin events].
    + split; [eauto|]. split; [|reflexivity].
      intros x Hin. apply in_merge_by_time in Hin as [[<-|[]]|Hin]; [left; reflexivity|].
      right. unfold before in Hin. apply List.filter_In in Hin as [Hin _]. exact Hin.
    + apply Nat.leb_gt in Hle. split; [exists t2, f2; split; [reflexivity|lia]|].
      split; [|intros Hts; lia].
      intros x Hin. apply in_merge_by_time in Hin as [Hin|Hin]; [|right; exact Hin].
      unfold upto in Hin. apply List.filter_In in Hin as [[<-|[]] _]. left; reflexivity.
Qed.

End BillingRequestFacts.

Section BillingRequestScenarios.
Import Billing BillingScenes.

(** The experiment is off and the stored billing address has no id: the
    address is created, although one is stored. *)
Lemma updateAddress_request_kind_witness :
  exists req,
    requests (subscribe world_mock
                (updateAddress {[ "firstName" := Js.VStr "Foo" ]} None
                   state_experiment_off) 0)
    = [(0, req)]
    /\ kind req = CreateAddress.
Proof.
  pose proof (updateAddress_requests world_mock {[ "firstName" := Js.VStr "Foo" ]}
                None state_experiment_off 0) as Hreq.
  cbn [getCheckout state_experiment_off] in Hreq.
  eexists. split; [exact Hreq|].
  rewrite (updateAddress_request_kind world_mock {[ "firstName" := Js.VStr "Foo" ]}
             None state_experiment_off 0 0 _ ltac:(rewrite Hreq; left; reflexivity)).
  vm_compute. reflexivity.
Defined.

(** A stored billing address with an id and a country; the credentials
    hold an email only. *)
Lemma continueAsGuest_request_shape_witness :
  exists req,
    requests (subscribe world_mock
                (merge (continueAsGuest_actions checkoutMock state_with_billing
                          guestCredentials None)
                       (_updateCustomerConsent guestCredentials None)) 0)
    = [(0, req)]
    /\ address req !! "country" = None
    /\ address req !! "firstName" = Some (Js.VStr "Test")
    /\ address req !! "email" = Some (Js.VStr "a@b.com")
    /\ kind req = UpdateAddress.
Proof.
  destruct (continueAsGuest_requests world_mock guestCredentials None
              state_with_billing _ 0 eq_refl) as (checkout & Hc & _ & Hreq).
  injection Hc as <-.
  eexists. split; [exact Hreq|].
  destruct (continueAsGuest_request_shape world_mock guestCredentials None
              state_with_billing _ 0 0 _ eq_refl
              ltac:(rewrite Hreq; left; reflexivity))
    as (Hcountry & Hkeys & Hkind).
  split; [rewrite Hcountry; vm_compute; reflexivity|].
  split; [rewrite (Hkeys "firstName") by discriminate; vm_compute; reflexivity|].
  split; [rewrite (Hkeys "email") by discriminate; vm_compute; reflexivity|].
  rewrite Hkind. vm_compute. reflexivity.
Defined.

(** The request is rejected and no consent is given: the stream fails with
    the [Failed] action when the request settles. *)
Lemma continueAsGuest_request_rejected_witness :
  fin (subscribe world_rejecting
         (merge (continueAsGuest_actions checkoutMock state_guest guestCredentials None)
                (_updateCustomerConsent guestCredentials None)) 0)
  = Errored 2 (ErrorAction (Failed badRequest)).
Proof.
  destruct (continueAsGuest_request_rejected world_rejecting guestCredentials None
              state_guest _ checkoutMock 0 badRequest eq_refl eq_refl eq_refl)
    as (_ & _ & Hfin).
  apply Hfin. vm_compute. exact I.
Defined.

End BillingRequestScenarios.

(** ** LanguageService: formatting, remapping, configuration *)

Section LanguageServiceFacts.
Import Language LanguageConfig.
Variable Formatter : Type.
Variable IntlMessageFormat_new : string -> option string -> Result Thrown Formatter.
Variable IntlMessageFormat_format : Formatter -> TranslationData -> Result Thrown string.
Variable MessageFormat_compile : option string -> string -> Result Thrown Formatter.
Variable MessageFormat_apply : Formatter -> TranslationData -> Result Thrown string.
Variable _escapeSpecialCharacters : string -> string.

Abbreviation translate :=
  (Language.translate Formatter IntlMessageFormat_new IntlMessageFormat_format
     MessageFormat_compile MessageFormat_apply _escapeSpecialCharacters).
Abbreviation mapKeys := (Language.mapKeys Formatter).


(** What [translate] writes. *)
Lemma translate_frame (key : string) (data : TranslationData)
    (s : LanguageService Formatter) :
  let '(_, s1) := translate key data s in
  _locale s1 = _locale s /\ _locales s1 = _locales s
  /\ _translations s1 = _translations s
  /\ _isCspNonceExperimentEnabled s1 = _isCspNonceExperimentEnabled s
  /\ (forall k, k <> prefixed key -> _formatters s1 !! k = _formatters s !! k)
  /\ match _formatters s !! prefixed key with
     | Some _ => _formatters s1 = _formatters s
     | None => True
     end.
Proof.
  unfold Language.translate.
  destruct (Js.is_string _); cbn [negb];
    [|repeat split; auto; destruct (_formatters s !! prefixed key); auto].
  destruct (_isCspNonceExperimentEnabled s) eqn:Hcsp;
    destruct (_formatters s !! prefixed key) as [f|] eqn:Hf.
  - destruct (IntlMessageFormat_format f _) as [r|e]; [|destruct (_isFormatError e)];
      repeat split; auto.
  - destruct (IntlMessageFormat_new _ _) as [f|e]; [|repeat split; auto].
    destruct (IntlMessageFormat_format f _) as [r|e]; [|destruct (_isFormatError e)];
      cbn; repeat split; auto; intros k Hk; apply lookup_insert_ne; congruence.
  - repeat split; auto.
  - destruct (MessageFormat_compile _ _) as [f|e]; [|repeat split; auto].
    cbn; repeat split; auto; intros k Hk; apply lookup_insert_ne; congruence.
Qed.

(** Translating twice. *)
Lemma translate_twice (key : string) (data : TranslationData)
    (s : LanguageService Formatter) :
  let '(r1, s1) := translate key data s in
  let '(r2, s2) := translate key data s1 in
  r2 = r1 /\ _formatters s2 = _formatters s1.
Proof.
  unfold Language.translate.
  destruct (Js.is_string (Js.get (_translations s) (prefixed key))) eqn:Hstr;
    cbn [negb].
  2: { cbn. rewrite Hstr. cbn. auto. }
  destruct (_isCspNonceExperimentEnabled s) eqn:Hcsp;
    destruct (_formatters s !! prefixed key) as [f|] eqn:Hf.
  - destruct (IntlMessageFormat_format f _) as [r|e] eqn:Hfmt;
      [|destruct (_isFormatError e) eqn:He];
      rewrite Hstr, Hcsp, Hf, Hfmt; cbn [negb]; rewrite ?He; auto.
  - destruct (IntlMessageFormat_new _ _) as [f|e] eqn:Hnew.
    + destruct (IntlMessageFormat_format f _) as [r|e] eqn:Hfmt;
        [|destruct (_isFormatError e) eqn:He];
        cbn; rewrite Hstr, Hcsp; cbn; rewrite lookup_insert_eq, Hfmt, ?He; auto.
    + rewrite Hstr, Hcsp, Hf, Hnew. cbn. auto.
  - rewrite Hstr, Hcsp, Hf. cbn. auto.
  - destruct (MessageFormat_compile _ _) as [f|e] eqn:Hnew.
    + cbn. rewrite Hstr, Hcsp. cbn. rewrite lookup_insert_eq. auto.
    + rewrite Hstr, Hcsp, Hf, Hnew. cbn. auto.
Qed.


(** X20.  [translate] writes nothing but the log and the cache of formatters:
    locale, locales, translations and the experiment flag stay; the cache
    changes at most under the prefixed key, and an entry that is there is
    never replaced.  Translating the same key with the same data a second
    time gives the same outcome and leaves the cache as the first call left
    it: a formatter is built at most once for a key. *)
Theorem translate_caches_formatter (key : string) (data : TranslationData)
    (s : LanguageService Formatter) :
  let '(r1, s1) := translate key data s in
  let '(r2, s2) := translate key data s1 in
  (_locale s1 = _locale s /\ _locales s1 = _locales s
   /\ _translations s1 = _translations s
   /\ _isCspNonceExperimentEnabled s1 = _isCspNonceExperimentEnabled s)
  /\ (forall k, k <> prefixed key -> _formatters s1 !! k = _formatters s !! k)
  /\ match _formatters s !! prefixed key with
     | Some _ => _formatters s1 = _formatters s
     | None => True
     end
  /\ r2 = r1 /\ _formatters s2 = _formatters s1.
Proof.
  pose proof (translate_frame key data s) as Hframe.
  pose proof (translate_twice key data s) as Htwice.
  destruct (translate key data s) as [r1 s1].
  destruct (translate key data s1) as [r2 s2].
  destruct Hframe as (H1 & H2 & H3 & H4 & H5 & H6). destruct Htwice as [H7 H8].
  repeat split; assumption.
Qed.

(** X21.  [mapKeys] only writes translations.  A single mapping stores under the
    new key what is stored under the existing one and leaves every other
    translation alone; the locale of the new key and the formatters are not
    touched.  When nothing is stored under the existing key, the new key is
    reported missing by [translate]. *)
Theorem mapKeys_copies_translation (maps : list (string * string))
    (new existing : string) (data : TranslationData) (s : LanguageService Formatter) :
  (_locale (mapKeys maps s) = _locale s
   /\ _locales (mapKeys maps s) = _locales s
   /\ _formatters (mapKeys maps s) = _formatters s
   /\ _logger (mapKeys maps s) = _logger s)
  /\ _translations (mapKeys [(new, existing)] s)
     = <[prefixed new := Js.get (_translations s) (prefixed existing)]> (_translations s)
  /\ (_translations s !! prefixed existing = None ->
      fst (translate new data (mapKeys [(new, existing)] s)) = Ok (prefixed new)).
Proof.
  split; [|split].
  - revert s. induction maps as [|kv maps IH]; intros s; [cbn; auto|].
    cbn [Language.mapKeys fold_left].
    match goal with
    | |- context [fold_left ?f maps ?s1] =>
        change (fold_left f maps s1) with (mapKeys maps s1);
        destruct (IH s1) as (H1 & H2 & H3 & H4)
    end.
    rewrite H1, H2, H3, H4. cbn. auto.
  - reflexivity.
  - intros Hnone. unfold Language.translate, Language.mapKeys. cbn.
    unfold Js.get at 1. rewrite lookup_insert_eq. cbn.
    unfold Js.get. rewrite Hnone. reflexivity.
Qed.

(** X22.  Once a formatter is cached for a key, [translate] answers from it
    whatever is stored as the translation, as long as that is a string:
    remapping the key with [mapKeys] afterwards does not change what
    [translate] returns for it. *)
Theorem mapKeys_after_translate_is_ignored (key other : string)
    (data : TranslationData) (s : LanguageService Formatter) (f : Formatter) :
  _formatters s !! prefixed key = Some f ->
  Js.is_string (Js.get (_translations s) (prefixed key)) = true ->
  Js.is_string (Js.get (_translations s) (prefixed other)) = true ->
  fst (translate key data (mapKeys [(key, other)] s)) = fst (translate key data s).
Proof.
  intros Hf Hkey Hother. unfold Language.translate, Language.mapKeys. cbn.
  unfold Js.get at 1. rewrite lookup_insert_eq. cbn. rewrite Hother, Hkey. cbn.
  rewrite Hf. destruct (_isCspNonceExperimentEnabled s).
  - destruct (IntlMessageFormat_format f _) as [r|e]; [|destruct (_isFormatError e)];
      reflexivity.
  - reflexivity.
Qed.

(** X23.  With the experiment on, [translate] swallows an error raised while
    formatting when it carries an [originalMessage] property, and returns
    that message, or the empty string when the property holds none.  So it
    rejects only with what the constructor of the formatter threw, leaving
    the service as it was, or with an error raised while formatting that
    carries no such property; and what it returns is the prefixed key of a
    missing translation, the formatted text, or such an original message. *)
Theorem translate_format_error (key : string) (data : TranslationData)
    (s : LanguageService Formatter) :
  _isCspNonceExperimentEnabled s = true ->
  let '(r, s1) := translate key data s in
  match r with
  | Throw e =>
      (s1 = s /\ _formatters s !! prefixed key = None
       /\ exists message,
            IntlMessageFormat_new message (_locales s !! prefixed key) = Throw e)
      \/ (_isFormatError e = false
          /\ exists f, _formatters s1 !! prefixed key = Some f
                       /\ IntlMessageFormat_format f (_transformData data) = Throw e)
  | Ok text =>
      (Js.is_string (Js.get (_translations s) (prefixed key)) = false
       /\ text = prefixed key)
      \/ exists f,
           _formatters s1 !! prefixed key = Some f
           /\ (IntlMessageFormat_format f (_transformData data) = Ok text
               \/ exists m,
                    IntlMessageFormat_format f (_transformData data)
                    = Throw (FormatError m)
                    /\ text = default EmptyString m)
  end.
Proof.
  intros Hcsp. unfold Language.translate. rewrite Hcsp.
  destruct (Js.is_string _) eqn:Hstr; cbn [negb]; [|left; auto].
  destruct (_formatters s !! prefixed key) as [f|] eqn:Hf.
  - destruct (IntlMessageFormat_format f _) as [text|[m|msg]] eqn:Hfmt; cbn.
    + right. exists f. auto.
    + right. exists f. split; [exact Hf|]. right. exists m. destruct m; auto.
    + right. split; [reflexivity|]. exists f. auto.
  - destruct (IntlMessageFormat_new _ _) as [f|e] eqn:Hnew; [|left; eauto].
    assert (Hcached : _formatters (set_formatter Formatter (prefixed key) f s)
                      !! prefixed key = Some f) by apply lookup_insert_eq.
    destruct (IntlMessageFormat_format f _) as [text|[m|msg]] eqn:Hfmt; cbn.
    + right. exists f. auto.
    + right. exists f. split; [exact Hcached|]. right. exists m. destruct m; auto.
    + right. split; [reflexivity|]. exists f. auto.
Qed.

(** *** Flattening *)


Lemma dotted_cons parentKey k path :
  dotted parentKey (k :: path) = dotted (resultKey parentKey k) path.
Proof. reflexivity. Qed.






(** *** Configuration *)

Lemma transform_keys_lookup (config : LanguageConfig)
    (tr df fb : TransformedTranslations) (l : list string) :
  NoDup l ->
  forall output,
    let output' := fold_left (transform_key config tr df fb) l output in
    out_locale output' = out_locale output
    /\ forall k,
         (In k l ->
          (out_translations output' !! k,  out_locales output' !! k)
          = if Js.truthy (Js.get tr k)
            then (Some (Js.get tr k),
                  Some (or_default (default ∅ (locales config) !! k) (out_locale output)))
            else if Js.truthy (Js.get df k)
                 then (Some (Js.get df k),
                       Some (default DEFAULT_LOCALE (defaultLocale config)))
                 else (Some (Js.get fb k),
                       Some (default DEFAULT_LOCALE (fallbackLocale config))))
         /\ (~ In k l ->
             out_translations output' !! k = out_translations output !! k
             /\ out_locales output' !! k = out_locales output !! k).
Proof.
  induction 1 as [|k0 l Hnotin Hnodup IH]; intros output; cbn zeta.
  - split; [reflexivity|]. intros k. split; [intros []|auto].
  - rewrite list_elem_of_In in Hnotin.
    cbn [fold_left]. specialize (IH (transform_key config tr df fb output k0)).
    cbn zeta in IH. destruct IH as [Hloc IH].
    assert (Hloc0 : out_locale (transform_key config tr df fb output k0)
                    = out_locale output).
    { unfold transform_key. repeat case_match; reflexivity. }
    split; [congruence|]. intros k. destruct (IH k) as [Hin Hout]. split.
    + intros [->|Hk]; [|rewrite (Hin Hk), Hloc0; reflexivity].
      destruct (Hout Hnotin) as [-> ->]. unfold transform_key.
      repeat case_match; cbn; rewrite !lookup_insert_eq; reflexivity.
    + intros Hk. destruct Hout as [-> ->]; [intros Hin'; apply Hk; right; exact Hin'|].
      assert (Hne : k0 <> k) by (intros ->; apply Hk; left; reflexivity).
      unfold transform_key. repeat case_match; cbn;
        rewrite !lookup_insert_ne by exact Hne; auto.
Qed.

(** A truthy own translation is stored with its own locale, or with the
    configured one. *)
Lemma transformConfig_own_translation (config : LanguageConfig) (key : string) :
  Js.truthy (Js.get (_flattenObject (default [] (translations config)) ∅ EmptyString) key)
  = true ->
  out_locale (_transformConfig config) = or_default (locale config) DEFAULT_LOCALE
  /\ out_locales (_transformConfig config) !! key
     = Some (or_default (default ∅ (locales config) !! key)
                        (or_default (locale config) DEFAULT_LOCALE)).
Proof.
  intros Htruthy. unfold _transformConfig.
  set (tr := _flattenObject (default [] (translations config)) ∅ EmptyString) in *.
  set (df := _flattenObject (default [] (defaultTranslations config)) ∅ EmptyString).
  set (fb := _flattenObject (default [] (fallbackTranslations config)) ∅ EmptyString).
  set (keys := dom fb ∪ dom df ∪ dom tr).
  destruct (transform_keys_lookup config tr df fb (elements keys) (NoDup_elements keys)
              {| out_translations := ∅; out_locales := ∅;
                 out_locale := or_default (locale config) DEFAULT_LOCALE |})
    as [Hloc Hkeys].
  cbn zeta in Hloc, Hkeys. split; [exact Hloc|].
  destruct (Hkeys key) as [Hin _]. rewrite Htruthy in Hin.
  assert (Hk : In key (elements keys)).
  { apply list_elem_of_In, elem_of_elements, elem_of_union_r, elem_of_dom.
    unfold Js.get in Htruthy.
    destruct (tr !! key) as [v|]; [eexists; reflexivity|discriminate Htruthy]. }
  injection (Hin Hk) as _ Hl. exact Hl.
Qed.

(** X25.  Take a configuration none of whose flattened keys names a member
    of [Object.prototype].  For every key of one of its three flattened
    tables, [_transformConfig] stores the own translation with its own
    locale (or the configured one) when the own translation is truthy; else
    the default translation with the default locale when that one is truthy;
    else whatever the fallback table holds, with the fallback locale.  It
    stores nothing under any other key, so every translation has a locale.
    (The hypothesis delimits the configurations on which the reads of the
    source are reads of own properties.) *)
Theorem transformConfig_precedence (config : LanguageConfig) (key : string) :
  own_properties_only config = true ->
  let tr := _flattenObject (default [] (translations config)) ∅ EmptyString in
  let df := _flattenObject (default [] (defaultTranslations config)) ∅ EmptyString in
  let fb := _flattenObject (default [] (fallbackTranslations config)) ∅ EmptyString in
  let output := _transformConfig config in
  out_locale output = or_default (locale config) DEFAULT_LOCALE
  /\ (out_translations output !! key, out_locales output !! key)
     = if bool_decide (key ∈ dom fb ∪ dom df ∪ dom tr)
       then if Js.truthy (Js.get tr key)
            then (Some (Js.get tr key),
                  Some (or_default (default ∅ (locales config) !! key)
                                   (or_default (locale config) DEFAULT_LOCALE)))
            else if Js.truthy (Js.get df key)
                 then (Some (Js.get df key),
                       Some (default DEFAULT_LOCALE (defaultLocale config)))
                 else (Some (Js.get fb key),
                       Some (default DEFAULT_LOCALE (fallbackLocale config)))
       else (None, None).
Proof.
  intros _. cbn zeta. unfold _transformConfig.
  set (tr := _flattenObject (default [] (translations config)) ∅ EmptyString).
  set (df := _flattenObject (default [] (defaultTranslations config)) ∅ EmptyString).
  set (fb := _flattenObject (default [] (fallbackTranslations config)) ∅ EmptyString).
  set (keys := dom fb ∪ dom df ∪ dom tr).
  assert (Hnodup : NoDup (elements keys)).
  { apply NoDup_elements. }
  destruct (transform_keys_lookup config tr df fb (elements keys) Hnodup
              {| out_translations := ∅; out_locales := ∅;
                 out_locale := or_default (locale config) DEFAULT_LOCALE |})
    as [Hloc Hkeys].
  cbn zeta in Hloc, Hkeys. split; [exact Hloc|].
  destruct (Hkeys key) as [Hin Hout].
  assert (Hiff : In key (elements keys) <-> key ∈ keys).
  { rewrite <- list_elem_of_In. apply elem_of_elements. }
  destruct (bool_decide_reflect (key ∈ keys)) as [Hk|Hk].
  - apply Hin, Hiff, Hk.
  - destruct Hout as [-> ->]; [intros Hin'; apply Hk, Hiff, Hin'|reflexivity].
Qed.

(** *** The preferred locale *)

Lemma hasTranslations_iff (s : LanguageService Formatter) :
  _hasTranslations s = true
  <-> exists k code, _locales s !! k = Some code
                     /\ language code = language (_locale s).
Proof.
  unfold _hasTranslations. rewrite Nat.ltb_lt. split.
  - intros Hlen.
    destruct (List.filter _ _) as [|code rest] eqn:Hf; [cbn in Hlen; lia|].
    assert (Hin : In code (List.filter
                             (fun code => String.eqb (language code) (language (_locale s)))
                             (map snd (map_to_list (_locales s)))))
      by (rewrite Hf; left; reflexivity).
    apply List.filter_In in Hin as [Hin Heq].
    apply in_map_iff in Hin as ([k c] & Hc & Hin). cbn in Hc. subst c.
    apply list_elem_of_In, elem_of_map_to_list in Hin.
    exists k, code. split; [exact Hin|]. apply String.eqb_eq. exact Heq.
  - intros (k & code & Hk & Heq).
    assert (Hin : In code (List.filter
                             (fun code => String.eqb (language code) (language (_locale s)))
                             (map snd (map_to_list (_locales s))))).
    { apply List.filter_In. split.
      - apply in_map_iff. exists (k, code). split; [reflexivity|].
        apply list_elem_of_In, elem_of_map_to_list. exact Hk.
      - apply String.eqb_eq. exact Heq. }
    destruct (List.filter _ _); [destruct Hin|cbn; lia].
Qed.

(** X26.  [getLocale] returns the locale of the service when some translation
    is stored with a locale of the same language (the part of the code
    before the first dash), and [en] otherwise: it returns the locale of
    the service exactly when such a translation exists or that locale is
    [en] itself. *)
Theorem getLocale_iff_language_supported (s : LanguageService Formatter) :
  (getLocale s = _locale s \/ getLocale s = DEFAULT_LOCALE)
  /\ (getLocale s = _locale s
      <-> (exists k code, _locales s !! k = Some code
                          /\ language code = language (_locale s))
          \/ _locale s = DEFAULT_LOCALE).
Proof.
  unfold getLocale. pose proof (hasTranslations_iff s) as Hiff.
  destruct (_hasTranslations s).
  - split; [left; reflexivity|]. split; [intros _; left; apply Hiff; reflexivity|auto].
  - split; [right; reflexivity|]. split; [intros <-; right; reflexivity|].
    intros [Hex | ->]; [|reflexivity]. apply Hiff in Hex. discriminate Hex.
Qed.

(** X27.  A service built from a configuration none of whose flattened keys
    names a member of [Object.prototype], and that holds a truthy own
    translation without a locale of its own, reports the configured locale
    (or [en] when none is configured). *)
Theorem getLocale_of_configured_service (config : LanguageConfig) (key : string) :
  own_properties_only config = true ->
  Js.truthy (Js.get (_flattenObject (default [] (translations config)) ∅ EmptyString) key)
  = true ->
  default ∅ (locales config) !! key = None ->
  getLocale (@new_LanguageService Formatter config)
  = or_default (locale config) DEFAULT_LOCALE.
Proof.
  intros _ Htruthy Hnone.
  destruct (transformConfig_own_translation config key Htruthy) as [Hloc Hkey].
  assert (Hlocale : _locale (@new_LanguageService Formatter config)
                    = or_default (locale config) DEFAULT_LOCALE) by exact Hloc.
  unfold getLocale.
  destruct (_hasTranslations (@new_LanguageService Formatter config)) eqn:Hhas;
    [exact Hlocale|].
  exfalso. apply not_true_iff_false in Hhas. apply Hhas, hasTranslations_iff.
  exists key, (or_default (locale config) DEFAULT_LOCALE). rewrite Hlocale.
  split; [|reflexivity].
  cbn [new_LanguageService _locales]. rewrite Hkey, Hnone. reflexivity.
Qed.

End LanguageServiceFacts.

Section LanguageServiceScenarios.
Import Language LanguageConfig.

(** The greeting was translated before it is remapped onto the farewell:
    it is still the greeting. *)
Lemma mapKeys_after_translate_is_ignored_witness :
  fst (translate string formatterMock_new formatterMock_format
         (fun _ m => Ok m) (fun f _ => Ok f) (fun m => m) "test.greeting" ∅
         (mapKeys string [("test.greeting", "test.farewell")] translatedServiceMock))
  = Ok "Hello".
Proof.
  rewrite (mapKeys_after_translate_is_ignored string formatterMock_new
             formatterMock_format (fun _ m => Ok m) (fun f _ => Ok f) (fun m => m)
             "test.greeting" "test.farewell" ∅ translatedServiceMock "Hello"
             ltac:(vm_compute; reflexivity) ltac:(vm_compute; reflexivity)
             ltac:(vm_compute; reflexivity)).
  vm_compute. reflexivity.
Defined.

(** A message with an unclosed placeholder: formatting fails with a format
    error whose original message is what [translate] returns. *)
Lemma translate_format_error_witness :
  fst (translate string formatterMock_new formatterMock_format
         (fun _ m => Ok m) (fun f _ => Ok f) (fun m => m) "test.name" ∅
         translatedServiceMock)
  = Ok "{name"
  /\ exists f m,
       _formatters translatedServiceMock !! prefixed "test.name" = Some f
       /\ formatterMock_format f (_transformData ∅) = Throw (FormatError m)
       /\ "{name" = default EmptyString m.
Proof.
  pose proof (translate_format_error string formatterMock_new formatterMock_format
                (fun _ m => Ok m) (fun f _ => Ok f) (fun m => m)
                "test.name" ∅ translatedServiceMock eq_refl) as H.
  assert (Hrun : translate string formatterMock_new formatterMock_format
                   (fun _ m => Ok m) (fun f _ => Ok f) (fun m => m) "test.name" ∅
                   translatedServiceMock
                 = (Ok "{name", translatedServiceMock)) by (vm_compute; reflexivity).
  rewrite Hrun in H. split; [rewrite Hrun; reflexivity|].
  destruct H as [[Hmissing _]|(f & Hf & [Hok|(m & Hm & Htext)])].
  - vm_compute in Hmissing. discriminate Hmissing.
  - exfalso. assert (f = "{name") by (vm_compute in Hf; congruence). subst f.
    vm_compute in Hok. discriminate Hok.
  - exists f, m. auto.
Defined.

(** The configuration holds a French translation without a locale of its
    own: the service reports the configured locale. *)
Lemma getLocale_of_configured_service_witness :
  getLocale (@new_LanguageService unit configMock) = "fr-CA".
Proof.
  exact (getLocale_of_configured_service unit configMock
           "optimized_checkout.test.thanks"
           ltac:(vm_compute; reflexivity) ltac:(vm_compute; reflexivity)
           ltac:(vm_compute; reflexivity)).
Defined.

(** The farewell has an empty own translation: the default one is stored,
    with the default locale. *)
Lemma transformConfig_precedence_witness :
  (out_translations (_transformConfig configMock) !! "optimized_checkout.test.farewell",
   out_locales (_transformConfig configMock) !! "optimized_checkout.test.farewell")
  = (Some (Js.VStr "Bye"), Some "en").
Proof.
  destruct (transformConfig_precedence configMock "optimized_checkout.test.farewell"
              ltac:(vm_compute; reflexivity)) as [_ H].
  rewrite H. vm_compute. reflexivity.
Defined.

(** A translation named [toString] is outside these statements. *)
Example inherited_name_is_excluded :
  own_properties_only configWithInheritedName = false.
Proof. vm_compute. reflexivity. Qed.

End LanguageServiceScenarios.

(** ** LanguageService: escaping *)

Section LanguageEscapeFacts.
Import LanguageEscape.
Local Open Scope string_scope.

Lemma unquoted_app (a b : string) : unquoted (a ++ b) = unquoted a ++ unquoted b.
Proof.
  induction a as [|c a IH]; [reflexivity|].
  change (String c a ++ b) with (String c (a ++ b)). cbn [unquoted].
  destruct (is_char c "'"); [exact IH|]. rewrite IH. reflexivity.
Qed.

Lemma scan_unquoted (message : string) :
  forall state, unquoted (scan state message) = unquoted message.
Proof.
  induction message as [|c rest IH]; intros state; [reflexivity|].
  cbn [unquoted]. destruct state; cbn [scan];
    destruct (is_char c "'") eqn:Hq; try destruct (has_quote rest);
    simpl; rewrite ?Hq, ?IH; reflexivity.
Qed.

Lemma scan_without_quote (message : string) :
  forall state, has_quote message = false -> state <> InQuotes ->
                scan state message = message.
Proof.
  induction message as [|c rest IH]; intros state Hq Hs; [reflexivity|].
  cbn [has_quote] in Hq. apply orb_false_iff in Hq as [Hc Hrest].
  destruct state; cbn [scan]; rewrite ?Hc; try contradiction; f_equal; apply IH; auto;
    unfold after; repeat case_match; discriminate.
Qed.

Lemma scan_word (w rest : string) :
  all_word w = true ->
  forall state, state = Outside \/ state = InWord ->
    scan state (w ++ rest) = w ++ scan (if String.eqb w EmptyString then state else InWord) rest.
Proof.
  induction w as [|c w IH]; intros Hw state Hs; [reflexivity|].
  cbn [all_word] in Hw. apply andb_true_iff in Hw as [Hc Hw].
  change (String c w ++ rest) with (String c (w ++ rest)).
  destruct Hs as [-> | ->]; cbn [scan]; unfold after; rewrite Hc;
    rewrite (IH Hw InWord (or_intror eq_refl)); cbn; destruct (String.eqb w EmptyString);
    reflexivity.
Qed.

Lemma scan_in_quotes (inner rest : string) :
  has_quote inner = false ->
  scan InQuotes (inner ++ "'" ++ rest) = inner ++ "''" ++ scan Outside rest.
Proof.
  induction inner as [|c inner IH]; intros Hq; [reflexivity|].
  cbn [has_quote] in Hq. apply orb_false_iff in Hq as [Hc Hinner].
  change (String c inner ++ "'" ++ rest) with (String c (inner ++ "'" ++ rest)).
  cbn [scan]. rewrite Hc, (IH Hinner). reflexivity.
Qed.

Lemma has_quote_app (a b : string) : has_quote (a ++ b) = has_quote a || has_quote b.
Proof.
  induction a as [|c a IH]; [reflexivity|].
  change (String c a ++ b) with (String c (a ++ b)). cbn [has_quote].
  rewrite IH. apply orb_assoc.
Qed.

Lemma scan_equals_quote (x : string) :
  scan InWord ("='" ++ x)
  = "=" ++ (if has_quote x then "''" ++ scan InQuotes x else "'" ++ scan Outside x).
Proof. reflexivity. Qed.

Lemma has_quote_quote (x : string) : has_quote ("'" ++ x) = true.
Proof. reflexivity. Qed.

(** X28.  [_escapeSpecialCharacters] only ever adds single quotes: without its
    quotes the result is the message without its quotes, and a message
    without a quote is returned as it is.  Where the message starts with
    word characters, [=], and a quoted text, both quotes are doubled and
    the rest is escaped in the same way. *)
Theorem escapeSpecialCharacters_doubles_quotes :
  (forall message, unquoted (_escapeSpecialCharacters message) = unquoted message)
  /\ (forall message, has_quote message = false ->
                      _escapeSpecialCharacters message = message)
  /\ (forall w inner rest,
        w <> EmptyString -> all_word w = true -> has_quote inner = false ->
        _escapeSpecialCharacters (w ++ "='" ++ inner ++ "'" ++ rest)
        = w ++ "=''" ++ inner ++ "''" ++ _escapeSpecialCharacters rest).
Proof.
  unfold _escapeSpecialCharacters. split; [|split].
  - intros message. apply scan_unquoted.
  - intros message Hq. apply scan_without_quote; [exact Hq|discriminate].
  - intros w inner rest Hne Hw Hq.
    rewrite (scan_word w _ Hw Outside (or_introl eq_refl)).
    destruct (String.eqb w EmptyString) eqn:He;
      [apply String.eqb_eq in He; contradiction|].
    f_equal. rewrite scan_equals_quote, has_quote_app, has_quote_quote, orb_true_r.
    rewrite (scan_in_quotes inner rest Hq). reflexivity.
Qed.

(** An attribute in quotes is escaped; a quote that is never closed opens
    no match; escaping an escaped message adds quotes again. *)
Example escapeSpecialCharacters_examples :
  _escapeSpecialCharacters "<a href='www.test.com'>{name}</a>"
  = "<a href=''www.test.com''>{name}</a>"
  /\ _escapeSpecialCharacters "it's a='b" = "it's a='b"
  /\ _escapeSpecialCharacters "x='it's a='b'" = "x=''it''s a=''b''"
  /\ _escapeSpecialCharacters "a=''b''" = "a=''''b''".
Proof. repeat split; reflexivity. Qed.

(** [translate] hands the escaped translation to the constructor of the
    formatter. *)
Example translate_escapes_before_formatting :
  fst (Language.translate string LanguageConfig.formatterMock_new
         LanguageConfig.formatterMock_format (fun _ m => Ok m) (fun f _ => Ok f)
         _escapeSpecialCharacters "test.link" ∅ LanguageConfig.translatedServiceMock)
  = Ok "<a href=''/terms''>{label}</a>".
Proof. vm_compute. reflexivity. Qed.

End LanguageEscapeFacts.

(** ** mergeOrPush *)

Section MergeOrPushFacts.
Import MergeOrPush.
Variable isPlainObject : Js.object -> bool.
Variable objectMerge : Js.object -> Js.object -> Js.object.

Lemma findIndex_from_spec (test : Js.object -> nat -> bool) (array : list Js.object) :
  forall start,
    match findIndex_from test array start with
    | Some index =>
        exists i x, index = start + i /\ array !! i = Some x
                    /\ test x index = true
                    /\ forall j y, j < i -> array !! j = Some y -> test y (start + j) = false
    | None => forall j y, array !! j = Some y -> test y (start + j) = false
    end.
Proof.
  induction array as [|value rest IH]; intros start; cbn [findIndex_from].
  - intros j y Hj. rewrite lookup_nil in Hj. discriminate Hj.
  - destruct (test value start) eqn:Htest.
    + exists 0, value. rewrite Nat.add_0_r. repeat split; auto. intros j y Hj. lia.
    + specialize (IH (S start)). destruct (findIndex_from test rest (S start)) as [index|].
      * destruct IH as (i & x & -> & Hx & Ht & Hbefore).
        exists (S i), x. split; [lia|]. split; [exact Hx|]. split; [exact Ht|].
        intros [|j] y Hj Hy; cbn in Hy.
        -- injection Hy as <-. rewrite Nat.add_0_r. exact Htest.
        -- replace (start + S j) with (S start + j) by lia.
           apply (Hbefore j y); [lia|exact Hy].
      * intros [|j] y Hy; cbn in Hy.
        -- injection Hy as <-. rewrite Nat.add_0_r. exact Htest.
        -- replace (start + S j) with (S start + j) by lia. apply (IH j y Hy).
Qed.

(** X29.  [mergeOrPush] returns the array as it is when there is no item.
    Otherwise, when no element passes the derived predicate, the item is
    appended; when some element does, the first such element, and only that
    one, is replaced by its merge with the item, so that the array keeps
    its length and every other element its place. *)
Theorem mergeOrPush_first_match_or_push (array : list Js.object) (item : Js.object)
    (predicate : option Predicate) :
  let test := iteratee (derivedPredicate item predicate) array in
  let result := mergeOrPush isPlainObject objectMerge array (Some item) predicate in
  mergeOrPush isPlainObject objectMerge array None predicate = array
  /\ ((forall j y, array !! j = Some y -> test y j = false) ->
      result = array ++ [item])
  /\ (forall i x, array !! i = Some x -> test x i = true ->
        (forall j y, j < i -> array !! j = Some y -> test y j = false) ->
        result = <[i := merged isPlainObject objectMerge x item]> array
        /\ length result = length array
        /\ forall j, j <> i -> result !! j = array !! j).
Proof.
  cbn zeta. split; [reflexivity|]. unfold mergeOrPush, findIndex.
  pose proof (findIndex_from_spec (iteratee (derivedPredicate item predicate) array)
                array 0) as Hspec.
  destruct (findIndex_from _ array 0) as [index|].
  - destruct Hspec as (i0 & x0 & -> & Hx0 & Ht0 & Hbefore0). cbn [Nat.add] in *.
    split.
    + intros Hnone. rewrite (Hnone i0 x0 Hx0) in Ht0. discriminate Ht0.
    + intros i x Hx Ht Hbefore.
      assert (i = i0).
      { destruct (Nat.lt_trichotomy i i0) as [Hlt|[Heq|Hgt]]; [|exact Heq|].
        - rewrite (Hbefore0 i x Hlt Hx) in Ht. discriminate Ht.
        - rewrite (Hbefore i0 x0 Hgt Hx0) in Ht0. discriminate Ht0. }
      subst i0. rewrite Hx. split; [reflexivity|].
      split; [apply length_insert|].
      intros j Hj. apply list_lookup_insert_ne. congruence.
  - cbn [Nat.add] in Hspec. split; [reflexivity|].
    intros i x Hx Ht _. rewrite (Hspec i x Hx) in Ht. discriminate Ht.
Qed.

Lemma matches_empty (element : Js.object) : matches ∅ element = true.
Proof. unfold matches. apply bool_decide_eq_true_2, map_Forall_empty. Qed.

(** X30.  Without a predicate, an item that has no [id] property is never
    appended to a non-empty array: it is merged into the first element,
    whatever that is.  The same holds for a predicate object all of whose
    values are falsy. *)
Theorem mergeOrPush_without_id_merges_into_head (first : Js.object)
    (rest : list Js.object) (item : Js.object) (predicate : option Predicate) :
  match predicate with
  | None => item !! "id" = None
  | Some (PObject source) => forall k v, source !! k = Some v -> Js.truthy v = false
  | Some (PFunction _) => False
  end ->
  mergeOrPush isPlainObject objectMerge (first :: rest) (Some item) predicate
  = merged isPlainObject objectMerge first item :: rest
  /\ mergeOrPush isPlainObject objectMerge [] (Some item) predicate = [item].
Proof.
  intros Hp.
  assert (Hd : derivedPredicate item predicate = PObject ∅).
  { destruct predicate as [[f|source]|]; cbn in *.
    - destruct Hp.
    - f_equal. unfold pickBy. apply map_empty_filter_2.
      intros k v Hk Ht. cbn in Ht. rewrite (Hp k v Hk) in Ht. discriminate Ht.
    - unfold pick_id. rewrite Hp. reflexivity. }
  unfold mergeOrPush, findIndex. rewrite Hd. cbn [iteratee findIndex_from].
  rewrite matches_empty. split; reflexivity.
Qed.

End MergeOrPushFacts.

Section MergeOrPushScenarios.
Import MergeOrPush.

(** An item without an id is merged into the head of the consignments. *)
Lemma mergeOrPush_without_id_merges_into_head_witness :
  mergeOrPush (fun _ => true) objectMergeMock consignmentsMock (Some itemWithoutId) None
  = [ {[ "id" := Js.VStr "a"; "city" := Js.VStr "Perth" ]};
      {[ "id" := Js.VStr "b"; "city" := Js.VStr "Austin" ]} ].
Proof.
  unfold consignmentsMock.
  rewrite (proj1 (mergeOrPush_without_id_merges_into_head (fun _ => true)
                    objectMergeMock _ _ itemWithoutId None
                    ltac:(vm_compute; reflexivity))).
  vm_compute. reflexivity.
Defined.

End MergeOrPushScenarios.
